(** * git-history-sidebar: a shallow embedding of the history core

    The development follows the TypeScript sources of the extension:
    - [gitService.ts] (the class [GitService] with [parseBlameOutput]):
      repository resolution, path relativisation, the name-status parser,
      the cached read operations and the porcelain blame parser;
    - [cacheManager.ts] (the class [CacheManager]): the tag-invalidated
      memoisation layer;
    - [treeItems.ts] (the classes [FolderItem] and [FileItem]): the nodes
      of a file tree;
    - [historyProvider.ts] (the class [GitHistoryProvider]):
      [buildFileTree], [expandFoldersToCurrentFile] and the fold commands.

    Further parts of the same sources are embedded after these:
    the initialisation of [GitService] ([initializeRepos],
    [detectSubmodules], [isValidRepo]), [getGitHubRemoteUrl] and
    [getLog]; the label of a [CommitItem] of [treeItems.ts];
    [truncateAuthor] and the annotation text of [blameProvider.ts]; and
    of [historyProvider.ts] the list of commits ([getCommitsForFile],
    [loadMore]), [handleEditorChange] and [getChildren].

    Strings are Rocq [string]s: one [ascii] stands for one UTF-16 code unit
    in the range U+0000..U+00FF, so every character class of the source
    ([\s], [\d], [.], [trim]) is the restriction of the JavaScript class to
    that range.  JavaScript numbers that hold integers are [Z]; this is exact
    below 2^53, which covers line numbers and every timestamp that a [Date]
    accepts.  A [Map] whose iteration order cannot be observed in a result
    is a [gmap]; the one that is searched in insertion order is a list. *)

From Stdlib Require Import ZArith Ascii String List Permutation Sorted Lia.
From stdpp Require Import gmap strings list fin_maps sorting.

Local Open Scope Z_scope.

(** ** JavaScript runtime: the string and number built-ins the sources use *)

Module JS.

Definition chars (s : string) : list ascii := list_ascii_of_string s.
Definition str (cs : list ascii) : string := string_of_list_ascii cs.

(** [s.startsWith(p)] *)
Fixpoint startsWith (s p : string) {struct p} : bool :=
  match p, s with
  | EmptyString, _ => true
  | String a p', String b s' => Ascii.eqb a b && startsWith s' p'
  | String _ _, EmptyString => false
  end.

(** [s.endsWith(p)] *)
Definition endsWith (s p : string) : bool :=
  startsWith (str (rev (chars s))) (str (rev (chars p))).

(** [s.substring(n)] for [0 <= n] (also [s.slice(n)] for such [n]) *)
Fixpoint substringFrom (n : nat) (s : string) : string :=
  match n, s with
  | O, _ => s
  | S n', String _ s' => substringFrom n' s'
  | S _, EmptyString => EmptyString
  end.

(** [s.split(sep)] where the separator is one code unit out of a class:
    ['\n'], [' '] and the regular expression [/[\\/]/]. *)
Fixpoint splitBy (sep : ascii -> bool) (s : string) : list string :=
  match s with
  | EmptyString => [EmptyString]
  | String c s' =>
      if sep c then EmptyString :: splitBy sep s'
      else match splitBy sep s' with
           | w :: ws => String c w :: ws
           | [] => [String c EmptyString]
           end
  end.

Definition isChar (c : ascii) : ascii -> bool := Ascii.eqb c.
Definition isNewline : ascii -> bool := isChar "010".
Definition isSpaceChar : ascii -> bool := isChar " ".
Definition isPathSeparator (c : ascii) : bool :=
  isChar "/" c || isChar "\" c.

(** [\d] *)
Definition isDigit (c : ascii) : bool :=
  let n := nat_of_ascii c in (48 <=? n)%nat && (n <=? 57)%nat.

(** [[a-f0-9]] *)
Definition isLowerHex (c : ascii) : bool :=
  let n := nat_of_ascii c in isDigit c || ((97 <=? n)%nat && (n <=? 102)%nat).

(** [\s], and the characters [trim] and [parseInt] strip: TAB, LF, VT, FF,
    CR, SPACE and NBSP (the members below U+0100). *)
Definition isWhiteSpace (c : ascii) : bool :=
  let n := nat_of_ascii c in
  ((9 <=? n)%nat && (n <=? 13)%nat) || (n =? 32)%nat || (n =? 160)%nat.

(** Line terminators, the characters [.] does not match: LF and CR. *)
Definition isLineTerminator (c : ascii) : bool :=
  let n := nat_of_ascii c in (n =? 10)%nat || (n =? 13)%nat.

Fixpoint takeWhile {A} (p : A -> bool) (l : list A) : list A :=
  match l with
  | x :: l' => if p x then x :: takeWhile p l' else []
  | [] => []
  end.

Fixpoint dropWhile {A} (p : A -> bool) (l : list A) : list A :=
  match l with
  | x :: l' => if p x then dropWhile p l' else l
  | [] => []
  end.

(** A greedy scan with [p] stops in front of this list. *)
Definition stopsAt {A} (p : A -> bool) (l : list A) : Prop :=
  match l with
  | [] => True
  | x :: _ => p x = false
  end.

(** [s.trim()] *)
Definition trim (s : string) : string :=
  str (rev (dropWhile isWhiteSpace (rev (dropWhile isWhiteSpace (chars s))))).

(** Truthiness of a string: [""] is falsy. *)
Definition truthy (s : string) : bool :=
  match s with EmptyString => false | _ => true end.

(** [a || d] on a possibly undefined string. *)
Definition orElse (a : option string) (d : string) : string :=
  match a with
  | Some s => if truthy s then s else d
  | None => d
  end.

(** [s.replace(/\\/g, '/')] *)
Fixpoint replaceBackslashes (s : string) : string :=
  match s with
  | EmptyString => EmptyString
  | String c s' =>
      String (if isChar "\" c then "/"%char else c) (replaceBackslashes s')
  end.

Definition hasBackslash (s : string) : bool :=
  existsb (isChar "\") (chars s).

Definition digitValue (c : ascii) : Z := Z.of_nat (nat_of_ascii c) - 48.

Definition decimalValue (ds : list ascii) : Z :=
  fold_left (fun acc c => 10 * acc + digitValue c) ds 0.

(** [parseInt(s, 10)]; [None] is [NaN].  Leading white space is skipped,
    one sign is accepted, the longest run of digits is read and whatever
    follows is ignored. *)
Definition parseInt (s : string) : option Z :=
  let body := dropWhile isWhiteSpace (chars s) in
  let '(neg, rest) :=
    match body with
    | c :: r => if isChar "-" c then (true, r)
                else if isChar "+" c then (false, r) else (false, body)
    | [] => (false, body)
    end in
  match takeWhile isDigit rest with
  | [] => None
  | ds => Some (if neg : bool then - decimalValue ds else decimalValue ds)
  end.

(** *** [Date.prototype.toISOString] *)

Definition digitChar (d : Z) : ascii := ascii_of_nat (48 + Z.to_nat d).

(** [n] written with exactly [w] decimal digits. *)
Fixpoint padded (w : nat) (n : Z) : list ascii :=
  match w with
  | O => []
  | S w' => padded w' (n / 10) ++ [digitChar (n mod 10)]
  end.

(** Civil date of a day count relative to 1970-01-01 (proleptic Gregorian
    calendar, as ECMAScript prescribes). *)
Definition civilFromDays (days : Z) : Z * Z * Z :=
  let z := days + 719468 in
  let era := z / 146097 in
  let doe := z - era * 146097 in
  let yoe := (doe - doe / 1460 + doe / 36524 - doe / 146096) / 365 in
  let doy := doe - (365 * yoe + yoe / 4 - yoe / 100) in
  let mp := (5 * doy + 2) / 153 in
  let d := doy - (153 * mp + 2) / 5 + 1 in
  let m := if mp <? 10 then mp + 3 else mp - 9 in
  let y := yoe + era * 400 + (if m <=? 2 then 1 else 0) in
  (y, m, d).

Definition isoYear (y : Z) : list ascii :=
  if (0 <=? y) && (y <=? 9999) then padded 4 y
  else (if y <? 0 then "-"%char else "+"%char) :: padded 6 (Z.abs y).

(** [new Date(ms).toISOString()]: a time value beyond 8.64e15 ms is an
    invalid date, for which the method throws a [RangeError] ([None]). *)
Definition toISOString (ms : Z) : option string :=
  if Z.abs ms <=? 8640000000000000 then
    let days := ms / 86400000 in
    let msOfDay := ms mod 86400000 in
    let '(y, m, d) := civilFromDays days in
    Some (str (isoYear y ++ "-"%char :: padded 2 m ++ "-"%char :: padded 2 d
               ++ "T"%char :: padded 2 (msOfDay / 3600000)
               ++ ":"%char :: padded 2 (msOfDay / 60000 mod 60)
               ++ ":"%char :: padded 2 (msOfDay / 1000 mod 60)
               ++ "."%char :: padded 3 (msOfDay mod 1000) ++ ["Z"%char]))
  else None.

(** [Array.prototype.sort(cmp)]: the sort is stable, and an element moves
    in front of another exactly when the comparator says it is smaller.
    [cmp a b] is the number the comparator returns. *)
Fixpoint sortInsert {A} (cmp : A -> A -> Z) (x : A) (l : list A) : list A :=
  match l with
  | [] => [x]
  | y :: l' => if 0 <? cmp x y then y :: sortInsert cmp x l' else x :: l
  end.

Definition sort {A} (cmp : A -> A -> Z) (l : list A) : list A :=
  foldr (sortInsert cmp) [] l.

(** The order a comparator stands for: [a] may come before [b]. *)
Definition notAfter {A} (cmp : A -> A -> Z) (a b : A) : Prop :=
  cmp a b <= 0.

End JS.

(** ** gitService.ts: the porcelain blame parser *)

Record BlameLineInfo := {
  lineNumber : Z;
  commitHash : string;
  author : string;
  date : string;
  summary : string
}.

(** [Partial<BlameLineInfo>]: every field may be absent. *)
Record PartialBlameLineInfo := {
  p_lineNumber : option Z;
  p_commitHash : option string;
  p_author : option string;
  p_date : option string;
  p_summary : option string
}.

Module BlameParser.

(** The locals of [parseBlameOutput]. *)
Record State := {
  blameInfo : list BlameLineInfo;
  commitCache : gmap string PartialBlameLineInfo;
  currentCommitHash : string
}.

Definition initial : State :=
  {| blameInfo := []; commitCache := ∅; currentCommitHash := "" |}.

(** [line.match(/^[a-f0-9]{40} \d+ \d+/)] *)
Definition isHeaderLine (line : string) : bool :=
  let cs := JS.chars line in
  let hash := take 40 cs in
  (length hash =? 40)%nat && forallb JS.isLowerHex hash &&
  match drop 40 cs with
  | sp1 :: r1 =>
      JS.isSpaceChar sp1 &&
      match JS.takeWhile JS.isDigit r1, JS.dropWhile JS.isDigit r1 with
      | _ :: _, sp2 :: d :: _ => JS.isSpaceChar sp2 && JS.isDigit d
      | _, _ => false
      end
  | [] => false
  end.

(** [{ commitHash: currentCommitHash }] *)
Definition freshInfo (h : string) : PartialBlameLineInfo :=
  {| p_lineNumber := None; p_commitHash := Some h; p_author := None;
     p_date := None; p_summary := None |}.

Definition setAuthor (a : string) (i : PartialBlameLineInfo) :=
  {| p_lineNumber := p_lineNumber i; p_commitHash := p_commitHash i;
     p_author := Some a; p_date := p_date i; p_summary := p_summary i |}.
Definition setDate (d : string) (i : PartialBlameLineInfo) :=
  {| p_lineNumber := p_lineNumber i; p_commitHash := p_commitHash i;
     p_author := p_author i; p_date := Some d; p_summary := p_summary i |}.
Definition setSummary (s : string) (i : PartialBlameLineInfo) :=
  {| p_lineNumber := p_lineNumber i; p_commitHash := p_commitHash i;
     p_author := p_author i; p_date := p_date i; p_summary := Some s |}.

(** [parts[k]] of [line.split(' ')]; a missing part is [undefined], which
    [parseInt] reads as [NaN] and which is never the case for [parts[0]]. *)
Definition part (k : nat) (line : string) : option string :=
  JS.splitBy JS.isSpaceChar line !! k.

(** The header branch of the loop body.  [now] is what
    [new Date().toISOString()] returns while this line is processed. *)
Definition onHeader (now : string) (st : State) (line : string) : State :=
  let hash := default "" (part 0 line) in
  let number := default 0 (part 2 line ≫= JS.parseInt) in
  let '(commitInfo, cache') :=
    match commitCache st !! hash with
    | Some info => (info, commitCache st)
    | None => (freshInfo hash, <[hash := freshInfo hash]> (commitCache st))
    end in
  {| blameInfo := blameInfo st ++
       [{| lineNumber := number;
           commitHash := hash;
           author := JS.orElse (p_author commitInfo) "Unknown";
           date := JS.orElse (p_date commitInfo) now;
           summary := JS.orElse (p_summary commitInfo) "" |}];
     commitCache := cache';
     currentCommitHash := hash |}.

(** [if (currentCommitHash) { const commitInfo = commitCache.get(..);
    if (commitInfo) { commitInfo.<field> = .. } }]: the cached object is
    updated in place; it has no other owner than the map. *)
Definition updateCurrent (f : PartialBlameLineInfo -> PartialBlameLineInfo)
    (st : State) : State :=
  if JS.truthy (currentCommitHash st) then
    match commitCache st !! currentCommitHash st with
    | Some info =>
        {| blameInfo := blameInfo st;
           commitCache := <[currentCommitHash st := f info]> (commitCache st);
           currentCommitHash := currentCommitHash st |}
    | None => st
    end
  else st.

(** Is the assignment inside the two guards reached? *)
Definition currentKnown (st : State) : bool :=
  JS.truthy (currentCommitHash st) &&
  bool_decide (is_Some (commitCache st !! currentCommitHash st)).

(** One iteration of [for (const line of lines)].  [None]: the iteration
    throws, which happens only in [new Date(NaN or out of range)
    .toISOString()]. *)
Definition step (now : string) (st : State) (line : string) : option State :=
  if isHeaderLine line then Some (onHeader now st line)
  else if JS.startsWith line "author " then
    Some (updateCurrent (setAuthor (JS.substringFrom 7 line)) st)
  else if JS.startsWith line "author-time " then
    let timestamp := JS.parseInt (JS.substringFrom 12 line) in
    if currentKnown st then
      match timestamp ≫= (fun t => JS.toISOString (t * 1000)) with
      | Some iso => Some (updateCurrent (setDate iso) st)
      | None => None
      end
    else Some st
  else if JS.startsWith line "summary " then
    Some (updateCurrent (setSummary (JS.substringFrom 8 line)) st)
  else Some st.

(** The loop; [clock i] is the wall-clock reading, already formatted,
    during the iteration over line number [i]. *)
Fixpoint loop (clock : nat -> string) (i : nat) (lines : list string)
    (st : State) : option State :=
  match lines with
  | [] => Some st
  | line :: rest =>
      match step (clock i) st line with
      | Some st' => loop clock (S i) rest st'
      | None => None
      end
  end.

Definition byLineNumber (a b : BlameLineInfo) : Z :=
  lineNumber a - lineNumber b.

Definition parseBlameOutput (clock : nat -> string) (output : string)
    : option (list BlameLineInfo) :=
  match loop clock 0 (JS.splitBy JS.isNewline output) initial with
  | Some st => Some (JS.sort byLineNumber (blameInfo st))
  | None => None
  end.

(** What the statements about the parser speak of: the header lines of an
    input and the final-line numbers they carry. *)
Definition headerLines (output : string) : list string :=
  filter (fun l => isHeaderLine l = true) (JS.splitBy JS.isNewline output).

Definition headerNumber (line : string) : Z :=
  default 0 (part 2 line ≫= JS.parseInt).

(** An [author-time] line is well formed when it carries a number of
    seconds that [Date] accepts; other lines are not constrained. *)
Definition validTimestampLine (line : string) : bool :=
  if JS.startsWith line "author-time " then
    match JS.parseInt (JS.substringFrom 12 line) with
    | Some t => Z.abs (t * 1000) <=? 8640000000000000
    | None => false
    end
  else true.

Definition timestampsValid (output : string) : bool :=
  forallb validTimestampLine (JS.splitBy JS.isNewline output).

End BlameParser.


(** ** Node's [path] module

    [path.normalize], [path.join], [path.basename] and [path.sep] depend on
    the platform the extension host runs on; the service is written against
    the interface, and [PosixPath.posix] is the POSIX member. *)

Class NodePath := {
  normalize : string -> string;
  join : string -> string -> string;
  basename : string -> string;
  sep : ascii
}.

Module PosixPath.

Definition isSlash : ascii -> bool := JS.isChar "/".

(** [normalizeString]: drop empty and ["."] segments, let [".."] cancel
    the segment before it, and keep a leading [".."] of a relative path. *)
Definition pushSegment (allowAboveRoot : bool) (res : list string)
    (seg : string) : list string :=
  if String.eqb seg "" || String.eqb seg "." then res
  else if String.eqb seg ".." then
    match res with
    | last :: res' =>
        if String.eqb last ".."
        then (if allowAboveRoot then seg :: res else res)
        else res'
    | [] => if allowAboveRoot then [seg] else []
    end
  else seg :: res.

Definition joinWith (d : string) (segs : list string) : string :=
  match segs with
  | [] => ""
  | s :: rest => fold_left (fun acc x => acc +:+ d +:+ x) rest s
  end.

Definition posixNormalize (p : string) : string :=
  if String.eqb p "" then "."
  else
    let isAbsolute := JS.startsWith p "/" in
    let trailingSeparator := JS.endsWith p "/" in
    let body := joinWith "/"
      (rev (fold_left (pushSegment (negb isAbsolute))
                      (JS.splitBy isSlash p) [])) in
    if String.eqb body "" then
      (if isAbsolute then "/" else if trailingSeparator then "./" else ".")
    else
      let body' := if trailingSeparator then body +:+ "/" else body in
      if isAbsolute then "/" +:+ body' else body'.

Definition posixJoin (a b : string) : string :=
  match JS.truthy a, JS.truthy b with
  | true, true => posixNormalize (a +:+ "/" +:+ b)
  | true, false => posixNormalize a
  | false, true => posixNormalize b
  | false, false => "."
  end.

Definition posixBasename (p : string) : string :=
  JS.str (rev (JS.takeWhile (fun c => negb (isSlash c))
                 (JS.dropWhile isSlash (rev (JS.chars p))))).

Definition posix : NodePath :=
  {| normalize := posixNormalize; join := posixJoin;
     basename := posixBasename; sep := "/" |}.

End PosixPath.

(** ** cacheManager.ts *)

Module CacheManager.

(** [CacheEntry<T>] *)
Record CacheEntry (T : Type) := {
  data : T;
  timestamp : Z;
  filePath : string;
  commitHash : option string
}.
Arguments data {T}.
Arguments timestamp {T}.
Arguments filePath {T}.
Arguments commitHash {T}.

Section Methods.
Context {T : Type}.

(** [get(key)]: [None] is [undefined]. *)
Definition get (cache : gmap string (CacheEntry T)) (key : string)
    : option T :=
  match cache !! key with
  | None => None
  | Some entry => Some (data entry)
  end.

(** [set(key, data, metadata)]; [now] is [Date.now()]. *)
Definition set (now : Z) (cache : gmap string (CacheEntry T))
    (key : string) (d : T) (metaFilePath : string)
    (metaCommitHash : option string) : gmap string (CacheEntry T) :=
  <[key := {| data := d; timestamp := now; filePath := metaFilePath;
              commitHash := metaCommitHash |}]> cache.

Definition clear (cache : gmap string (CacheEntry T))
    : gmap string (CacheEntry T) := ∅.

(** [invalidate(filePath?)]: a truthy argument walks the entries and
    deletes the ones carrying that tag; an absent or empty argument
    clears the map. *)
Definition invalidate (cache : gmap string (CacheEntry T))
    (arg : option string) : gmap string (CacheEntry T) :=
  match arg with
  | Some fp =>
      if JS.truthy fp then
        map_fold (fun key entry acc =>
                    if String.eqb (filePath entry) fp
                    then delete key acc else acc)
                 cache cache
      else ∅
  | None => ∅
  end.
End Methods.

End CacheManager.

(** ** gitService.ts: resolver, name-status parser and cached reads *)

Inductive FileStatus := added | modified | deleted | unchanged.

(** The anonymous record type [{path: string; status: ..}]. *)
Module ChangedFile.
Record t := { path : string; status : FileStatus }.
End ChangedFile.

(** Arrays of changed files are JavaScript objects that several owners
    share: the array [getChangedFiles] returns is the one it stored in the
    cache, and [buildFileTree] sorts the array it is handed in place.  They
    live in a store and are passed by reference. *)
Definition Ref := positive.
Abbreviation Store := (gmap positive (list ChangedFile.t)).

Definition alloc (h : Store) (v : list ChangedFile.t) : Ref * Store :=
  let r := fresh (dom h) in (r, <[r := v]> h).

(** What a cache entry of the service holds ([CacheEntry<any>]). *)
Inductive Payload :=
| Files (r : Ref)
| Content (s : string)
| Blame (l : list BlameLineInfo).

(** [if (cached)]: arrays are truthy, the empty string is not. *)
Definition payloadTruthy (p : Payload) : bool :=
  match p with
  | Content s => JS.truthy s
  | Files _ | Blame _ => true
  end.

(** A [SimpleGit] session is known by the directory it is bound to. *)
Record SimpleGit := simpleGit { baseDir : string }.

Record GitRepoInfo := { root : string; git : SimpleGit }.

(** The queries that leave the process, and a computation that either
    finishes on its own or issues one query and continues with the answer
    ([None]: the promise rejects). *)
Inductive GitQuery :=
| Show (g : SimpleGit) (args : list string)
| Raw (g : SimpleGit) (args : list string).

Inductive Step (A : Type) :=
| Done (a : A)
| Ask (q : GitQuery) (k : option string -> A).
Arguments Done {A}.
Arguments Ask {A}.

Definition run {A} (oracle : GitQuery -> option string) (s : Step A) : A :=
  match s with
  | Done a => a
  | Ask q k => k (oracle q)
  end.

Definition asked {A} (s : Step A) : option GitQuery :=
  match s with
  | Done _ => None
  | Ask q _ => Some q
  end.

Module GitService.

Record t := {
  workspaceRoot : string;
  mainGit : SimpleGit;
  cache : gmap string (CacheManager.CacheEntry Payload);
  isGitRepo : bool;
  (** a [Map], iterated in insertion order *)
  submoduleRepos : list (string * GitRepoInfo)
}.

Definition withCache (s : t)
    (c : gmap string (CacheManager.CacheEntry Payload)) : t :=
  {| workspaceRoot := workspaceRoot s; mainGit := mainGit s; cache := c;
     isGitRepo := isGitRepo s; submoduleRepos := submoduleRepos s |}.

Section Paths.
Context {P : NodePath}.

Definition getRepoForFile (s : t) (filePath : string)
    : option GitRepoInfo :=
  let normalizedFile := normalize filePath in
  match
    find (fun entry : string * GitRepoInfo =>
            let fullSubmodulePath := join (workspaceRoot s) (fst entry) in
            JS.startsWith normalizedFile (normalize fullSubmodulePath))
         (submoduleRepos s)
  with
  | Some entry => Some (snd entry)
  | None =>
      if isGitRepo s
      then Some {| root := workspaceRoot s; git := mainGit s |}
      else None
  end.

Definition getRelativePathForRepo (filePath repoRoot : string) : string :=
  let normalizedFile := normalize filePath in
  let normalizedRepo := normalize repoRoot in
  if JS.startsWith normalizedFile normalizedRepo then
    let relativePath :=
      JS.substringFrom (String.length normalizedRepo) normalizedFile in
    let relativePath :=
      if JS.startsWith relativePath (String sep "")
      then JS.substringFrom 1 relativePath else relativePath in
    JS.replaceBackslashes relativePath
  else JS.replaceBackslashes filePath.
End Paths.

(** *** [getChangedFiles] *)

Definition isStatusLetter (c : ascii) : bool :=
  existsb (Ascii.eqb c) ["A"; "M"; "D"; "R"; "T"]%char.

(** [line.match(re)] for the expression [^ ( [AMDRT] \d* ) \s+ ( .+ ) $]
    (written here with blanks between its parts), giving
    [(match[1], match[2])].  The digits and the white space are taken
    greedily.  What is left must reach the end of the line without a line
    terminator, which [.] does not match; when nothing is left, [\s+]
    hands its last character back to [(.+)], and needs one more to stay
    non-empty. *)
Definition matchNameStatus (line : string) : option (string * string) :=
  match JS.chars line with
  | c :: rest =>
      if isStatusLetter c then
        let digits := JS.takeWhile JS.isDigit rest in
        let blanks :=
          JS.takeWhile JS.isWhiteSpace (JS.dropWhile JS.isDigit rest) in
        let tail :=
          JS.dropWhile JS.isWhiteSpace (JS.dropWhile JS.isDigit rest) in
        match blanks, tail with
        | [], _ => None
        | _ :: _, _ :: _ =>
            if forallb (fun x => negb (JS.isLineTerminator x)) tail
            then Some (JS.str (c :: digits), JS.str tail) else None
        | _ :: more, [] =>
            match rev more with
            | final :: _ =>
                if JS.isLineTerminator final then None
                else Some (JS.str (c :: digits), JS.str [final])
            | [] => None
            end
        end
      else None
  | [] => None
  end.

Definition statusOf (code : string) : FileStatus :=
  if JS.startsWith code "A" then added
  else if JS.startsWith code "M" then modified
  else if JS.startsWith code "D" then deleted
  else if JS.startsWith code "R" then modified
  else if JS.startsWith code "T" then modified
  else unchanged.

(** The body of [for (const line of lines)]: one matching line pushes one
    record, any other line is passed over. *)
Definition parseNameStatusLine (line : string) : option ChangedFile.t :=
  match matchNameStatus line with
  | Some (code, filePath) =>
      Some {| ChangedFile.path := filePath;
              ChangedFile.status := statusOf code |}
  | None => None
  end.

(** [result.split('\n').filter(line => line.trim())] and the loop. *)
Definition parseNameStatus (result : string) : list ChangedFile.t :=
  omap parseNameStatusLine
    (filter (fun line => JS.truthy (JS.trim line) = true)
            (JS.splitBy JS.isNewline result)).

Definition filesKey (commitHash : string) : string :=
  "files:" +:+ commitHash.

Definition contentKey (commitHash filePath : string) : string :=
  "content:" +:+ commitHash +:+ ":" +:+ filePath.

Definition blameKey (filePath : string) : string :=
  "blame:" +:+ filePath.

Section Reads.
Context {P : NodePath}.

(** [return []]: a new empty array. *)
Definition noFiles (h : Store) (s : t) : Payload * Store * t :=
  let '(r, h') := alloc h [] in (Files r, h', s).

(** What follows [await git.show(..)] in [getChangedFiles]: the parsed
    array is stored in the cache, under the empty file tag, and
    returned; a rejected query is caught and answered with [[]]. *)
Definition changedFilesAnswer (now : Z) (h : Store) (s : t)
    (commitHash : string) (answer : option string)
    : Payload * Store * t :=
  match answer with
  | Some result =>
      let '(r, h') := alloc h (parseNameStatus result) in
      (Files r, h',
       withCache s (CacheManager.set now (cache s) (filesKey commitHash)
                      (Files r) "" (Some commitHash)))
  | None => noFiles h s
  end.

(** [getChangedFiles(commitHash, filePath?)].  The result is the cached
    payload on a hit, and a reference to an array otherwise. *)
Definition getChangedFiles (now : Z) (h : Store) (s : t)
    (commitHash : string) (filePath : option string)
    : Step (Payload * Store * t) :=
  let cacheKey := filesKey commitHash in
  let query g :=
    Ask (Show g ["--name-status"; "--pretty=format:"; commitHash])
        (changedFilesAnswer now h s commitHash) in
  let miss :=
    match filePath with
    | Some fp =>
        if JS.truthy fp then
          match getRepoForFile s fp with
          | Some repo => query (git repo)
          | None => Done (noFiles h s)
          end
        else query (mainGit s)
    | None => query (mainGit s)
    end in
  match CacheManager.get (cache s) cacheKey with
  | Some cached =>
      if payloadTruthy cached then Done (cached, h, s) else miss
  | None => miss
  end.

(** What follows [await repo.git.show(..)] in [getFileContent]. *)
Definition contentAnswer (now : Z) (s : t) (commitHash filePath : string)
    (answer : option string) : Payload * t :=
  match answer with
  | Some content =>
      (Content content,
       withCache s (CacheManager.set now (cache s)
                      (contentKey commitHash filePath)
                      (Content content) filePath (Some commitHash)))
  | None => (Content "", s)
  end.

(** [getFileContent(commitHash, filePath)] *)
Definition getFileContent (now : Z) (s : t)
    (commitHash filePath : string) : Step (Payload * t) :=
  let cacheKey := contentKey commitHash filePath in
  let miss :=
    match getRepoForFile s filePath with
    | None => Done (Content "", s)
    | Some repo =>
        let relativePath := getRelativePathForRepo filePath (root repo) in
        Ask (Show (git repo) [commitHash +:+ ":" +:+ relativePath])
            (contentAnswer now s commitHash filePath)
    end in
  match CacheManager.get (cache s) cacheKey with
  | Some cached => if payloadTruthy cached then Done (cached, s) else miss
  | None => miss
  end.

(** [invalidateCache(filePath?)] *)
Definition invalidateCache (s : t) (filePath : option string) : t :=
  withCache s (CacheManager.invalidate (cache s) filePath).

(** What follows [await repo.git.raw(..)] in [getBlame]: an exception of
    the parser is caught like a rejected query. *)
Definition blameAnswer (now : Z) (clock : nat -> string) (s : t)
    (filePath : string) (answer : option string) : Payload * t :=
  match answer ≫= BlameParser.parseBlameOutput clock with
  | Some blameInfo =>
      (Blame blameInfo,
       withCache s (CacheManager.set now (cache s) (blameKey filePath)
                      (Blame blameInfo) filePath None))
  | None => (Blame [], s)
  end.

(** [getBlame(filePath)]: the repository is looked up before the cache. *)
Definition getBlame (now : Z) (clock : nat -> string) (s : t)
    (filePath : string) : Step (Payload * t) :=
  match getRepoForFile s filePath with
  | None => Done (Blame [], s)
  | Some repo =>
      let query :=
        let relativePath := getRelativePathForRepo filePath (root repo) in
        Ask (Raw (git repo) ["blame"; "--porcelain"; relativePath])
            (blameAnswer now clock s filePath) in
      match CacheManager.get (cache s) (blameKey filePath) with
      | Some cached => if payloadTruthy cached then Done (cached, s) else query
      | None => query
      end
  end.
End Reads.

End GitService.

(** States reached from [s] by calls of [getFileContent(commitHash,
    filePath)] that all returned the empty string, whatever the repository
    answered. *)
Inductive EmptyRuns {P : NodePath} (commitHash filePath : string)
    : GitService.t -> GitService.t -> Prop :=
| EmptyRuns_refl s : EmptyRuns commitHash filePath s s
| EmptyRuns_step s s1 s2 now oracle :
    run oracle (GitService.getFileContent now s commitHash filePath)
      = (Content "", s1) ->
    EmptyRuns commitHash filePath s1 s2 ->
    EmptyRuns commitHash filePath s s2.

(** The entry of a content key is absent or holds a falsy payload. *)
Definition noUsableContent (commitHash filePath : string) (s : GitService.t)
    : Prop :=
  match
    CacheManager.get (GitService.cache s)
      (GitService.contentKey commitHash filePath)
  with
  | Some cached => payloadTruthy cached = false
  | None => True
  end.

(** ** The wording of the specification, for comparison with the code *)

Module Spec.

(** "a leading one-or-two-character status code followed by whitespace
    and a path": [n] characters that are not white space, then white
    space, then something that is not white space. *)
Definition codeOfLength (n : nat) (cs : list ascii) : bool :=
  (length (take n cs) =? n)%nat
  && forallb (fun c => negb (JS.isWhiteSpace c)) (take n cs)
  && match drop n cs with
     | w :: rest =>
         JS.isWhiteSpace w
         && match JS.dropWhile JS.isWhiteSpace rest with
            | [] => false
            | _ :: _ => true
            end
     | [] => false
     end.

Definition oneOrTwoCharacterCode (line : string) : bool :=
  codeOfLength 1 (JS.chars line) || codeOfLength 2 (JS.chars line).

(** "A=added, M=modified, D=deleted, R and T=modified" *)
Definition statusOfLetter (c : ascii) : FileStatus :=
  if Ascii.eqb c "A" then added
  else if Ascii.eqb c "M" then modified
  else if Ascii.eqb c "D" then deleted
  else if Ascii.eqb c "R" then modified
  else if Ascii.eqb c "T" then modified
  else unchanged.

(** "matched by exact path, falling back to suffix/basename match only if
    no exact match exists": the path of the file that [AutoExpandTo] is
    said to locate, among the paths of the changed files. *)
Definition locateTarget {P : NodePath} (currentFilePath relativePath : string)
    (paths : list string) : option string :=
  match find (String.eqb relativePath) paths with
  | Some exact => Some exact
  | None =>
      find (fun candidate =>
              JS.endsWith currentFilePath candidate
              || JS.endsWith candidate (basename currentFilePath))
           paths
  end.

End Spec.

(** ** treeItems.ts *)

Module TreeItems.

(** [vscode.TreeItemCollapsibleState] *)
Inductive TreeItemCollapsibleState := NotCollapsible | Collapsed | Expanded.

Record FolderItem := {
  folderName : string;
  folderPath : string;
  collapsibleState : TreeItemCollapsibleState
}.

Record FileItem := {
  fileName : string;
  commitHash : string;
  filePath : string;
  isCurrentFile : bool;
  status : FileStatus
}.

(** The two classes of [vscode.TreeItem] that occur in a file tree. *)
Inductive TreeItem :=
| Folder (f : FolderItem)
| File (f : FileItem).

(** [item.label]: the folder name, and for a file its name, to which the
    constructor appends [" (current)"] when [isCurrentFile] is set. *)
Definition label (item : TreeItem) : string :=
  match item with
  | Folder f => folderName f
  | File f =>
      if isCurrentFile f then fileName f +:+ " (current)" else fileName f
  end.

Definition isFolder (item : TreeItem) : bool :=
  match item with Folder _ => true | File _ => false end.

End TreeItems.

(** ** historyProvider.ts *)

(** [String.prototype.localeCompare] under the collation of the host. *)
Class Collation := { localeCompare : string -> string -> Z }.

(** A collation orders strings: of two strings one may stand first, and
    standing first is transitive.  [sort] is specified for such comparators
    only. *)
Class CollationOrder (C : Collation) := {
  localeCompare_total :
    forall a b, localeCompare a b <= 0 \/ localeCompare b a <= 0;
  localeCompare_trans :
    forall a b c,
      localeCompare a b <= 0 -> localeCompare b c <= 0 -> localeCompare a c <= 0
}.

Module GitHistoryProvider.
Import TreeItems.

Inductive ManualFoldState := folded | unfolded | auto.

Record t := {
  currentFilePath : option string;
  (** commitHash -> folderPath -> items *)
  commitFiles : gmap string (gmap string (list TreeItem));
  focusedCommitHash : option string;
  allFoldersExpanded : bool;
  manualFoldState : ManualFoldState
}.

Definition isAuto (m : ManualFoldState) : bool :=
  match m with auto => true | _ => false end.

(** *** The fold commands *)

Definition setFocusedCommit (p : t) (hash : string) : t :=
  {| currentFilePath := currentFilePath p; commitFiles := commitFiles p;
     focusedCommitHash := Some hash;
     allFoldersExpanded := allFoldersExpanded p;
     manualFoldState := manualFoldState p |}.

Definition clearFocusedCommit (p : t) : t :=
  {| currentFilePath := currentFilePath p; commitFiles := commitFiles p;
     focusedCommitHash := None;
     allFoldersExpanded := false;
     manualFoldState := auto |}.

(** [if (this.focusedCommitHash) this.commitFiles.delete(..)] *)
Definition dropFocusedTree (p : t)
    : gmap string (gmap string (list TreeItem)) :=
  match focusedCommitHash p with
  | Some hash =>
      if JS.truthy hash then delete hash (commitFiles p) else commitFiles p
  | None => commitFiles p
  end.

Definition foldAll (p : t) : t :=
  {| currentFilePath := currentFilePath p; commitFiles := dropFocusedTree p;
     focusedCommitHash := focusedCommitHash p;
     allFoldersExpanded := false;
     manualFoldState := folded |}.

Definition unfoldAll (p : t) : t :=
  {| currentFilePath := currentFilePath p; commitFiles := dropFocusedTree p;
     focusedCommitHash := focusedCommitHash p;
     allFoldersExpanded := true;
     manualFoldState := unfolded |}.

(** *** [buildFileTree] *)

(** The template [currentPath ? `${currentPath}/${folderName}` :
    folderName], which both [buildFileTree] and
    [expandFoldersToCurrentFile] use to walk down a path. *)
Definition joinFolder (currentPath folderName : string) : string :=
  if JS.truthy currentPath then currentPath +:+ "/" +:+ folderName
  else folderName.

(** [tree.get(k) || []; push(item); tree.set(k, ..)] *)
Definition pushChild (k : string) (item : TreeItem)
    (tree : gmap string (list TreeItem)) : gmap string (list TreeItem) :=
  <[k := default [] (tree !! k) ++ [item]]> tree.

(** The locals that survive an iteration of the folder loop. *)
Record Walk := {
  currentPath : string;
  tree : gmap string (list TreeItem);
  folderMap : gmap string FolderItem
}.

(** One iteration of [for (let i = 0; i < parts.length - 1; i++)]. *)
Definition addFolder (expanded : bool) (w : Walk) (name : string) : Walk :=
  let parentPath := currentPath w in
  let current := joinFolder (currentPath w) name in
  match folderMap w !! current with
  | Some _ =>
      {| currentPath := current; tree := tree w; folderMap := folderMap w |}
  | None =>
      let folder :=
        {| folderName := name; folderPath := current;
           collapsibleState := if expanded then Expanded else Collapsed |} in
      {| currentPath := current;
         tree := pushChild parentPath (Folder folder) (tree w);
         folderMap := <[current := folder]> (folderMap w) |}
  end.

Section Build.
Context {P : NodePath} {C : Collation}.

(** [this.currentFilePath === filePath
     || this.currentFilePath?.endsWith(filePath)
     || filePath.endsWith(path.basename(this.currentFilePath || ''))] *)
Definition isCurrent (p : t) (filePath : string) : bool :=
  match currentFilePath p with
  | Some cur =>
      String.eqb cur filePath || JS.endsWith cur filePath
      || JS.endsWith filePath (basename cur)
  | None => JS.endsWith filePath (basename "")
  end.

(** One iteration of [for (const fileInfo of files)]. *)
Definition addFile (p : t) (hash : string)
    (acc : gmap string (list TreeItem) * gmap string FolderItem)
    (fileInfo : ChangedFile.t)
    : gmap string (list TreeItem) * gmap string FolderItem :=
  let parts := JS.splitBy JS.isPathSeparator (ChangedFile.path fileInfo) in
  let w := fold_left (addFolder (allFoldersExpanded p)) (removelast parts)
             {| currentPath := ""; tree := acc.1; folderMap := acc.2 |} in
  let file :=
    {| fileName := List.last parts ""; commitHash := hash;
       filePath := ChangedFile.path fileInfo;
       isCurrentFile := isCurrent p (ChangedFile.path fileInfo);
       status := ChangedFile.status fileInfo |} in
  (pushChild (currentPath w) (File file) (tree w), folderMap w).

Definition byPath (a b : ChangedFile.t) : Z :=
  localeCompare (ChangedFile.path a) (ChangedFile.path b).

(** The comparator of the final pass: folders first, then by label. *)
Definition compareItems (a b : TreeItem) : Z :=
  match isFolder a, isFolder b with
  | true, false => -1
  | false, true => 1
  | _, _ => localeCompare (label a) (label b)
  end.

(** [buildFileTree(files, commitHash)].  [files] is a reference: the
    first statement sorts the referenced array where it is. *)
Definition buildFileTree (p : t) (h : Store) (files : Ref)
    (hash : string) : Store * gmap string (list TreeItem) :=
  let h' := alter (JS.sort byPath) files h in
  let built := fold_left (addFile p hash) (default [] (h' !! files)) (∅, ∅) in
  (h', JS.sort compareItems <$> built.1).

(** *** [expandFoldersToCurrentFile] *)

Definition isFileAt (relativePath : string) (item : TreeItem) : bool :=
  match item with
  | File f => String.eqb (filePath f) relativePath
  | Folder _ => false
  end.

(** The search loop: is there a [FileItem] with exactly this path? *)
Definition findsCurrentFile (relativePath : string)
    (tr : gmap string (list TreeItem)) : bool :=
  existsb (fun entry : string * list TreeItem =>
             existsb (isFileAt relativePath) entry.2)
          (map_to_list tr).

(** [if (item instanceof FolderItem && item.folderPath ===
    currentFolderPath) items[j] = new FolderItem(folderName,
    currentFolderPath, Expanded)] *)
Definition expandItem (name current : string) (item : TreeItem)
    : TreeItem :=
  match item with
  | Folder f =>
      if String.eqb (folderPath f) current
      then Folder {| folderName := name; folderPath := current;
                     collapsibleState := Expanded |}
      else item
  | File _ => item
  end.

(** The two inner loops: every item of every entry. *)
Definition expandFolder (name current : string)
    (tr : gmap string (list TreeItem)) : gmap string (list TreeItem) :=
  map (expandItem name current) <$> tr.

Definition expandStep (acc : string * gmap string (list TreeItem))
    (name : string) : string * gmap string (list TreeItem) :=
  let current := joinFolder acc.1 name in
  (current, expandFolder name current acc.2).

Definition relativeCurrentPath (svc : GitService.t) (cur : string)
    : string :=
  match GitService.getRepoForFile svc cur with
  | Some repo => GitService.getRelativePathForRepo cur (root repo)
  | None => cur
  end.

Definition expandFoldersToCurrentFile (svc : GitService.t) (p : t)
    (tr : gmap string (list TreeItem)) : gmap string (list TreeItem) :=
  match currentFilePath p with
  | None => tr
  | Some cur =>
      if JS.truthy cur then
        let relativePath := relativeCurrentPath svc cur in
        if findsCurrentFile relativePath tr then
          (fold_left expandStep
             (removelast (JS.splitBy JS.isPathSeparator relativePath))
             ("", tr)).2
        else tr
      else tr
  end.

(** *** [getFilesForCommit] *)

Definition withCommitFiles (p : t)
    (cf : gmap string (gmap string (list TreeItem))) : t :=
  {| currentFilePath := currentFilePath p; commitFiles := cf;
     focusedCommitHash := focusedCommitHash p;
     allFoldersExpanded := allFoldersExpanded p;
     manualFoldState := manualFoldState p |}.

(** The statements after [await this.gitService.getChangedFiles(..)].
    The tree is registered in [commitFiles] before the folders are
    expanded, but it is one object, so the map shows the final tree. *)
Definition rebuild (svc : GitService.t) (p : t) (h : Store) (files : Ref)
    (hash : string) : list TreeItem * Store * t :=
  let '(h', built) := buildFileTree p h files hash in
  let final :=
    if isAuto (manualFoldState p)
    then expandFoldersToCurrentFile svc p built else built in
  (default [] (final !! ""), h',
   withCommitFiles p (<[hash := final]> (commitFiles p))).

(** [getFilesForCommit(commitHash)]; [None] stands for the [TypeError]
    of calling [sort] on a cached payload that is not an array. *)
Definition getFilesForCommit (now : Z) (h : Store) (svc : GitService.t)
    (p : t) (hash : string)
    : Step (option (list TreeItem * Store * GitService.t * t)) :=
  let continue (r : Payload * Store * GitService.t) :=
    match r with
    | (Files files, h1, svc1) =>
        let '(items, h2, p2) := rebuild svc1 p h1 files hash in
        Some (items, h2, svc1, p2)
    | _ => None
    end in
  let shouldRebuild :=
    negb (bool_decide (is_Some (commitFiles p !! hash)))
    || negb (isAuto (manualFoldState p)) in
  if negb shouldRebuild then
    let rootFolders := default ∅ (commitFiles p !! hash) in
    Done (Some (default [] (rootFolders !! ""), h, svc, p))
  else
    match
      GitService.getChangedFiles now h svc hash (currentFilePath p)
    with
    | Done r => Done (continue r)
    | Ask q k => Ask q (fun answer => continue (k answer))
    end.
End Build.

(** *** What the statements about trees speak of *)

(** The item occurs in some child list of the tree. *)
Definition inTree (item : TreeItem) (tr : gmap string (list TreeItem))
    : Prop :=
  exists k items, tr !! k = Some items /\ item ∈ items.

(** The folder paths met when walking down [names] from [current]. *)
Fixpoint chainFrom (current : string) (names : list string) : list string :=
  match names with
  | [] => []
  | name :: rest =>
      joinFolder current name :: chainFrom (joinFolder current name) rest
  end.

(** The ancestor chain of a path: the paths of the folders above it. *)
Definition ancestorPaths (filePath : string) : list string :=
  chainFrom "" (removelast (JS.splitBy JS.isPathSeparator filePath)).

(** What the expansion loop, walking down [names] from [current], makes
    of one item. *)
Fixpoint expandAlong (current : string) (names : list string)
    (item : TreeItem) : TreeItem :=
  match names with
  | [] => item
  | name :: rest =>
      expandAlong (joinFolder current name) rest
        (expandItem name (joinFolder current name) item)
  end.

(** The state folders are created in. *)
Definition builtState (expanded : bool) : TreeItemCollapsibleState :=
  if expanded then Expanded else Collapsed.

(** The folders a tree shows cover the folder map. *)
Definition covers (tr : gmap string (list TreeItem))
    (fm : gmap string FolderItem) : Prop :=
  forall q, is_Some (fm !! q) ->
            exists f, inTree (Folder f) tr /\ folderPath f = q.

(** The invariant of the file loop of [buildFileTree] after the files
    [seen]: the folders are in the state the provider builds them in, the
    file nodes are those of the files seen and carry the mark
    [isCurrent] computes, and the folder map holds the ancestor chain
    of every file seen. *)
Record Built {P : NodePath} (p : t) (seen : list ChangedFile.t)
    (tr : gmap string (list TreeItem)) (fm : gmap string FolderItem)
    : Prop := {
  built_folders : forall f,
    inTree (Folder f) tr ->
    collapsibleState f = builtState (allFoldersExpanded p);
  built_flags : forall f,
    inTree (File f) tr -> isCurrentFile f = isCurrent p (filePath f);
  built_files : forall f,
    inTree (File f) tr ->
    exists file, file ∈ seen /\ filePath f = ChangedFile.path file;
  built_seen : forall file,
    file ∈ seen ->
    exists f, inTree (File f) tr /\ filePath f = ChangedFile.path file;
  built_covers : covers tr fm;
  built_chains : forall file q,
    file ∈ seen -> q ∈ ancestorPaths (ChangedFile.path file) ->
    is_Some (fm !! q)
}.

(** In the automatic mode no folder is built expanded; the three fold
    policies are the three values of [manualFoldState]. *)
Definition policyConsistent (p : t) : Prop :=
  manualFoldState p = auto -> allFoldersExpanded p = false.

End GitHistoryProvider.

(** A collation to run the tree builder with: the order of the code units.
    On the lower-case ASCII names of the examples it agrees with what
    [localeCompare] answers. *)
Module CodeUnitOrder.

Fixpoint compare (a b : string) : Z :=
  match a, b with
  | EmptyString, EmptyString => 0
  | EmptyString, String _ _ => -1
  | String _ _, EmptyString => 1
  | String x a', String y b' =>
      let d := Z.of_nat (nat_of_ascii x) - Z.of_nat (nat_of_ascii y) in
      if d =? 0 then compare a' b' else d
  end.

Definition collation : Collation := {| localeCompare := compare |}.

End CodeUnitOrder.

(** ** Inputs the statements below are tried on *)

Module Examples.

Definition LF : string := String "010" "".
Definition TAB : string := String "009" "".

Definition hashA : string := "aaaaaaaaaabbbbbbbbbbccccccccccdddddddddd".
Definition hashB : string := "0123456789abcdef0123456789abcdef01234567".

(** Scenario 3 of the specification with a real commit id: the first
    header of the commit is followed by its metadata, the second header
    stands alone. *)
Definition reusedCommit : string :=
  hashA +:+ " 1 1 1" +:+ LF +:+ "author Alice" +:+ LF
  +:+ "author-time 1000" +:+ LF +:+ "summary fix" +:+ LF
  +:+ TAB +:+ "code" +:+ LF
  +:+ hashA +:+ " 2 2" +:+ LF +:+ TAB +:+ "more".

(** Two commits whose hunks arrive in reverse document order. *)
Definition reversedHunks : string :=
  hashB +:+ " 7 2 1" +:+ LF +:+ "author Bob" +:+ LF
  +:+ "author-time 1700000000" +:+ LF +:+ "summary later" +:+ LF
  +:+ TAB +:+ "second" +:+ LF
  +:+ hashA +:+ " 1 1 1" +:+ LF +:+ "author Alice" +:+ LF
  +:+ "author-time 1000" +:+ LF +:+ "summary fix" +:+ LF
  +:+ TAB +:+ "first".

(** A cache with two file-scoped entries and a commit-scoped one. *)
Definition taggedCache : gmap string (CacheManager.CacheEntry Payload) :=
  CacheManager.set 3 (CacheManager.set 2 (CacheManager.set 1 ∅
    (GitService.contentKey "abc123" "/ws/a.ts") (Content "let a")
      "/ws/a.ts" (Some "abc123"))
    (GitService.blameKey "/ws/b.ts") (Blame []) "/ws/b.ts" None)
    (GitService.filesKey "abc123") (Files 1%positive) "" (Some "abc123").

(** A service on a plain repository at [/ws]. *)
Definition plainService : GitService.t :=
  {| GitService.workspaceRoot := "/ws";
     GitService.mainGit := simpleGit "/ws";
     GitService.cache := ∅;
     GitService.isGitRepo := true;
     GitService.submoduleRepos := [] |}.

(** The name-status output of end-to-end scenario 1. *)
Definition nameStatus : string :=
  "M" +:+ TAB +:+ "src/a.ts" +:+ LF +:+ "A" +:+ TAB +:+ "src/b.ts" +:+ LF
  +:+ "D" +:+ TAB +:+ "old.ts".

(** The changed files of end-to-end scenario 1, in a store. *)
Definition changedFiles : list ChangedFile.t :=
  GitService.parseNameStatus nameStatus.

Definition store : Store := {[ 1%positive := changedFiles ]}.

(** A provider in the automatic mode, looking at [current]. *)
Definition autoProvider (current : string) : GitHistoryProvider.t :=
  {| GitHistoryProvider.currentFilePath := Some current;
     GitHistoryProvider.commitFiles := ∅;
     GitHistoryProvider.focusedCommitHash := Some "abc123";
     GitHistoryProvider.allFoldersExpanded := false;
     GitHistoryProvider.manualFoldState := GitHistoryProvider.auto |}.

(** A rename as [git show --name-status] prints it. *)
Definition renameLine : string :=
  "R100" +:+ TAB +:+ "old.ts" +:+ TAB +:+ "new.ts".

End Examples.

(** ** gitService.ts: finding the repositories *)

Module RepoDetection.

(** What the host answers while the service initialises. *)
Record Host := {
  (** [await simpleGit(dir).checkIsRepo()]; [None]: the constructor
      throws or the promise rejects *)
  checkIsRepo : string -> option bool;
  (** [await this.mainGit.subModule(['status'])] *)
  subModuleStatus : option string
}.

(** [map.set(k, v)] on a [Map], which is iterated in insertion order: a
    key that is present keeps its place. *)
Fixpoint mapSet {V} (k : string) (v : V) (m : list (string * V))
    : list (string * V) :=
  match m with
  | [] => [(k, v)]
  | (k', v') :: m' =>
      if String.eqb k' k then (k, v) :: m' else (k', v') :: mapSet k v m'
  end.

Definition isSign (c : ascii) : bool := JS.isChar "+" c || JS.isChar "-" c.

(** [line.match(re)[2]] for the expression
    [^ \s* [+-\s]? ( [a-f0-9]+ ) \s+ ( \S+ )] (written here with blanks
    between its parts).  The leading white space is taken greedily, so
    the optional character can only be a sign; the hash, the white space
    after it and the path are the longest runs of their kind, and no
    shorter run lets the rest match. *)
Definition matchSubmoduleLine (line : string) : option string :=
  let r0 := JS.dropWhile JS.isWhiteSpace (JS.chars line) in
  let r1 :=
    match r0 with
    | c :: r => if isSign c then r else r0
    | [] => r0
    end in
  match JS.takeWhile JS.isLowerHex r1 with
  | [] => None
  | _ :: _ =>
      let r2 := JS.dropWhile JS.isLowerHex r1 in
      match JS.takeWhile JS.isWhiteSpace r2 with
      | [] => None
      | _ :: _ =>
          match
            JS.takeWhile (fun c => negb (JS.isWhiteSpace c))
              (JS.dropWhile JS.isWhiteSpace r2)
          with
          | [] => None
          | submodulePath => Some (JS.str submodulePath)
          end
      end
  end.

Definition withSubmodules (s : GitService.t)
    (subs : list (string * GitRepoInfo)) : GitService.t :=
  {| GitService.workspaceRoot := GitService.workspaceRoot s;
     GitService.mainGit := GitService.mainGit s;
     GitService.cache := GitService.cache s;
     GitService.isGitRepo := GitService.isGitRepo s;
     GitService.submoduleRepos := subs |}.

Definition withIsGitRepo (s : GitService.t) (b : bool) : GitService.t :=
  {| GitService.workspaceRoot := GitService.workspaceRoot s;
     GitService.mainGit := GitService.mainGit s;
     GitService.cache := GitService.cache s;
     GitService.isGitRepo := b;
     GitService.submoduleRepos := GitService.submoduleRepos s |}.

Section Detection.
Context {P : NodePath}.

(** [for (const line of lines)] in [detectSubmodules]: an exception
    leaves the loop with what has been registered so far. *)
Fixpoint registerSubmodules (host : Host) (workspaceRoot : string)
    (lines : list string) (subs : list (string * GitRepoInfo))
    : list (string * GitRepoInfo) :=
  match lines with
  | [] => subs
  | line :: rest =>
      match matchSubmoduleLine line with
      | Some submodulePath =>
          let fullPath := join workspaceRoot submodulePath in
          match checkIsRepo host fullPath with
          | Some true =>
              registerSubmodules host workspaceRoot rest
                (mapSet submodulePath
                   {| root := fullPath; git := simpleGit fullPath |} subs)
          | Some false => registerSubmodules host workspaceRoot rest subs
          | None => subs
          end
      | None => registerSubmodules host workspaceRoot rest subs
      end
  end.

Definition detectSubmodules (host : Host) (s : GitService.t)
    : GitService.t :=
  match subModuleStatus host with
  | Some result =>
      let lines :=
        filter (fun line => JS.truthy (JS.trim line) = true)
               (JS.splitBy JS.isNewline result) in
      withSubmodules s
        (registerSubmodules host (GitService.workspaceRoot s) lines
           (GitService.submoduleRepos s))
  | None => s
  end.

(** [initializeRepos]: [detectSubmodules] catches what it throws, so the
    outer handler is reached by a failing [checkIsRepo] only. *)
Definition initializeRepos (host : Host) (s : GitService.t)
    : GitService.t :=
  match checkIsRepo host (baseDir (GitService.mainGit s)) with
  | Some isRepo =>
      let s1 := withIsGitRepo s isRepo in
      if isRepo then detectSubmodules host s1 else s1
  | None => withIsGitRepo s false
  end.

(** The constructor, and the service once [initializationPromise] has
    settled. *)
Definition construct (workspaceRoot : string) : GitService.t :=
  {| GitService.workspaceRoot := workspaceRoot;
     GitService.mainGit := simpleGit workspaceRoot;
     GitService.cache := ∅;
     GitService.isGitRepo := false;
     GitService.submoduleRepos := [] |}.

Definition initialised (host : Host) (workspaceRoot : string)
    : GitService.t :=
  initializeRepos host (construct workspaceRoot).

End Detection.

(** What [await isValidRepo()] resolves to. *)
Definition isValidRepo (s : GitService.t) : bool :=
  GitService.isGitRepo s || (0 <? length (GitService.submoduleRepos s))%nat.

End RepoDetection.

(** ** gitService.ts: the GitHub address of a repository *)

Module GitHubRemote.

(** [RemoteWithRefs] of simple-git *)
Record RemoteRefs := { fetch : string; push : string }.
Record Remote := { name : string; refs : RemoteRefs }.

Definition notSlash (c : ascii) : bool := negb (JS.isChar "/" c).

Definition isSeparator (c : ascii) : bool :=
  JS.isChar ":" c || JS.isChar "/" c.

(** [(?: \.git )? $] *)
Definition endsHere (rest : list ascii) : bool :=
  String.eqb (JS.str rest) ".git" || String.eqb (JS.str rest) "".

(** [( [^/]+? ) (?: \.git )? $]: the name takes one character that is
    not a slash, and one more as long as what follows is neither the end
    nor [.git] at the end.  [c] is the character taken last. *)
Fixpoint repoName (c : ascii) (rest : list ascii) : option (list ascii) :=
  if notSlash c then
    if endsHere rest then Some [c]
    else
      match rest with
      | c' :: rest' => cons c <$> repoName c' rest'
      | [] => None
      end
  else None.

(** The expression
    [github\.com [:/] ( [^/]+ ) \/ ( [^/]+? ) (?: \.git )? $]
    (written here with blanks between its parts) tried at the head of
    [cs]: the owner is the longest run without a slash, since a shorter
    one is not followed by a slash. *)
Definition matchHere (cs : list ascii) : option (string * string) :=
  if JS.startsWith (JS.str cs) "github.com" then
    match drop 10 cs with
    | c :: r =>
        if isSeparator c then
          match JS.takeWhile notSlash r, JS.dropWhile notSlash r with
          | (_ :: _) as owner, _ :: c' :: rest =>
              match repoName c' rest with
              | Some repo => Some (JS.str owner, JS.str repo)
              | None => None
              end
          | _, _ => None
          end
        else None
    | [] => None
    end
  else None.

(** [url.match(re)]: the leftmost position at which the expression
    matches; [(match[1], match[2])]. *)
Fixpoint search (cs : list ascii) : option (string * string) :=
  match matchHere cs with
  | Some m => Some m
  | None =>
      match cs with
      | _ :: cs' => search cs'
      | [] => None
      end
  end.

(** What follows [await git.getRemotes(true)]. *)
Definition originUrl (remotes : list Remote) : option string :=
  match find (fun r => String.eqb (name r) "origin") remotes with
  | Some origin =>
      let url :=
        if JS.truthy (fetch (refs origin)) then fetch (refs origin)
        else push (refs origin) in
      if JS.truthy url then
        match search (JS.chars url) with
        | Some (owner, repo) =>
            Some ("https://github.com/" +:+ owner +:+ "/" +:+ repo)
        | None => None
        end
      else None
  | None => None
  end.

Section Remote.
Context {P : NodePath}.

(** [getGitHubRemoteUrl(filePath?)]; [getRemotes g] is what
    [await g.getRemotes(true)] gives, [None] when it rejects. *)
Definition getGitHubRemoteUrl
    (getRemotes : SimpleGit -> option (list Remote))
    (s : GitService.t) (filePath : option string) : option string :=
  let ofGit g := getRemotes g ≫= originUrl in
  match filePath with
  | Some fp =>
      if JS.truthy fp then
        match GitService.getRepoForFile s fp with
        | Some repo => ofGit (git repo)
        | None => None
        end
      else ofGit (GitService.mainGit s)
  | None => ofGit (GitService.mainGit s)
  end.

End Remote.

End GitHubRemote.

(** ** treeItems.ts and blameProvider.ts: the texts on display *)

Module Display.

(** [s.length] *)
Definition length (s : string) : Z := Z.of_nat (String.length s).

(** [s.substring(0, n)] for an integer [n]: an end below 0 counts as 0. *)
Definition substringTo (n : Z) (s : string) : string :=
  JS.str (take (Z.to_nat n) (JS.chars s)).

(** U+00A0, the no-break space *)
Definition NBSP : ascii := ascii_of_nat 160.

(** [NBSP.repeat(n)] for an integer [n]; [None] is the [RangeError]
    of a negative count. *)
Definition repeatNbsp (n : Z) : option string :=
  if n <? 0 then None else Some (JS.str (replicate (Z.to_nat n) NBSP)).

(** The label of a [CommitItem]: [displayMessage] in its constructor. *)
Definition displayMessage (message : string) : string :=
  let maxLength := 60 in
  if maxLength <? length message
  then substringTo maxLength message +:+ "..." else message.

(** [truncateAuthor(author, maxLength)] of blameProvider.ts; the padding
    is asked for with a count that is not negative. *)
Definition truncateAuthor (author : string) (maxLength : Z) : string :=
  if length author <=? maxLength then
    author +:+ default "" (repeatNbsp (maxLength - length author))
  else substringTo (maxLength - 2) author +:+ "..".

(** The text of one annotation in [showBlame], from what
    [formatRelativeTime] returned and the author of the line; [None] is
    the [RangeError] that ends [showBlame]. *)
Definition annotation (relativeTime author : string) : option string :=
  let dateWidth := 10 in
  let authorWidth := 12 in
  let totalWidth := dateWidth + 1 + authorWidth in
  let annotationText :=
    relativeTime +:+ String NBSP "" +:+ truncateAuthor author authorWidth in
  match repeatNbsp (totalWidth - length annotationText) with
  | Some padding => Some (annotationText +:+ padding)
  | None => None
  end.

End Display.

(** ** gitService.ts: the log of a file *)

Module CommitInfo.
(** [author] and [authorEmail] are what [a || b] leaves of two fields
    that may both be missing. *)
Record t := {
  hash : string;
  date : string;
  message : string;
  author : option string;
  authorEmail : option string
}.
End CommitInfo.

(** An element of [result.all], as far as [getLog] reads it. *)
Module LogLine.
Record t := {
  hash : string;
  date : string;
  message : string;
  author_name : option string;
  author : option string;
  author_email : option string;
  authorEmail : option string
}.
End LogLine.

Module GitLog.

(** [a || b] on two strings that may be undefined. *)
Definition orValue (a b : option string) : option string :=
  match a with
  | Some s => if JS.truthy s then a else b
  | None => b
  end.

(** The decimal digits of a number that is not negative. *)
Fixpoint decimalDigits (fuel : nat) (n : Z) : list ascii :=
  match fuel with
  | O => []
  | S fuel' =>
      if n <? 10 then [JS.digitChar n]
      else decimalDigits fuel' (n / 10) ++ [JS.digitChar (n mod 10)]
  end.

(** [`${n}`] for an integer below 10^21 in absolute value. *)
Definition numberToString (n : Z) : string :=
  if n <? 0
  then JS.str ("-"%char :: decimalDigits (S (Z.to_nat (Z.log2 (- n)))) (- n))
  else JS.str (decimalDigits (S (Z.to_nat (Z.log2 n))) n).

Definition logKey (filePath : string) (page : Z) : string :=
  "log:" +:+ filePath +:+ ":" +:+ numberToString page.

(** The service with the pages of the log it has cached.  The cache of
    the service is one map; its entries under the keys [log:..] hold
    arrays of commits and are kept here in a map of their own, next to
    the entries of the other readers, with which they share no key. *)
Record t := {
  service : GitService.t;
  logCache : gmap string (CacheManager.CacheEntry (list CommitInfo.t))
}.

Definition withLogCache (s : t)
    (c : gmap string (CacheManager.CacheEntry (list CommitInfo.t))) : t :=
  {| service := service s; logCache := c |}.

Definition toCommitInfo (log : LogLine.t) : CommitInfo.t :=
  {| CommitInfo.hash := LogLine.hash log;
     CommitInfo.date := LogLine.date log;
     CommitInfo.message := LogLine.message log;
     CommitInfo.author :=
       orValue (LogLine.author_name log) (LogLine.author log);
     CommitInfo.authorEmail :=
       orValue (LogLine.author_email log) (LogLine.authorEmail log) |}.

Section Log.
Context {P : NodePath}.

(** [getLog(filePath, page)].  [log g file skip] is what
    [await g.log({file, '--follow': null, '--max-count': 50,
    '--skip': skip, format})] gives in [result.all], [None] when the
    promise rejects. *)
Definition getLog
    (log : SimpleGit -> string -> Z -> option (list LogLine.t))
    (now : Z) (s : t) (filePath : string) (page : Z)
    : list CommitInfo.t * t :=
  match GitService.getRepoForFile (service s) filePath with
  | None => ([], s)
  | Some repo =>
      let cacheKey := logKey filePath page in
      match CacheManager.get (logCache s) cacheKey with
      | Some cached => (cached, s)
      | None =>
          let relativePath :=
            GitService.getRelativePathForRepo filePath (root repo) in
          match log (git repo) relativePath (page * 50) with
          | Some all =>
              let commits := map toCommitInfo all in
              (commits,
               withLogCache s
                 (CacheManager.set now (logCache s) cacheKey commits
                    filePath None))
          | None => ([], s)
          end
      end
  end.

End Log.

(** [invalidateCache(filePath?)], on both kinds of entry. *)
Definition invalidateCache (s : t) (filePath : option string) : t :=
  {| service := GitService.invalidateCache (service s) filePath;
     logCache := CacheManager.invalidate (logCache s) filePath |}.

End GitLog.

(** ** historyProvider.ts: the list of commits and the root of the view *)

Module HistoryView.

(** The provider with the two maps of the commit list. *)
Record t := {
  provider : GitHistoryProvider.t;
  loadedCommits : gmap string (list CommitInfo.t);
  currentPage : gmap string Z
}.

(** The items of the view. *)
Inductive Item :=
| EmptyStateItem (message : string)
| BackButtonItem
| CommitItem (commit : CommitInfo.t) (filePath : string)
| LoadMoreItem (filePath : string) (nextPage : Z)
| TreeNode (item : TreeItems.TreeItem).

(** What [getChildren] is asked about: nothing (the root), a
    [CommitItem], a [FolderItem], or an item that is neither.  A
    [FolderItem] is an object, and [findCommitHashForFolder] looks for
    that object, not for its fields.  The object is stored in one slot
    only ([buildFileTree] pushes a folder it has made once, and
    [expandFoldersToCurrentFile] assigns every folder it makes to one
    slot), so it is given here with its place, if it has one: the commit,
    the key and the index of the slot of [commitFiles] that holds it.  A
    folder of a tree that is no longer registered has no place. *)
Inductive Element :=
| root
| ofCommit (commit : CommitInfo.t)
| ofFolder (folder : TreeItems.FolderItem)
           (place : option (string * string * nat))
| leaf.

Definition sameState (a b : TreeItems.TreeItemCollapsibleState) : bool :=
  match a, b with
  | TreeItems.NotCollapsible, TreeItems.NotCollapsible
  | TreeItems.Collapsed, TreeItems.Collapsed
  | TreeItems.Expanded, TreeItems.Expanded => true
  | _, _ => false
  end.

(** Does the slot hold this folder? *)
Definition holds (slot : option TreeItems.TreeItem)
    (folder : TreeItems.FolderItem) : bool :=
  match slot with
  | Some (TreeItems.Folder f) =>
      String.eqb (TreeItems.folderName f) (TreeItems.folderName folder)
      && String.eqb (TreeItems.folderPath f) (TreeItems.folderPath folder)
      && sameState (TreeItems.collapsibleState f)
           (TreeItems.collapsibleState folder)
  | _ => false
  end.

(** [findCommitHashForFolder(folder)]: the commit in whose tree some list
    includes the object. *)
Definition findCommitHashForFolder (p : GitHistoryProvider.t)
    (folder : TreeItems.FolderItem)
    (place : option (string * string * nat)) : option string :=
  match place with
  | Some (commitHash, key, index) =>
      let slot :=
        match GitHistoryProvider.commitFiles p !! commitHash with
        | Some folders =>
            match folders !! key with
            | Some items => items !! index
            | None => None
            end
        | None => None
        end in
      if holds slot folder then Some commitHash else None
  | None => None
  end.

(** A promise that has not been awaited: an object, and truthy as every
    object is, whatever it resolves to. *)
Inductive Promise (A : Type) := promise (resolved : A).
Arguments promise {A}.

Definition truthyObject {A} (p : Promise A) : bool := true.

(** [s.includes(sub)] *)
Fixpoint includes (s sub : string) : bool :=
  JS.startsWith s sub
  || match s with
     | EmptyString => false
     | String _ s' => includes s' sub
     end.

Definition withProvider (v : t) (p : GitHistoryProvider.t) : t :=
  {| provider := p; loadedCommits := loadedCommits v;
     currentPage := currentPage v |}.

(** [setCurrentFile(filePath)] *)
Definition setCurrentFile (v : t) (filePath : string) : t :=
  if bool_decide
       (GitHistoryProvider.currentFilePath (provider v) = Some filePath)
  then v
  else
    {| provider :=
         {| GitHistoryProvider.currentFilePath := Some filePath;
            GitHistoryProvider.commitFiles := ∅;
            GitHistoryProvider.focusedCommitHash :=
              GitHistoryProvider.focusedCommitHash (provider v);
            GitHistoryProvider.allFoldersExpanded :=
              GitHistoryProvider.allFoldersExpanded (provider v);
            GitHistoryProvider.manualFoldState :=
              GitHistoryProvider.manualFoldState (provider v) |};
       loadedCommits := delete filePath (loadedCommits v);
       currentPage := <[filePath := 0]> (currentPage v) |}.

Definition focused (p : GitHistoryProvider.t) : option string :=
  match GitHistoryProvider.focusedCommitHash p with
  | Some hash => if JS.truthy hash then Some hash else None
  | None => None
  end.

(** [handleEditorChange(editor)], from [editor.document.fileName] and
    [editor.document.uri.scheme]. *)
Definition handleEditorChange (v : t) (fileName scheme : string) : t :=
  if String.eqb scheme "git-history" || includes fileName "git-history"
  then v
  else if String.eqb scheme "diff" then v
  else
    let p := provider v in
    let v1 :=
      if bool_decide (is_Some (focused p))
         && negb (bool_decide
                    (GitHistoryProvider.currentFilePath p = Some fileName))
      then
        withProvider v
          {| GitHistoryProvider.currentFilePath :=
               GitHistoryProvider.currentFilePath p;
             GitHistoryProvider.commitFiles :=
               GitHistoryProvider.commitFiles p;
             GitHistoryProvider.focusedCommitHash := None;
             GitHistoryProvider.allFoldersExpanded :=
               GitHistoryProvider.allFoldersExpanded p;
             GitHistoryProvider.manualFoldState :=
               GitHistoryProvider.manualFoldState p |}
      else v in
    setCurrentFile v1 fileName.

Section View.
Context {P : NodePath} {C : Collation}.
Variable log : SimpleGit -> string -> Z -> option (list LogLine.t).
Variable oracle : GitQuery -> option string.

(** [getCommitsForFile(filePath)] *)
Definition getCommitsForFile (now : Z) (svc : GitLog.t) (v : t)
    (filePath : string) : list Item * GitLog.t * t :=
  let page := default 0 (currentPage v !! filePath) in
  let '(commits, svc', v') :=
    match loadedCommits v !! filePath with
    | Some commits => (commits, svc, v)
    | None =>
        let '(commits, svc') := GitLog.getLog log now svc filePath 0 in
        (commits, svc',
         {| provider := provider v;
            loadedCommits := <[filePath := commits]> (loadedCommits v);
            currentPage := <[filePath := 0]> (currentPage v) |})
    end in
  if (Z.of_nat (length commits) =? 0) then
    ([EmptyStateItem "No history found for this file"], svc', v')
  else
    let items := map (fun commit => CommitItem commit filePath) commits in
    (if Z.of_nat (length commits) =? 50 * (page + 1)
     then items ++ [LoadMoreItem filePath (page + 1)] else items,
     svc', v').

(** [loadMore(filePath, page)] *)
Definition loadMore (now : Z) (svc : GitLog.t) (v : t)
    (filePath : string) (page : Z) : GitLog.t * t :=
  let '(newCommits, svc') := GitLog.getLog log now svc filePath page in
  let existingCommits := default [] (loadedCommits v !! filePath) in
  (svc',
   {| provider := provider v;
      loadedCommits :=
        <[filePath := existingCommits ++ newCommits]> (loadedCommits v);
      currentPage := <[filePath := page]> (currentPage v) |}).

(** [await this.getFilesForCommit(hash)], with the answers of the
    repository taken from [oracle]. *)
Definition filesForCommit (now : Z) (h : Store) (svc : GitLog.t) (v : t)
    (hash : string) : option (list Item * Store * GitLog.t * t) :=
  match
    run oracle
      (GitHistoryProvider.getFilesForCommit now h (GitLog.service svc)
         (provider v) hash)
  with
  | Some (files, h', service', p') =>
      Some (map TreeNode files, h',
            {| GitLog.service := service';
               GitLog.logCache := GitLog.logCache svc |},
            withProvider v p')
  | None => None
  end.

(** [getChildren(element?)]; [None] stands for the exception of
    [getFilesForCommit]. *)
Definition getChildren (now : Z) (h : Store) (svc : GitLog.t) (v : t)
    (element : Element) : option (list Item * Store * GitLog.t * t) :=
  if negb (truthyObject
             (promise (RepoDetection.isValidRepo (GitLog.service svc))))
  then Some ([EmptyStateItem "Not a git repository"], h, svc, v)
  else
    match GitHistoryProvider.currentFilePath (provider v) with
    | None => Some ([EmptyStateItem "Open a file to see git history"], h, svc, v)
    | Some cur =>
        if negb (JS.truthy cur)
        then Some ([EmptyStateItem "Open a file to see git history"], h, svc, v)
        else
          match focused (provider v), element with
          | Some hash, root =>
              match filesForCommit now h svc v hash with
              | Some (files, h', svc', v') =>
                  Some (BackButtonItem :: files, h', svc', v')
              | None => None
              end
          | None, root =>
              let '(items, svc', v') := getCommitsForFile now svc v cur in
              Some (items, h, svc', v')
          | _, ofCommit commit =>
              filesForCommit now h svc v (CommitInfo.hash commit)
          | _, ofFolder folder place =>
              match
                findCommitHashForFolder (provider v) folder place
              with
              | Some commitHash =>
                  if JS.truthy commitHash then
                    match
                      GitHistoryProvider.commitFiles (provider v)
                        !! commitHash
                    with
                    | Some folders =>
                        Some (map TreeNode
                                (default []
                                   (folders !! TreeItems.folderPath folder)),
                              h, svc, v)
                    | None => Some ([], h, svc, v)
                    end
                  else Some ([], h, svc, v)
              | None => Some ([], h, svc, v)
              end
          | _, leaf => Some ([], h, svc, v)
          end
    end.

End View.

End HistoryView.

(** ** What the further statements speak of *)

(** Does the file lie under this submodule, as far as the resolver can
    tell? *)
Definition underSubmodule {P : NodePath} (s : GitService.t) (filePath : string)
    (entry : string * GitRepoInfo) : bool :=
  JS.startsWith (normalize filePath)
    (normalize (join (GitService.workspaceRoot s) entry.1)).

(** The three shapes of entry the readers of the service write: what the
    key, the payload and the two tags of an entry have to do with each
    other. *)
Definition entryShape (key : string) (e : CacheManager.CacheEntry Payload)
    : Prop :=
  (exists hash r,
      key = GitService.filesKey hash /\ CacheManager.data e = Files r
      /\ CacheManager.filePath e = ""
      /\ CacheManager.commitHash e = Some hash)
  \/ (exists hash fp c,
      key = GitService.contentKey hash fp /\ CacheManager.data e = Content c
      /\ CacheManager.filePath e = fp
      /\ CacheManager.commitHash e = Some hash)
  \/ (exists fp l,
      key = GitService.blameKey fp /\ CacheManager.data e = Blame l
      /\ CacheManager.filePath e = fp
      /\ CacheManager.commitHash e = None).

(** Every entry has one of the three shapes, and a cached array is in the
    store. *)
Definition wellKeyed (h : Store) (s : GitService.t) : Prop :=
  forall key e, GitService.cache s !! key = Some e ->
    entryShape key e
    /\ forall r, CacheManager.data e = Files r -> is_Some (h !! r).

(** Does the parser throw on these lines?  It does when a line
    [author-time] that [Date] cannot render stands after a header line. *)
Definition abortsOn (lines : list string) : bool :=
  existsb (fun l => negb (BlameParser.validTimestampLine l))
    (JS.dropWhile (fun l => negb (BlameParser.isHeaderLine l)) lines).

(** [[a-f0-9]{40}] *)
Definition isFullHash (hash : string) : bool :=
  (String.length hash =? 40)%nat && forallb JS.isLowerHex (JS.chars hash).

(** The integers a JavaScript number holds exactly: every integer up to
    2^53 in absolute value is a double, and [parseInt] returns the
    number a numeral of that size stands for. *)
Definition heldExactly (n : Z) : bool := Z.abs n <=? 9007199254740992.

(** The key a file is filed under: the folder path the folder loop of
    [buildFileTree] has reached when it has walked down the path. *)
Definition parentPath (filePath : string) : string :=
  fold_left GitHistoryProvider.joinFolder
    (removelast (JS.splitBy JS.isPathSeparator filePath)) "".

(** A node in the child list of [key] is where the tree view looks for
    it: a folder has the path of [key] extended by its name, a file is
    listed under the folders of its own path and is named by the last
    part of it. *)
Definition placed (hash key : string) (item : TreeItems.TreeItem) : Prop :=
  match item with
  | TreeItems.Folder f =>
      TreeItems.folderPath f
      = GitHistoryProvider.joinFolder key (TreeItems.folderName f)
  | TreeItems.File f =>
      key = parentPath (TreeItems.filePath f)
      /\ TreeItems.fileName f
         = List.last (JS.splitBy JS.isPathSeparator (TreeItems.filePath f)) ""
      /\ TreeItems.commitHash f = hash
  end.

Definition allPlaced (hash : string)
    (tr : gmap string (list TreeItems.TreeItem)) : Prop :=
  forall key items item,
    tr !! key = Some items -> item ∈ items -> placed hash key item.

(** What the loop keeps true of the registered submodules. *)
Definition registered {P : NodePath} (host : RepoDetection.Host) (workspaceRoot : string)
    (subs : list (string * GitRepoInfo)) : Prop :=
  NoDup subs.*1
  /\ forall path info, (path, info) ∈ subs ->
       root info = join workspaceRoot path
       /\ git info = simpleGit (join workspaceRoot path)
       /\ RepoDetection.checkIsRepo host (join workspaceRoot path) = Some true
       /\ path <> ""
       /\ forallb (fun c => negb (JS.isWhiteSpace c)) (JS.chars path) = true.

(** The pages [0 .. k] of the log of a file, fetched in this order. *)
Fixpoint pagesUpTo {P : NodePath}
    (log : SimpleGit -> string -> Z -> option (list LogLine.t))
    (now : Z) (svc : GitLog.t) (filePath : string) (k : nat)
    : list (list CommitInfo.t) * GitLog.t :=
  match k with
  | O =>
      let '(commits, svc') := GitLog.getLog log now svc filePath 0 in
      ([commits], svc')
  | S k' =>
      let '(pages, svc1) := pagesUpTo log now svc filePath k' in
      let '(commits, svc2) :=
        GitLog.getLog log now svc1 filePath (Z.of_nat (S k')) in
      (pages ++ [commits], svc2)
  end.

(** The list of commits of a file is shown, and then the item
    [LoadMoreItem] is used [k] times, with the pages [1 .. k]. *)
Fixpoint browse {P : NodePath}
    (log : SimpleGit -> string -> Z -> option (list LogLine.t))
    (now : Z) (svc : GitLog.t) (v : HistoryView.t) (filePath : string)
    (k : nat) : GitLog.t * HistoryView.t :=
  match k with
  | O =>
      let '(_, svc', v') :=
        HistoryView.getCommitsForFile log now svc v filePath in
      (svc', v')
  | S k' =>
      let '(svc1, v1) := browse log now svc v filePath k' in
      HistoryView.loadMore log now svc1 v1 filePath (Z.of_nat (S k'))
  end.

(** No page of the log has more than the fifty commits that are asked
    for. *)
Definition boundedLog
    (log : SimpleGit -> string -> Z -> option (list LogLine.t)) : Prop :=
  forall g file skip all, log g file skip = Some all -> (length all <= 50)%nat.

Definition boundedPages (svc : GitLog.t) : Prop :=
  forall key e, GitLog.logCache svc !! key = Some e ->
                (length (CacheManager.data e) <= 50)%nat.

(** * Properties *)

(** ** [Array.prototype.sort] *)

Section SortFacts.
Context {A : Type} (cmp : A -> A -> Z).

Lemma sortInsert_Permutation x l : JS.sortInsert cmp x l ≡ₚ x :: l.
Proof.
  induction l as [|y l IH]; simpl; [done|].
  destruct (0 <? cmp x y); [|done].
  rewrite IH. apply perm_swap.
Qed.

Lemma sort_Permutation l : JS.sort cmp l ≡ₚ l.
Proof.
  induction l as [|x l IH]; simpl; [done|].
  unfold JS.sort in *. simpl. by rewrite sortInsert_Permutation, IH.
Qed.

Lemma sort_length l : length (JS.sort cmp l) = length l.
Proof. apply Permutation_length, sort_Permutation. Qed.

Lemma sort_elem_of x l : x ∈ JS.sort cmp l ↔ x ∈ l.
Proof. by rewrite sort_Permutation. Qed.

Hypothesis cmp_total : forall a b, cmp a b <= 0 \/ cmp b a <= 0.
Hypothesis cmp_trans : forall a b c, cmp a b <= 0 -> cmp b c <= 0 -> cmp a c <= 0.

Lemma sortInsert_sorted x l :
  StronglySorted (JS.notAfter cmp) l -> StronglySorted (JS.notAfter cmp) (JS.sortInsert cmp x l).
Proof.
  induction 1 as [|y l Hl IH Hy]; simpl.
  - repeat constructor.
  - destruct (0 <? cmp x y) eqn:E.
    + apply Z.ltb_lt in E. constructor; [done|].
      rewrite sortInsert_Permutation. constructor; [|done].
      destruct (cmp_total y x); [done | lia].
    + apply Z.ltb_ge in E. constructor; [by constructor|].
      constructor; [done|].
      eapply Forall_impl; [exact Hy|]. intros z Hz. by eapply cmp_trans.
Qed.

Lemma sort_sorted l : StronglySorted (JS.notAfter cmp) (JS.sort cmp l).
Proof.
  induction l as [|x l IH]; [constructor|].
  by apply sortInsert_sorted.
Qed.

(** An array that is in order already comes back as it is. *)
Lemma sort_of_sorted l : StronglySorted (JS.notAfter cmp) l -> JS.sort cmp l = l.
Proof.
  induction 1 as [|x l Hl IH Hx]; [done|].
  unfold JS.sort in *. simpl. rewrite IH.
  destruct l as [|y l]; [done|]. simpl.
  inversion Hx as [|?? Hxy _]; subst. unfold JS.notAfter in Hxy.
  destruct (0 <? cmp x y) eqn:E; [apply Z.ltb_lt in E; lia | done].
Qed.
End SortFacts.

(** Sorting by a key and reading the keys is sorting the keys. *)
Lemma sort_map {A B} (f : A -> B) (cmp : B -> B -> Z) (l : list A) :
  map f (JS.sort (fun a b => cmp (f a) (f b)) l) = JS.sort cmp (map f l).
Proof.
  induction l as [|x l IH]; [done|].
  unfold JS.sort in *. simpl. rewrite <- IH.
  generalize (foldr (JS.sortInsert (fun a b => cmp (f a) (f b))) [] l).
  intros s. induction s as [|y s IHs]; [done|]. simpl.
  destruct (0 <? cmp (f x) (f y)); simpl; [by rewrite IHs | done].
Qed.

(** A time value within the range of [Date] has an ISO rendering. *)
Lemma toISOString_in_range ms :
  (Z.abs ms <=? 8640000000000000) = true -> is_Some (JS.toISOString ms).
Proof.
  intros H. unfold JS.toISOString. rewrite H.
  destruct (JS.civilFromDays _) as [[y m] d]. eauto.
Qed.

(** ** The blame parser *)

Section BlameParserFacts.
Import BlameParser.

Lemma splitBy_head_nonempty sep c s :
  sep c = false -> exists w ws, JS.splitBy sep (String c s) = String c w :: ws.
Proof.
  intros Hc. simpl. rewrite Hc.
  destruct (JS.splitBy sep s); eauto.
Qed.

Lemma lowerHex_not_space c : JS.isLowerHex c = true -> JS.isSpaceChar c = false.
Proof.
  intros H. unfold JS.isSpaceChar, JS.isChar.
  destruct (Ascii.eqb_spec " " c) as [<-|]; [discriminate H | done].
Qed.

(** The hash a header line carries is not empty. *)
Lemma header_hash_nonempty line :
  isHeaderLine line = true -> default "" (part 0 line) <> "".
Proof.
  unfold isHeaderLine, part. intros H.
  destruct line as [|c s]; [discriminate H|].
  apply andb_prop in H as [H _]. apply andb_prop in H as [_ H].
  simpl in H. apply andb_prop in H as [Hc _].
  destruct (splitBy_head_nonempty JS.isSpaceChar c s) as (w & ws & ->).
  { by apply lowerHex_not_space. }
  done.
Qed.

Lemma updateCurrent_blameInfo f st : blameInfo (updateCurrent f st) = blameInfo st.
Proof.
  unfold updateCurrent. destruct (JS.truthy _); [|done].
  by destruct (commitCache st !! currentCommitHash st).
Qed.

Lemma onHeader_blameInfo now st line :
  exists r, blameInfo (onHeader now st line) = blameInfo st ++ [r]
            /\ lineNumber r = headerNumber line
            /\ commitHash r = default "" (part 0 line).
Proof.
  unfold onHeader.
  destruct (commitCache st !! default "" (part 0 line)); simpl; eauto.
Qed.

(** What one iteration does to the output array. *)
Lemma step_blameInfo now st line st' :
  step now st line = Some st' ->
  if isHeaderLine line then
    exists r, blameInfo st' = blameInfo st ++ [r]
              /\ lineNumber r = headerNumber line
              /\ commitHash r <> ""
  else blameInfo st' = blameInfo st.
Proof.
  unfold step. destruct (isHeaderLine line) eqn:Hh.
  - intros [= <-]. destruct (onHeader_blameInfo now st line) as (r & ? & ? & Hr).
    exists r. repeat split; [done..|]. rewrite Hr. by apply header_hash_nonempty.
  - repeat case_match; intros [= <-]; by rewrite ?updateCurrent_blameInfo.
Qed.

Lemma step_total now st line :
  validTimestampLine line = true -> is_Some (step now st line).
Proof.
  unfold step, validTimestampLine. intros Hv.
  destruct (isHeaderLine line); [eauto|].
  destruct (JS.startsWith line "author "); [eauto|].
  destruct (JS.startsWith line "author-time "); [|case_match; eauto].
  destruct (currentKnown st); [|eauto].
  destruct (JS.parseInt _) as [t|]; [|discriminate Hv]. simpl.
  destruct (toISOString_in_range _ Hv) as [iso ->]. eauto.
Qed.

Lemma loop_blameInfo clock lines : forall i st,
  forallb validTimestampLine lines = true ->
  exists st', loop clock i lines st = Some st'
    /\ exists rs, blameInfo st' = blameInfo st ++ rs
         /\ map lineNumber rs
            = map headerNumber (filter (fun l => isHeaderLine l = true) lines)
         /\ Forall (fun r => commitHash r <> "") rs.
Proof.
  induction lines as [|line lines IH]; intros i st Hv; simpl.
  - exists st. split; [done|]. exists []. by rewrite app_nil_r.
  - simpl in Hv. apply andb_prop in Hv as [Hl Hv].
    destruct (step_total (clock i) st line Hl) as [st1 Hst1]. rewrite Hst1.
    destruct (IH (S i) st1 Hv) as (st' & -> & rs & Hrs & Hnum & Hhash).
    exists st'. split; [done|].
    apply step_blameInfo in Hst1. rewrite filter_cons.
    destruct (isHeaderLine line).
    + destruct Hst1 as (r & Hr & Hn & Hh). exists (r :: rs).
      rewrite Hrs, Hr, <- app_assoc. split; [done|].
      rewrite decide_True by done. simpl. rewrite Hn, Hnum. by split; [|constructor].
    + exists rs. rewrite Hrs, Hst1. rewrite decide_False by done. done.
Qed.

Lemma ascending_run n m :
  StronglySorted (JS.notAfter (fun a b => a - b)) (map Z.of_nat (seq m n)).
Proof.
  revert m. induction n as [|n IH]; intros m; simpl; constructor; [apply IH|].
  apply Forall_forall. intros z Hz.
  apply list_elem_of_In, in_map_iff in Hz as (k & <- & Hk).
  apply in_seq in Hk. unfold JS.notAfter. lia.
Qed.
End BlameParserFacts.


(** C2. For a valid porcelain input (every [author-time] line carries a
    timestamp [Date] accepts, and the final-line numbers of the header lines
    are the numbers 1..n in some order) the parser returns; the result has
    one record per header line, its line numbers are 1, 2, .., n in that
    order whatever the order of the input was, and no record has an empty
    commit hash. *)
Theorem blame_output_shape (clock : nat -> string) (output : string) (n : nat) :
  BlameParser.timestampsValid output = true ->
  map BlameParser.headerNumber (BlameParser.headerLines output)
    ≡ₚ map Z.of_nat (seq 1 n) ->
  exists records,
    BlameParser.parseBlameOutput clock output = Some records
    /\ length records = length (BlameParser.headerLines output)
    /\ map lineNumber records = map Z.of_nat (seq 1 n)
    /\ Forall (fun r => commitHash r <> "") records.
Proof.
  intros Hv Hperm. unfold BlameParser.parseBlameOutput.
  destruct (loop_blameInfo clock _ 0%nat BlameParser.initial Hv)
    as (st & -> & rs & Hrs & Hnum & Hhash).
  simpl in Hrs. subst rs. eexists. split; [done|].
  assert (Hkeys : map lineNumber (JS.sort BlameParser.byLineNumber (BlameParser.blameInfo st))
                  = JS.sort (fun a b => a - b) (map lineNumber (BlameParser.blameInfo st))).
  { apply (sort_map lineNumber (fun a b => a - b)). }
  repeat split.
  - rewrite sort_length. rewrite <- (length_map lineNumber), Hnum, length_map. done.
  - rewrite Hkeys.
    apply (StronglySorted_unique_strong (JS.notAfter (fun a b => a - b))).
    + unfold JS.notAfter. intros; lia.
    + apply sort_sorted; intros; lia.
    + apply ascending_run.
    + by rewrite sort_Permutation, Hnum.
  - rewrite Forall_forall in *. intros r Hr. apply Hhash. by apply sort_elem_of in Hr.
Qed.

Lemma blame_output_shape_witness :
  BlameParser.timestampsValid Examples.reversedHunks = true
  /\ map BlameParser.headerNumber (BlameParser.headerLines Examples.reversedHunks)
       ≡ₚ map Z.of_nat (seq 1 2)
  /\ exists records,
       BlameParser.parseBlameOutput (fun _ => "now") Examples.reversedHunks
         = Some records
       /\ length records = length (BlameParser.headerLines Examples.reversedHunks)
       /\ map lineNumber records = map Z.of_nat (seq 1 2)
       /\ Forall (fun r => commitHash r <> "") records.
Proof.
  assert (Hv : BlameParser.timestampsValid Examples.reversedHunks = true)
    by reflexivity.
  assert (Hp : map BlameParser.headerNumber
                 (BlameParser.headerLines Examples.reversedHunks)
               ≡ₚ map Z.of_nat (seq 1 2))
    by (vm_compute; apply perm_swap).
  split; [exact Hv|]. split; [exact Hp|].
  exact (blame_output_shape (fun _ => "now") Examples.reversedHunks 2 Hv Hp).
Defined.

(** A commit seen for the first time has no cached metadata when its
    header is read, so the record pushed for that header carries the
    placeholders. *)
Lemma first_header_emits_placeholders now st line :
  BlameParser.commitCache st !! default "" (BlameParser.part 0 line) = None ->
  exists r,
    BlameParser.blameInfo (BlameParser.onHeader now st line)
      = BlameParser.blameInfo st ++ [r]
    /\ author r = "Unknown" /\ date r = now /\ summary r = "".
Proof.
  intros Hnone. unfold BlameParser.onHeader. rewrite Hnone. simpl. eauto.
Qed.

(** C1. On an input in which commit [hashA] emits author, author-time and
    summary after its first header and only a bare header later, the two
    records of the commit differ: the first one keeps the placeholders
    (["Unknown"], the parse time, the empty summary), because it is pushed
    before the metadata lines are read, and only the second one shows
    Alice, the commit date and the summary. *)
Theorem blame_first_record_is_placeholder (clock : nat -> string) :
  BlameParser.parseBlameOutput clock Examples.reusedCommit
  = Some [ {| lineNumber := 1; commitHash := Examples.hashA;
              author := "Unknown"; date := clock 0%nat; summary := "" |};
           {| lineNumber := 2; commitHash := Examples.hashA;
              author := "Alice"; date := "1970-01-01T00:16:40.000Z";
              summary := "fix" |} ].
Proof. reflexivity. Qed.

(** ** The cache *)

Section CacheFacts.
Context {T : Type}.
Implicit Types (cache acc : gmap string (CacheManager.CacheEntry T)).

Lemma truthy_nonempty s : JS.truthy s = true <-> s <> "".
Proof. destruct s; simpl; split; congruence. Qed.

(** The deleting walk, started from any accumulator. *)
Lemma invalidate_walk fp cache acc k :
  map_fold (fun key (entry : CacheManager.CacheEntry T) acc =>
              if String.eqb (CacheManager.filePath entry) fp
              then delete key acc else acc) acc cache !! k
  = match cache !! k with
    | Some entry =>
        if String.eqb (CacheManager.filePath entry) fp then None else acc !! k
    | None => acc !! k
    end.
Proof.
  revert k.
  apply (map_fold_weak_ind (fun r m => forall k,
    r !! k = match m !! k with
             | Some entry =>
                 if String.eqb (CacheManager.filePath entry) fp
                 then None else acc !! k
             | None => acc !! k
             end)).
  - intros k. by rewrite lookup_empty.
  - intros i x m r Hi IH k.
    destruct (decide (i = k)) as [->|Hne].
    + rewrite lookup_insert_eq.
      destruct (String.eqb _ fp); [by rewrite lookup_delete_eq|].
      rewrite IH, Hi. done.
    + rewrite lookup_insert_ne by done.
      destruct (String.eqb (CacheManager.filePath x) fp);
        [rewrite lookup_delete_ne by done|]; apply IH.
Qed.

(** What [invalidate(filePath)] leaves under each key. *)
Lemma invalidate_tagged_lookup cache fp k :
  fp <> "" ->
  CacheManager.invalidate cache (Some fp) !! k
  = match cache !! k with
    | Some entry =>
        if String.eqb (CacheManager.filePath entry) fp then None else Some entry
    | None => None
    end.
Proof.
  intros Hfp. unfold CacheManager.invalidate.
  apply truthy_nonempty in Hfp as ->. rewrite invalidate_walk.
  destruct (cache !! k) as [entry|]; [|done].
  by destruct (String.eqb _ fp).
Qed.

(** An empty path is falsy, so [invalidate("")] is [invalidate()]. *)
Lemma invalidate_empty_path cache :
  CacheManager.invalidate cache (Some "") = CacheManager.invalidate cache None.
Proof. done. Qed.
End CacheFacts.

(** C5. [invalidate(filePath)] with a file path removes exactly the entries
    tagged with that path: they miss afterwards, and every entry with
    another tag, the empty tag of commit-scoped entries included, is still
    served with its payload; [invalidate()] leaves nothing. *)
Theorem invalidate_is_selective {T : Type}
    (cache : gmap string (CacheManager.CacheEntry T)) (fp : string) :
  fp <> "" ->
  (forall key entry,
      cache !! key = Some entry -> CacheManager.filePath entry = fp ->
      CacheManager.get (CacheManager.invalidate cache (Some fp)) key = None)
  /\ (forall key entry,
        cache !! key = Some entry -> CacheManager.filePath entry <> fp ->
        CacheManager.get (CacheManager.invalidate cache (Some fp)) key
          = Some (CacheManager.data entry))
  /\ (forall key,
        cache !! key = None ->
        CacheManager.get (CacheManager.invalidate cache (Some fp)) key = None)
  /\ (forall key, CacheManager.get (CacheManager.invalidate cache None) key = None).
Proof.
  intros Hfp. unfold CacheManager.get. split; [|split; [|split]].
  - intros key entry Hk Htag. rewrite invalidate_tagged_lookup, Hk by done.
    subst fp. by rewrite String.eqb_refl.
  - intros key entry Hk Htag. rewrite invalidate_tagged_lookup, Hk by done.
    destruct (String.eqb_spec (CacheManager.filePath entry) fp); done.
  - intros key Hk. by rewrite invalidate_tagged_lookup, Hk.
  - intros key. simpl. by rewrite lookup_empty.
Qed.

Lemma invalidate_is_selective_witness :
  "/ws/a.ts" <> ""
  /\ CacheManager.get
       (CacheManager.invalidate Examples.taggedCache (Some "/ws/a.ts"))
       (GitService.contentKey "abc123" "/ws/a.ts") = None
  /\ CacheManager.get
       (CacheManager.invalidate Examples.taggedCache (Some "/ws/a.ts"))
       (GitService.blameKey "/ws/b.ts") = Some (Blame [])
  /\ CacheManager.get
       (CacheManager.invalidate Examples.taggedCache (Some "/ws/a.ts"))
       (GitService.filesKey "abc123") = Some (Files 1%positive).
Proof.
  assert (Hfp : "/ws/a.ts" <> "") by discriminate.
  destruct (invalidate_is_selective Examples.taggedCache "/ws/a.ts" Hfp)
    as (Hmiss & Hhit & _ & _).
  split; [exact Hfp|]. split; [|split].
  - eapply Hmiss; [reflexivity | reflexivity].
  - eapply (Hhit _ {| CacheManager.data := Blame []; CacheManager.timestamp := 2;
                      CacheManager.filePath := "/ws/b.ts";
                      CacheManager.commitHash := None |}); [reflexivity | discriminate].
  - eapply (Hhit _ {| CacheManager.data := Files 1%positive; CacheManager.timestamp := 3;
                      CacheManager.filePath := "";
                      CacheManager.commitHash := Some "abc123" |}); [reflexivity | discriminate].
Defined.

(** ** The cached reads of the service *)

Section ServiceFacts.
Context {P : NodePath}.
Implicit Types (s : GitService.t) (h : Store).

Lemma get_set {T} now (cache : gmap string (CacheManager.CacheEntry T))
    key d fp ch :
  CacheManager.get (CacheManager.set now cache key d fp ch) key = Some d.
Proof. unfold CacheManager.get, CacheManager.set. by rewrite lookup_insert_eq. Qed.

Lemma getChangedFiles_asks now h s hash fp q k :
  GitService.getChangedFiles now h s hash fp = Ask q k ->
  k = GitService.changedFilesAnswer now h s hash.
Proof.
  unfold GitService.getChangedFiles.
  repeat case_match; try discriminate; by intros [= _ <-].
Qed.

(** A truthy payload under the key of the commit is what any call
    returns, whatever file is named and without a query. *)
Lemma getChangedFiles_hit now h s hash fp cached :
  CacheManager.get (GitService.cache s) (GitService.filesKey hash) = Some cached ->
  payloadTruthy cached = true ->
  GitService.getChangedFiles now h s hash fp = Done (cached, h, s).
Proof.
  intros Hget Ht. unfold GitService.getChangedFiles. by rewrite Hget, Ht.
Qed.

Lemma cache_invalidateCache s arg :
  GitService.cache (GitService.invalidateCache s arg)
  = CacheManager.invalidate (GitService.cache s) arg.
Proof. done. Qed.

Lemma cache_withCache s c : GitService.cache (GitService.withCache s c) = c.
Proof. done. Qed.

Lemma alloc_lookup h v : (alloc h v).2 !! (alloc h v).1 = Some v.
Proof. unfold alloc. simpl. by rewrite lookup_insert_eq. Qed.

Lemma alloc_fresh h v : h !! (alloc h v).1 = None.
Proof.
  unfold alloc. simpl. apply not_elem_of_dom. apply is_fresh.
Qed.
End ServiceFacts.

(** C8. Once a call of [getChangedFiles] for a commit has obtained an
    answer from the repository, the array it returned is cached under a
    key made of the commit hash alone: any later call for that commit,
    with any file argument or none, returns that same array and asks the
    repository nothing.  The entry carries the empty file tag, so it also
    survives [invalidate(path)] for every path, and is gone only after
    [invalidate()]. *)
Theorem changed_files_cache_ignores_file {P : NodePath}
    (now : Z) (h : Store) (s : GitService.t) (hash : string)
    (fp1 : option string) (q : GitQuery)
    (k : option string -> Payload * Store * GitService.t) (result : string) :
  GitService.getChangedFiles now h s hash fp1 = Ask q k ->
  exists r h1 s1,
    k (Some result) = (Files r, h1, s1)
    /\ h1 !! r = Some (GitService.parseNameStatus result)
    /\ (forall now' fp2,
          GitService.getChangedFiles now' h1 s1 hash fp2 = Done (Files r, h1, s1))
    /\ (forall somePath now' fp2,
          somePath <> "" ->
          GitService.getChangedFiles now' h1
            (GitService.invalidateCache s1 (Some somePath)) hash fp2
          = Done (Files r, h1, GitService.invalidateCache s1 (Some somePath)))
    /\ CacheManager.get (GitService.cache (GitService.invalidateCache s1 None))
         (GitService.filesKey hash) = None.
Proof.
  intros Hask. apply getChangedFiles_asks in Hask as ->.
  unfold GitService.changedFilesAnswer.
  pose proof (alloc_lookup h (GitService.parseNameStatus result)) as Hr.
  destruct (alloc h (GitService.parseNameStatus result)) as [r h1]. simpl in Hr.
  eexists r, h1, _. split; [reflexivity|]. split; [exact Hr|].
  split; [|split].
  - intros now' fp2. apply getChangedFiles_hit; [apply get_set | done].
  - intros somePath now' fp2 Hne. apply getChangedFiles_hit; [|done].
    rewrite cache_invalidateCache, cache_withCache. unfold CacheManager.get.
    rewrite invalidate_tagged_lookup by done.
    unfold CacheManager.set. rewrite lookup_insert_eq.
    cbn [CacheManager.filePath CacheManager.data].
    destruct (String.eqb_spec "" somePath); [congruence | done].
  - rewrite cache_invalidateCache. unfold CacheManager.get, CacheManager.invalidate.
    by rewrite lookup_empty.
Qed.

(** The cache and the tree builder share the array: once [buildFileTree]
    has sorted the array a call returned, later calls return that array in
    the order of the paths. *)
Lemma builder_sorts_the_cached_array {P : NodePath} {C : Collation}
    (now now' : Z) (h : Store) (s : GitService.t) (hash : string)
    (fp1 fp2 : option string) (q : GitQuery)
    (k : option string -> Payload * Store * GitService.t) (result : string)
    (p : GitHistoryProvider.t) :
  GitService.getChangedFiles now h s hash fp1 = Ask q k ->
  exists r h1 s1,
    k (Some result) = (Files r, h1, s1)
    /\ let h2 := (GitHistoryProvider.buildFileTree p h1 r hash).1 in
       GitService.getChangedFiles now' h2 s1 hash fp2 = Done (Files r, h2, s1)
       /\ h2 !! r
          = Some (JS.sort GitHistoryProvider.byPath
                    (GitService.parseNameStatus result)).
Proof.
  intros Hask. apply getChangedFiles_asks in Hask as ->.
  unfold GitService.changedFilesAnswer.
  pose proof (alloc_lookup h (GitService.parseNameStatus result)) as Hr.
  destruct (alloc h (GitService.parseNameStatus result)) as [r h1]. simpl in Hr.
  eexists r, h1, _. split; [reflexivity|]. split.
  - apply getChangedFiles_hit; [apply get_set | done].
  - unfold GitHistoryProvider.buildFileTree. cbn [fst].
    by rewrite lookup_alter_eq, Hr.
Qed.

Lemma changed_files_cache_ignores_file_witness :
  let q := Show (simpleGit "/ws") ["--name-status"; "--pretty=format:"; "abc123"] in
  let k := GitService.changedFilesAnswer 1 ∅ Examples.plainService "abc123" in
  GitService.getChangedFiles (P := PosixPath.posix) 1 ∅ Examples.plainService
    "abc123" (Some "/ws/src/a.ts") = Ask q k
  /\ exists r h1 s1,
       k (Some Examples.nameStatus) = (Files r, h1, s1)
       /\ h1 !! r = Some (GitService.parseNameStatus Examples.nameStatus)
       /\ (forall now' fp2,
             GitService.getChangedFiles (P := PosixPath.posix) now' h1 s1
               "abc123" fp2 = Done (Files r, h1, s1))
       /\ (forall somePath now' fp2,
             somePath <> "" ->
             GitService.getChangedFiles (P := PosixPath.posix) now' h1
               (GitService.invalidateCache s1 (Some somePath)) "abc123" fp2
             = Done (Files r, h1, GitService.invalidateCache s1 (Some somePath)))
       /\ CacheManager.get
            (GitService.cache (GitService.invalidateCache s1 None))
            (GitService.filesKey "abc123") = None.
Proof.
  intros q k.
  assert (Hfirst : GitService.getChangedFiles (P := PosixPath.posix) 1 ∅
                     Examples.plainService "abc123" (Some "/ws/src/a.ts")
                   = Ask q k) by reflexivity.
  split; [exact Hfirst|].
  exact (changed_files_cache_ignores_file (P := PosixPath.posix) 1 ∅
           Examples.plainService "abc123" (Some "/ws/src/a.ts") q k
           Examples.nameStatus Hfirst).
Defined.

(** ** [getFileContent] and empty payloads *)

Section ContentFacts.
Context {P : NodePath}.
Implicit Types (s : GitService.t).

Lemma getRepoForFile_withCache s c fp :
  GitService.getRepoForFile (GitService.withCache s c) fp
  = GitService.getRepoForFile s fp.
Proof. done. Qed.

Lemma getFileContent_requeries now s hash fp repo :
  GitService.getRepoForFile s fp = Some repo ->
  noUsableContent hash fp s ->
  GitService.getFileContent now s hash fp
  = Ask (Show (git repo)
           [hash +:+ ":" +:+ GitService.getRelativePathForRepo fp (root repo)])
        (GitService.contentAnswer now s hash fp).
Proof.
  unfold noUsableContent, GitService.getFileContent. intros -> Hc.
  destruct (CacheManager.get _ _) as [cached|]; [by rewrite Hc | done].
Qed.

(** A call that returns the empty string leaves no usable entry. *)
Lemma empty_result_not_usable now oracle s hash fp repo s1 :
  GitService.getRepoForFile s fp = Some repo ->
  run oracle (GitService.getFileContent now s hash fp) = (Content "", s1) ->
  GitService.getRepoForFile s1 fp = Some repo /\ noUsableContent hash fp s1.
Proof.
  intros Hrepo. unfold GitService.getFileContent. rewrite Hrepo.
  assert (Hmiss : forall q,
    run oracle (Ask q (GitService.contentAnswer now s hash fp)) = (Content "", s1) ->
    noUsableContent hash fp s ->
    GitService.getRepoForFile s1 fp = Some repo /\ noUsableContent hash fp s1).
  { intros q. simpl. unfold GitService.contentAnswer.
    destruct (oracle q) as [content|]; [intros [= -> <-] Hs|by intros [= <-]].
    split; [done|]. unfold noUsableContent.
    by rewrite cache_withCache, get_set. }
  unfold noUsableContent in Hmiss.
  destruct (CacheManager.get (GitService.cache s) _) as [cached|] eqn:Hget.
  - destruct (payloadTruthy cached) eqn:Ht.
    + simpl. intros [= -> <-]. discriminate Ht.
    + intros Hrun. by eapply Hmiss.
  - intros Hrun. by eapply Hmiss.
Qed.

Lemma EmptyRuns_not_usable hash fp repo s1 s2 :
  EmptyRuns hash fp s1 s2 ->
  GitService.getRepoForFile s1 fp = Some repo -> noUsableContent hash fp s1 ->
  GitService.getRepoForFile s2 fp = Some repo /\ noUsableContent hash fp s2.
Proof.
  induction 1 as [|s s' s'' now oracle Hrun _ IH]; [done|].
  intros Hrepo _. destruct (empty_result_not_usable _ _ _ _ _ _ _ Hrepo Hrun).
  by apply IH.
Qed.
End ContentFacts.

(** Without a repository for the file there is nothing to ask: the call
    answers the empty string on its own, every time. *)
Lemma getFileContent_without_repo {P : NodePath} now s hash fp :
  GitService.getRepoForFile s fp = None ->
  noUsableContent hash fp s ->
  GitService.getFileContent now s hash fp = Done (Content "", s).
Proof.
  unfold noUsableContent, GitService.getFileContent. intros -> Hc.
  destruct (CacheManager.get _ _) as [cached|]; [by rewrite Hc | done].
Qed.

(** C9. When a repository serves the file and [getFileContent] has returned
    the empty string, be it for an empty blob (cached, but falsy) or for a
    rejected query (not cached), the next call with the same arguments
    issues the [show] query again, and so does every further one for as
    long as the calls keep returning the empty string. *)
Theorem empty_content_is_never_a_hit {P : NodePath}
    (now now' : Z) (oracle : GitQuery -> option string)
    (s s1 s2 : GitService.t) (hash fp : string) (repo : GitRepoInfo) :
  GitService.getRepoForFile s fp = Some repo ->
  run oracle (GitService.getFileContent now s hash fp) = (Content "", s1) ->
  EmptyRuns hash fp s1 s2 ->
  asked (GitService.getFileContent now' s2 hash fp)
  = Some (Show (git repo)
            [hash +:+ ":" +:+ GitService.getRelativePathForRepo fp (root repo)]).
Proof.
  intros Hrepo Hrun Hruns.
  destruct (empty_result_not_usable _ _ _ _ _ _ _ Hrepo Hrun) as [Hrepo1 Hno1].
  destruct (EmptyRuns_not_usable _ _ _ _ _ Hruns Hrepo1 Hno1) as [Hrepo2 Hno2].
  by rewrite (getFileContent_requeries _ _ _ _ _ Hrepo2 Hno2).
Qed.

Lemma empty_content_is_never_a_hit_witness :
  let s := Examples.plainService in
  let fp := "/ws/src/empty.txt" in
  let repo := {| root := "/ws"; git := simpleGit "/ws" |} in
  let emptyBlob : GitQuery -> option string := fun _ => Some "" in
  let call := GitService.getFileContent (P := PosixPath.posix) 1 s "abc123" fp in
  let s1 := (run emptyBlob call).2 in
  GitService.getRepoForFile (P := PosixPath.posix) s fp = Some repo
  /\ run emptyBlob call = (Content "", s1)
  /\ EmptyRuns (P := PosixPath.posix) "abc123" fp s1 s1
  /\ asked (GitService.getFileContent (P := PosixPath.posix) 2 s1 "abc123" fp)
     = Some (Show (simpleGit "/ws") ["abc123:src/empty.txt"]).
Proof.
  intros s fp repo emptyBlob call s1.
  assert (Hrepo : GitService.getRepoForFile (P := PosixPath.posix) s fp = Some repo)
    by reflexivity.
  assert (Hrun : run emptyBlob call = (Content "", s1)) by reflexivity.
  pose proof (EmptyRuns_refl (P := PosixPath.posix) "abc123" fp s1) as Hruns.
  split; [exact Hrepo|]. split; [exact Hrun|]. split; [exact Hruns|].
  exact (empty_content_is_never_a_hit (P := PosixPath.posix) 1 2 emptyBlob
           s s1 s1 "abc123" fp repo Hrepo Hrun Hruns).
Defined.

(** ** Relative paths *)

Lemma replaceBackslashes_without s :
  JS.hasBackslash s = false -> JS.replaceBackslashes s = s.
Proof.
  unfold JS.hasBackslash, JS.chars.
  induction s as [|c s IH]; simpl; [done|].
  intros H. apply orb_false_elim in H as [-> H]. by rewrite IH.
Qed.

(** C7, as the code has it.  For a path whose normal form does not start
    with the normal form of the root, [getRelativePathForRepo] returns the
    path with every backslash turned into a slash; so a path without
    backslashes comes back unchanged, and relativising it twice is
    relativising it once.  The function is total: there is nothing it
    could throw. *)
Theorem relativize_on_relative_path {P : NodePath} (filePath repoRoot : string) :
  JS.startsWith (normalize filePath) (normalize repoRoot) = false ->
  GitService.getRelativePathForRepo filePath repoRoot
    = JS.replaceBackslashes filePath
  /\ (JS.hasBackslash filePath = false ->
      GitService.getRelativePathForRepo filePath repoRoot = filePath
      /\ GitService.getRelativePathForRepo
           (GitService.getRelativePathForRepo filePath repoRoot) repoRoot
         = GitService.getRelativePathForRepo filePath repoRoot).
Proof.
  intros Hrel.
  assert (Hone : GitService.getRelativePathForRepo filePath repoRoot
                 = JS.replaceBackslashes filePath).
  { unfold GitService.getRelativePathForRepo. by rewrite Hrel. }
  split; [exact Hone|]. intros Hno.
  rewrite Hone, (replaceBackslashes_without _ Hno). split; [done|].
  unfold GitService.getRelativePathForRepo. rewrite Hrel.
  by apply replaceBackslashes_without.
Qed.

Lemma relativize_on_relative_path_witness :
  JS.startsWith (PosixPath.posixNormalize "src/a.ts") (PosixPath.posixNormalize "/ws")
    = false
  /\ GitService.getRelativePathForRepo (P := PosixPath.posix) "src/a.ts" "/ws"
     = "src/a.ts"
  /\ GitService.getRelativePathForRepo (P := PosixPath.posix)
       (GitService.getRelativePathForRepo (P := PosixPath.posix) "src/a.ts" "/ws")
       "/ws"
     = GitService.getRelativePathForRepo (P := PosixPath.posix) "src/a.ts" "/ws".
Proof.
  assert (Hrel : JS.startsWith (normalize (NodePath := PosixPath.posix) "src/a.ts")
                   (normalize (NodePath := PosixPath.posix) "/ws") = false)
    by reflexivity.
  destruct (relativize_on_relative_path (P := PosixPath.posix) "src/a.ts" "/ws" Hrel)
    as [_ Hsame].
  split; [exact Hrel|]. apply Hsame. reflexivity.
Defined.

(** C7, as the claim states it, fails on a relative path that is written
    with a backslash: it is returned with a slash instead. *)
Lemma relativize_rewrites_backslashes :
  JS.startsWith (PosixPath.posixNormalize "src\a.ts") (PosixPath.posixNormalize "/ws")
    = false
  /\ GitService.getRelativePathForRepo (P := PosixPath.posix) "src\a.ts" "/ws"
     = "src/a.ts"
  /\ GitService.getRelativePathForRepo (P := PosixPath.posix) "src\a.ts" "/ws"
     <> "src\a.ts".
Proof. split; [reflexivity|]. split; [reflexivity | discriminate]. Qed.

(** ** The name-status parser *)

Section ScanFacts.
Context {A : Type} (p : A -> bool).

Lemma takeWhile_dropWhile l : JS.takeWhile p l ++ JS.dropWhile p l = l.
Proof.
  induction l as [|x l IH]; simpl; [done|].
  destruct (p x); simpl; [by rewrite IH | done].
Qed.

Lemma takeWhile_all l : forallb p (JS.takeWhile p l) = true.
Proof.
  induction l as [|x l IH]; simpl; [done|].
  destruct (p x) eqn:E; simpl; [by rewrite E | done].
Qed.

Lemma dropWhile_stops l : JS.stopsAt p (JS.dropWhile p l).
Proof.
  induction l as [|x l IH]; simpl; [done|].
  destruct (p x) eqn:E; simpl; done.
Qed.

Lemma takeWhile_app l1 l2 :
  forallb p l1 = true -> JS.stopsAt p l2 -> JS.takeWhile p (l1 ++ l2) = l1.
Proof.
  intros H1 H2. induction l1 as [|x l1 IH]; simpl.
  - destruct l2 as [|y l2]; simpl in *; [done | by rewrite H2].
  - simpl in H1. apply andb_prop in H1 as [-> H1]. by rewrite IH.
Qed.

Lemma dropWhile_app l1 l2 :
  forallb p l1 = true -> JS.stopsAt p l2 -> JS.dropWhile p (l1 ++ l2) = l2.
Proof.
  intros H1 H2. induction l1 as [|x l1 IH]; simpl.
  - destruct l2 as [|y l2]; simpl in *; [done | by rewrite H2].
  - simpl in H1. apply andb_prop in H1 as [-> H1]. by rewrite IH.
Qed.
End ScanFacts.

Lemma chars_str cs : JS.chars (JS.str cs) = cs.
Proof. apply list_ascii_of_string_of_list_ascii. Qed.

Lemma str_chars s : JS.str (JS.chars s) = s.
Proof. apply string_of_list_ascii_of_string. Qed.

Lemma statusOf_letter c digits :
  GitService.isStatusLetter c = true ->
  GitService.statusOf (JS.str (c :: digits)) = Spec.statusOfLetter c.
Proof.
  unfold GitService.isStatusLetter. cbn [existsb]. intros H.
  repeat (apply orb_prop in H as [H|H];
          [apply Ascii.eqb_eq in H as ->; reflexivity|]).
  discriminate H.
Qed.

Lemma whiteSpace_not_digit c : JS.isWhiteSpace c = true -> JS.isDigit c = false.
Proof.
  unfold JS.isWhiteSpace, JS.isDigit. intros H.
  destruct (48 <=? nat_of_ascii c)%nat eqn:E1; [|done].
  destruct (nat_of_ascii c <=? 57)%nat eqn:E2; [|done].
  apply Nat.leb_le in E1, E2.
  repeat (apply orb_prop in H as [H|H]).
  - apply andb_prop in H as [_ H]. apply Nat.leb_le in H. lia.
  - apply Nat.eqb_eq in H. lia.
  - apply Nat.eqb_eq in H. lia.
Qed.

(** What a line must look like for [matchNameStatus] to accept it, and what
    it then captures. *)
Lemma matchNameStatus_sound line code p :
  GitService.matchNameStatus line = Some (code, p) ->
  exists c digits blanks,
    JS.chars line = c :: digits ++ blanks ++ JS.chars p
    /\ code = JS.str (c :: digits)
    /\ GitService.isStatusLetter c = true
    /\ forallb JS.isDigit digits = true
    /\ blanks <> [] /\ forallb JS.isWhiteSpace blanks = true
    /\ p <> "".
Proof.
  unfold GitService.matchNameStatus.
  destruct (JS.chars line) as [|c rest] eqn:Hline; [done|].
  destruct (GitService.isStatusLetter c) eqn:Hc; [|done].
  pose proof (takeWhile_dropWhile JS.isDigit rest) as Hrest.
  pose proof (takeWhile_dropWhile JS.isWhiteSpace (JS.dropWhile JS.isDigit rest)) as Hafter.
  pose proof (takeWhile_all JS.isDigit rest) as Hdigits.
  pose proof (takeWhile_all JS.isWhiteSpace (JS.dropWhile JS.isDigit rest)) as Hblanks.
  destruct (JS.takeWhile JS.isWhiteSpace _) as [|b more] eqn:Hb; [done|].
  destruct (JS.dropWhile JS.isWhiteSpace _) as [|t tail] eqn:Ht.
  - (* the white space reaches the end of the line *)
    destruct (rev more) as [|final front] eqn:Hrev; [done|].
    destruct (JS.isLineTerminator final); [done|]. intros Heq.
    assert (code = JS.str (c :: JS.takeWhile JS.isDigit rest)
            /\ p = JS.str [final]) as [-> ->] by (by injection Heq).
    assert (Hmore : more = rev front ++ [final]).
    { by rewrite <- (rev_involutive more), Hrev. }
    exists c, (JS.takeWhile JS.isDigit rest), (b :: rev front).
    rewrite chars_str. repeat split; try done.
    + f_equal. rewrite <- Hrest at 1. f_equal.
      by rewrite <- Hafter, app_nil_r, Hmore.
    + rewrite Hmore in Hblanks. simpl in *.
      apply andb_prop in Hblanks as [-> Hblanks].
      rewrite forallb_app in Hblanks. by apply andb_prop in Hblanks as [-> _].
  - destruct (forallb _ (t :: tail)); [|done]. intros Heq.
    assert (code = JS.str (c :: JS.takeWhile JS.isDigit rest)
            /\ p = JS.str (t :: tail)) as [-> ->] by (by injection Heq).
    exists c, (JS.takeWhile JS.isDigit rest), (b :: more).
    rewrite chars_str. repeat split; try done.
    f_equal. rewrite <- Hrest at 1. f_equal. by rewrite <- Hafter.
Qed.

(** The usual shape of a line is accepted, with these captures. *)
Lemma matchNameStatus_complete c digits blanks p :
  GitService.isStatusLetter c = true ->
  forallb JS.isDigit digits = true ->
  blanks <> [] -> forallb JS.isWhiteSpace blanks = true ->
  p <> [] -> JS.stopsAt JS.isWhiteSpace p ->
  forallb (fun x => negb (JS.isLineTerminator x)) p = true ->
  GitService.matchNameStatus (JS.str (c :: digits ++ blanks ++ p))
  = Some (JS.str (c :: digits), JS.str p).
Proof.
  intros Hc Hd Hne Hb Hp Hstop Hterm.
  unfold GitService.matchNameStatus. rewrite chars_str, Hc.
  assert (Hstop1 : JS.stopsAt JS.isDigit (blanks ++ p)).
  { destruct blanks as [|b blanks]; [done|]. simpl in *.
    apply andb_prop in Hb as [Hb _]. by apply whiteSpace_not_digit. }
  rewrite (takeWhile_app _ _ _ Hd Hstop1), (dropWhile_app _ _ _ Hd Hstop1).
  rewrite (takeWhile_app _ _ _ Hb Hstop), (dropWhile_app _ _ _ Hb Hstop).
  destruct blanks as [|b blanks]; [done|]. destruct p as [|t p]; [done|].
  by rewrite Hterm.
Qed.

(** C6, as the code has it.  A line is parsed when it consists of one of
    the letters A, M, D, R, T, any number of digits, white space and a
    path; the record carries the path and the status of the letter
    (A added, M modified, D deleted, R and T modified).  On the output of
    end-to-end scenario 1 a call that misses the cache asks the main
    repository and returns the three records of the scenario. *)
Theorem name_status_contract {P : NodePath} :
  (forall line f,
      GitService.parseNameStatusLine line = Some f ->
      exists c digits blanks,
        JS.chars line = c :: digits ++ blanks ++ JS.chars (ChangedFile.path f)
        /\ GitService.isStatusLetter c = true
        /\ forallb JS.isDigit digits = true
        /\ blanks <> [] /\ forallb JS.isWhiteSpace blanks = true
        /\ ChangedFile.path f <> ""
        /\ ChangedFile.status f = Spec.statusOfLetter c)
  /\ (forall c digits blanks p,
        GitService.isStatusLetter c = true ->
        forallb JS.isDigit digits = true ->
        blanks <> [] -> forallb JS.isWhiteSpace blanks = true ->
        p <> [] -> JS.stopsAt JS.isWhiteSpace p ->
        forallb (fun x => negb (JS.isLineTerminator x)) p = true ->
        GitService.parseNameStatusLine (JS.str (c :: digits ++ blanks ++ p))
        = Some {| ChangedFile.path := JS.str p;
                  ChangedFile.status := Spec.statusOfLetter c |})
  /\ (forall now h s,
        CacheManager.get (GitService.cache s) (GitService.filesKey "abc123") = None ->
        asked (GitService.getChangedFiles now h s "abc123" None)
        = Some (Show (GitService.mainGit s)
                  ["--name-status"; "--pretty=format:"; "abc123"])
        /\ exists r h' s',
             run (fun _ => Some Examples.nameStatus)
                 (GitService.getChangedFiles now h s "abc123" None)
             = (Files r, h', s')
             /\ h' !! r
                = Some [ {| ChangedFile.path := "src/a.ts";
                            ChangedFile.status := modified |};
                         {| ChangedFile.path := "src/b.ts";
                            ChangedFile.status := added |};
                         {| ChangedFile.path := "old.ts";
                            ChangedFile.status := deleted |} ]).
Proof.
  split; [|split].
  - intros line f. unfold GitService.parseNameStatusLine.
    destruct (GitService.matchNameStatus line) as [[code p]|] eqn:Hm; [|done].
    intros [= <-]. simpl.
    destruct (matchNameStatus_sound _ _ _ Hm)
      as (c & digits & blanks & Hline & -> & Hc & Hd & Hb & Hws & Hp).
    exists c, digits, blanks. repeat split; try done.
    by apply statusOf_letter.
  - intros c digits blanks p Hc Hd Hne Hb Hp Hstop Hterm.
    unfold GitService.parseNameStatusLine.
    rewrite matchNameStatus_complete by done.
    by rewrite statusOf_letter.
  - intros now h s Hmiss. unfold GitService.getChangedFiles. rewrite Hmiss.
    split; [done|]. cbn [run GitService.changedFilesAnswer].
    pose proof (alloc_lookup h (GitService.parseNameStatus Examples.nameStatus)) as Hr.
    destruct (alloc h _) as [r h']. eexists r, h', _. split; [reflexivity|].
    exact Hr.
Qed.

Lemma name_status_contract_witness :
  GitService.parseNameStatusLine Examples.renameLine
    = Some {| ChangedFile.path := "old.ts" +:+ Examples.TAB +:+ "new.ts";
              ChangedFile.status := modified |}
  /\ (exists c digits blanks,
        JS.chars Examples.renameLine
          = c :: digits ++ blanks
              ++ JS.chars ("old.ts" +:+ Examples.TAB +:+ "new.ts")
        /\ GitService.isStatusLetter c = true
        /\ forallb JS.isDigit digits = true
        /\ blanks <> [] /\ forallb JS.isWhiteSpace blanks = true
        /\ "old.ts" +:+ Examples.TAB +:+ "new.ts" <> ""
        /\ modified = Spec.statusOfLetter c)
  /\ GitService.parseNameStatusLine
       (JS.str ("R"%char :: JS.chars "100" ++ JS.chars Examples.TAB
                ++ JS.chars "old.ts"))
     = Some {| ChangedFile.path := "old.ts"; ChangedFile.status := modified |}
  /\ CacheManager.get (GitService.cache Examples.plainService)
       (GitService.filesKey "abc123") = None
  /\ exists r h' s',
       run (fun _ => Some Examples.nameStatus)
           (GitService.getChangedFiles (P := PosixPath.posix) 1 ∅
              Examples.plainService "abc123" None)
       = (Files r, h', s')
       /\ h' !! r = Some (GitService.parseNameStatus Examples.nameStatus).
Proof.
  destruct (name_status_contract (P := PosixPath.posix))
    as (Hsound & Hcomplete & Hscenario).
  assert (Hparse : GitService.parseNameStatusLine Examples.renameLine
            = Some {| ChangedFile.path := "old.ts" +:+ Examples.TAB +:+ "new.ts";
                      ChangedFile.status := modified |}) by reflexivity.
  assert (Hmiss : CacheManager.get (GitService.cache Examples.plainService)
                    (GitService.filesKey "abc123") = None) by reflexivity.
  split; [exact Hparse|]. split; [exact (Hsound _ _ Hparse)|].
  split; [|split; [exact Hmiss|]].
  - apply (Hcomplete "R"%char (JS.chars "100") (JS.chars Examples.TAB)
             (JS.chars "old.ts"));
      first [reflexivity | discriminate].
  - destruct (Hscenario 1 ∅ Examples.plainService Hmiss) as (_ & r & h' & s' & Hrun & Hr).
    exists r, h', s'. split; [exact Hrun | exact Hr].
Defined.

(** C6, as the claim states it, fails on a rename: [R100] is a status code
    of four characters, the line is not of the one-or-two-character shape,
    and the code parses it all the same. *)
Lemma name_status_code_of_four_characters :
  Spec.oneOrTwoCharacterCode Examples.renameLine = false
  /\ GitService.matchNameStatus Examples.renameLine
     = Some ("R100", "old.ts" +:+ Examples.TAB +:+ "new.ts")
  /\ GitService.parseNameStatus Examples.renameLine
     = [ {| ChangedFile.path := "old.ts" +:+ Examples.TAB +:+ "new.ts";
            ChangedFile.status := modified |} ].
Proof. split; [reflexivity|]. split; reflexivity. Qed.

(** ** The code-unit collation is an order *)

Lemma codeUnit_head_tail x y a b :
  CodeUnitOrder.compare (String x a) (String y b) <= 0 <->
  (nat_of_ascii x < nat_of_ascii y)%nat
  \/ (x = y /\ CodeUnitOrder.compare a b <= 0).
Proof.
  simpl. destruct (Z.eqb_spec (Z.of_nat (nat_of_ascii x) - Z.of_nat (nat_of_ascii y)) 0)
    as [E|E].
  - assert (x = y) as ->.
    { rewrite <- (ascii_nat_embedding x), <- (ascii_nat_embedding y).
      f_equal. lia. }
    split; [by right | intros [?|[_ ?]]; [lia | done]].
  - split; [left; lia | intros [?|[-> _]]; lia].
Qed.

#[global] Instance codeUnit_order : CollationOrder CodeUnitOrder.collation.
Proof.
  split; simpl.
  - induction a as [|x a IH]; intros [|y b]; simpl; try lia.
    change (CodeUnitOrder.compare (String x a) (String y b) <= 0
            \/ CodeUnitOrder.compare (String y b) (String x a) <= 0).
    rewrite !codeUnit_head_tail.
    destruct (lt_eq_lt_dec (nat_of_ascii x) (nat_of_ascii y)) as [[?|E]|?];
      [by left; left | | by right; left].
    assert (x = y) as ->.
    { by rewrite <- (ascii_nat_embedding x), <- (ascii_nat_embedding y), E. }
    destruct (IH b); [left | right]; by right.
  - induction a as [|x a IH]; intros [|y b] [|z c]; simpl; try lia.
    change (CodeUnitOrder.compare (String x a) (String y b) <= 0 ->
            CodeUnitOrder.compare (String y b) (String z c) <= 0 ->
            CodeUnitOrder.compare (String x a) (String z c) <= 0).
    rewrite !codeUnit_head_tail.
    intros [?|[-> ?]] [?|[-> ?]]; [left; lia | by left | by left |].
    right. split; [done|]. by eapply IH.
Qed.

(** ** [buildFileTree]: the array of the caller *)

Section InPlaceSort.
Context {P : NodePath} {C : Collation} {O : CollationOrder C}.

Lemma byPath_total a b :
  GitHistoryProvider.byPath a b <= 0 \/ GitHistoryProvider.byPath b a <= 0.
Proof. apply localeCompare_total. Qed.

Lemma byPath_trans a b c :
  GitHistoryProvider.byPath a b <= 0 -> GitHistoryProvider.byPath b c <= 0 ->
  GitHistoryProvider.byPath a c <= 0.
Proof. apply localeCompare_trans. Qed.

End InPlaceSort.




(** ** [buildFileTree]: the order of the children *)

Section ChildOrder.
Import TreeItems.
Context {C : Collation} {O : CollationOrder C}.

Lemma compareItems_total a b :
  GitHistoryProvider.compareItems a b <= 0
  \/ GitHistoryProvider.compareItems b a <= 0.
Proof.
  unfold GitHistoryProvider.compareItems.
  destruct (isFolder a), (isFolder b); try apply localeCompare_total; lia.
Qed.

Lemma compareItems_trans a b c :
  GitHistoryProvider.compareItems a b <= 0 ->
  GitHistoryProvider.compareItems b c <= 0 ->
  GitHistoryProvider.compareItems a c <= 0.
Proof.
  unfold GitHistoryProvider.compareItems.
  destruct (isFolder a), (isFolder b), (isFolder c);
    try apply localeCompare_trans; lia.
Qed.

(** A child list in the order of [compareItems] is a run of folders in
    the order of their names followed by a run of files in the order of
    their labels. *)
Lemma ordered_children_split items :
  StronglySorted (JS.notAfter GitHistoryProvider.compareItems) items ->
  exists folders files,
    items = (Folder <$> folders) ++ (File <$> files)
    /\ StronglySorted
         (fun a b => localeCompare (folderName a) (folderName b) <= 0) folders
    /\ StronglySorted
         (fun a b => localeCompare (label (File a)) (label (File b)) <= 0) files.
Proof.
  induction 1 as [|x items Hs IH Hx].
  { exists [], []. repeat split; constructor. }
  destruct IH as (folders & files & -> & Hfo & Hfi).
  rewrite Forall_app, !Forall_fmap in Hx. destruct Hx as [Hxfo Hxfi].
  destruct x as [f|f].
  - exists (f :: folders), files. repeat split; [|done].
    constructor; [done|]. eapply Forall_impl; [exact Hxfo|]. by intros g.
  - destruct folders as [|g folders].
    + exists [], (f :: files). repeat split; [constructor|].
      constructor; [done|]. eapply Forall_impl; [exact Hxfi|]. by intros g.
    + inversion Hxfo as [|?? Hbad _]; subst.
      unfold JS.notAfter, GitHistoryProvider.compareItems in Hbad. simpl in Hbad. lia.
Qed.
End ChildOrder.

(** C4. In the tree [buildFileTree] returns, every child list consists of
    its folders followed by its files, the folders in the order of their
    names and the files in the order of their labels (the label is the
    name a node is displayed with). *)
Theorem children_are_folders_then_files
    {P : NodePath} {C : Collation} {O : CollationOrder C}
    (p : GitHistoryProvider.t) (h : Store) (files : Ref) (hash : string)
    (folderPath : string) (items : list TreeItems.TreeItem) :
  (GitHistoryProvider.buildFileTree p h files hash).2 !! folderPath = Some items ->
  exists folders fileItems,
    items = (TreeItems.Folder <$> folders) ++ (TreeItems.File <$> fileItems)
    /\ StronglySorted
         (fun a b => localeCompare (TreeItems.folderName a)
                       (TreeItems.folderName b) <= 0) folders
    /\ StronglySorted
         (fun a b => localeCompare (TreeItems.label (TreeItems.File a))
                       (TreeItems.label (TreeItems.File b)) <= 0) fileItems.
Proof.
  unfold GitHistoryProvider.buildFileTree. cbn [snd].
  rewrite lookup_fmap. intros Hk.
  apply fmap_Some in Hk as (unsorted & _ & ->).
  apply ordered_children_split, sort_sorted;
    [apply compareItems_total | apply compareItems_trans].
Qed.

Lemma children_are_folders_then_files_witness :
  let built := (GitHistoryProvider.buildFileTree
                  (P := PosixPath.posix) (C := CodeUnitOrder.collation)
                  (Examples.autoProvider "/ws/README.md")
                  Examples.store 1%positive "abc123").2 in
  let src := {| TreeItems.folderName := "src"; TreeItems.folderPath := "src";
                TreeItems.collapsibleState := TreeItems.Collapsed |} in
  let old := {| TreeItems.fileName := "old.ts"; TreeItems.commitHash := "abc123";
                TreeItems.filePath := "old.ts"; TreeItems.isCurrentFile := false;
                TreeItems.status := deleted |} in
  built !! "" = Some [TreeItems.Folder src; TreeItems.File old]
  /\ exists folders fileItems,
       [TreeItems.Folder src; TreeItems.File old]
       = (TreeItems.Folder <$> folders) ++ (TreeItems.File <$> fileItems)
       /\ StronglySorted
            (fun a b => CodeUnitOrder.compare (TreeItems.folderName a)
                          (TreeItems.folderName b) <= 0) folders
       /\ StronglySorted
            (fun a b => CodeUnitOrder.compare (TreeItems.label (TreeItems.File a))
                          (TreeItems.label (TreeItems.File b)) <= 0) fileItems.
Proof.
  intros built src old.
  assert (Hroot : built !! "" = Some [TreeItems.Folder src; TreeItems.File old])
    by reflexivity.
  split; [exact Hroot|].
  exact (children_are_folders_then_files
           (P := PosixPath.posix) (C := CodeUnitOrder.collation)
           (Examples.autoProvider "/ws/README.md") Examples.store 1%positive
           "abc123" "" _ Hroot).
Defined.

(** End-to-end scenario 2: the tree of the three files of scenario 1, all
    folders collapsed. *)
Example scenario_collapsed_tree :
  let built := (GitHistoryProvider.buildFileTree
                  (P := PosixPath.posix) (C := CodeUnitOrder.collation)
                  (Examples.autoProvider "/ws/README.md")
                  Examples.store 1%positive "abc123").2 in
  TreeItems.label <$> default [] (built !! "") = ["src"; "old.ts"]
  /\ TreeItems.label <$> default [] (built !! "src") = ["a.ts"; "b.ts"]
  /\ dom built = {[ ""; "src" ]}.
Proof. split; [reflexivity|]. split; [reflexivity|]. by vm_compute. Qed.

(** ** [buildFileTree]: what the tree contains *)

Section TreeContents.
Import TreeItems GitHistoryProvider.
Context {P : NodePath} {C : Collation}.
Implicit Types (tr : gmap string (list TreeItem))
               (fm : gmap string FolderItem) (w : Walk).

Lemma inTree_pushChild item k x tr :
  inTree item (pushChild k x tr) <-> item = x \/ inTree item tr.
Proof.
  unfold inTree, pushChild. split.
  - intros (k' & items & Hk & Hin).
    destruct (decide (k = k')) as [<-|Hne].
    + rewrite lookup_insert_eq in Hk. injection Hk as <-.
      apply elem_of_app in Hin as [Hin|Hin].
      * right. destruct (tr !! k) as [old|] eqn:E; [eauto|].
        by apply elem_of_nil in Hin.
      * left. by apply list_elem_of_singleton in Hin.
    + rewrite lookup_insert_ne in Hk by done. eauto.
  - intros [->|(k' & items & Hk & Hin)].
    + exists k, (default [] (tr !! k) ++ [x]).
      rewrite lookup_insert_eq. split; [done|].
      apply elem_of_app. right. by apply list_elem_of_singleton.
    + destruct (decide (k = k')) as [<-|Hne].
      * exists k, (default [] (tr !! k) ++ [x]).
        rewrite lookup_insert_eq, Hk. split; [done|].
        apply elem_of_app. by left.
      * exists k', items. by rewrite lookup_insert_ne.
Qed.

Lemma addFolder_spec e w name :
  let w' := addFolder e w name in
  currentPath w' = joinFolder (currentPath w) name
  /\ (forall item, inTree item (tree w) -> inTree item (tree w'))
  /\ (forall item, inTree item (tree w') ->
        inTree item (tree w)
        \/ exists f, item = Folder f /\ collapsibleState f = builtState e)
  /\ (forall q, is_Some (folderMap w !! q) -> is_Some (folderMap w' !! q))
  /\ is_Some (folderMap w' !! joinFolder (currentPath w) name)
  /\ (covers (tree w) (folderMap w) -> covers (tree w') (folderMap w')).
Proof.
  unfold addFolder.
  destruct (folderMap w !! joinFolder (currentPath w) name) as [known|] eqn:E;
    cbn [currentPath tree folderMap].
  { rewrite E. repeat split; eauto. }
  split; [done|]. split; [|split; [|split; [|split]]].
  - intros item Hin. apply inTree_pushChild. by right.
  - intros item Hin. apply inTree_pushChild in Hin as [->|Hin]; [|by left].
    right. eexists. by split.
  - intros q Hq. destruct (decide (joinFolder (currentPath w) name = q)) as [<-|Hne].
    + by rewrite lookup_insert_eq.
    + by rewrite lookup_insert_ne.
  - by rewrite lookup_insert_eq.
  - intros Hcov q Hq.
    destruct (decide (joinFolder (currentPath w) name = q)) as [<-|Hne].
    + eexists. split; [apply inTree_pushChild; by left | done].
    + rewrite lookup_insert_ne in Hq by done.
      destruct (Hcov q Hq) as (f & Hf & Hp). exists f. split; [|done].
      apply inTree_pushChild. by right.
Qed.

(** The folder loop of one file. *)
Lemma walk_spec e names : forall w,
  let w' := fold_left (addFolder e) names w in
  (forall item, inTree item (tree w) -> inTree item (tree w'))
  /\ (forall item, inTree item (tree w') ->
        inTree item (tree w)
        \/ exists f, item = Folder f /\ collapsibleState f = builtState e)
  /\ (forall q, is_Some (folderMap w !! q) -> is_Some (folderMap w' !! q))
  /\ (forall q, q ∈ chainFrom (currentPath w) names -> is_Some (folderMap w' !! q))
  /\ (covers (tree w) (folderMap w) -> covers (tree w') (folderMap w')).
Proof.
  induction names as [|name names IH]; intros w; cbn [fold_left chainFrom].
  { repeat split; eauto. intros q Hq. by apply elem_of_nil in Hq. }
  destruct (addFolder_spec e w name) as (Hp & Hkeep & Hnew & Hmap & Hhere & Hcov).
  destruct (IH (addFolder e w name)) as (Hkeep' & Hnew' & Hmap' & Hchain' & Hcov').
  split; [|split; [|split; [|split]]].
  - eauto.
  - intros item Hin. destruct (Hnew' item Hin) as [Hin'|?]; [eauto | by right].
  - eauto.
  - intros q Hq. apply elem_of_cons in Hq as [->|Hq]; [eauto|].
    apply Hchain'. by rewrite Hp.
  - eauto.
Qed.

Lemma Built_empty p : Built p [] ∅ ∅.
Proof.
  split.
  - intros f (k & items & Hk & _). by rewrite lookup_empty in Hk.
  - intros f (k & items & Hk & _). by rewrite lookup_empty in Hk.
  - intros f (k & items & Hk & _). by rewrite lookup_empty in Hk.
  - intros file Hin. by apply elem_of_nil in Hin.
  - intros q [x Hq]. by rewrite lookup_empty in Hq.
  - intros file q Hin. by apply elem_of_nil in Hin.
Qed.

Lemma Built_addFile p hash seen tr fm file :
  Built p seen tr fm ->
  Built p (seen ++ [file])
    (addFile p hash (tr, fm) file).1 (addFile p hash (tr, fm) file).2.
Proof.
  intros [Hfo Hfl Hfi Hseen Hcov Hch]. unfold addFile. cbn [fst snd].
  set (names := removelast (JS.splitBy JS.isPathSeparator (ChangedFile.path file))).
  set (w0 := {| currentPath := ""; tree := tr; folderMap := fm |}).
  destruct (walk_spec (allFoldersExpanded p) names w0)
    as (Hkeep & Hnew & Hmap & Hchain & Hcov').
  cbn [tree folderMap currentPath] in *.
  set (w := fold_left (addFolder (allFoldersExpanded p)) names w0) in *.
  split.
  - intros f Hin. apply inTree_pushChild in Hin as [?|Hin]; [done|].
    destruct (Hnew _ Hin) as [?|(g & [= <-] & ?)]; eauto.
  - intros f Hin. apply inTree_pushChild in Hin as [[= ->]|Hin]; [done|].
    destruct (Hnew _ Hin) as [?|(g & ? & _)]; [eauto | done].
  - intros f Hin. apply inTree_pushChild in Hin as [[= ->]|Hin].
    + exists file. split; [|done]. apply elem_of_app. right.
      by apply list_elem_of_singleton.
    + destruct (Hnew _ Hin) as [Hold|(g & ? & _)]; [|done].
      destruct (Hfi f Hold) as (file' & ? & ?). exists file'.
      split; [|done]. apply elem_of_app. by left.
  - intros file' Hin. apply elem_of_app in Hin as [Hin|Hin].
    + destruct (Hseen file' Hin) as (f & ? & ?). exists f. split; [|done].
      apply inTree_pushChild. right. by apply Hkeep.
    + apply list_elem_of_singleton in Hin as ->.
      eexists. split; [apply inTree_pushChild; by left | done].
  - intros q Hq. destruct (Hcov' Hcov q Hq) as (f & ? & ?).
    exists f. split; [|done]. apply inTree_pushChild. by right.
  - intros file' q Hin Hq. apply elem_of_app in Hin as [Hin|Hin].
    + apply Hmap. by eapply Hch.
    + apply list_elem_of_singleton in Hin as ->. by apply Hchain.
Qed.

Lemma Built_fold p hash files : forall seen tr fm,
  Built p seen tr fm ->
  Built p (seen ++ files)
    (fold_left (addFile p hash) files (tr, fm)).1
    (fold_left (addFile p hash) files (tr, fm)).2.
Proof.
  induction files as [|file files IH]; intros seen tr fm HB; cbn [fold_left].
  { by rewrite app_nil_r. }
  replace (seen ++ file :: files) with ((seen ++ [file]) ++ files)
    by (by rewrite <- app_assoc).
  destruct (addFile p hash (tr, fm) file) as [tr' fm'] eqn:E.
  apply IH. pose proof (Built_addFile p hash seen tr fm file HB) as HB'.
  by rewrite E in HB'.
Qed.

Lemma inTree_sorted cmp item tr :
  inTree item (JS.sort cmp <$> tr) <-> inTree item tr.
Proof.
  unfold inTree. split.
  - intros (k & items & Hk & Hin). rewrite lookup_fmap in Hk.
    apply fmap_Some in Hk as (raw & Hraw & ->).
    exists k, raw. split; [done|]. by apply sort_elem_of in Hin.
  - intros (k & items & Hk & Hin). exists k, (JS.sort cmp items).
    rewrite lookup_fmap, Hk. split; [done|]. by apply sort_elem_of.
Qed.
End TreeContents.

(** ** [expandFoldersToCurrentFile] *)

Section Expansion.
Import TreeItems GitHistoryProvider.
Context {P : NodePath} {C : Collation}.
Implicit Types (tr : gmap string (list TreeItem)).

Lemma findsCurrentFile_spec rel tr :
  findsCurrentFile rel tr = true <->
  exists f, inTree (File f) tr /\ filePath f = rel.
Proof.
  unfold findsCurrentFile, inTree. rewrite existsb_exists. split.
  - intros ([k items] & Hin & Hex). apply existsb_exists in Hex as (item & Hitem & Hat).
    destruct item as [|f]; [done|]. apply String.eqb_eq in Hat.
    exists f. split; [|done]. exists k, items.
    split; [by apply elem_of_map_to_list, list_elem_of_In | by apply list_elem_of_In].
  - intros (f & (k & items & Hk & Hin) & Hf). exists (k, items). split.
    + by apply list_elem_of_In, elem_of_map_to_list.
    + apply existsb_exists. exists (File f).
      split; [by apply list_elem_of_In | by apply String.eqb_eq].
Qed.

Lemma inTree_expandFolder name current item' tr :
  inTree item' (expandFolder name current tr) <->
  exists item, inTree item tr /\ item' = expandItem name current item.
Proof.
  unfold inTree, expandFolder. split.
  - intros (k & items & Hk & Hin). rewrite lookup_fmap in Hk.
    apply fmap_Some in Hk as (raw & Hraw & ->).
    apply list_elem_of_In, in_map_iff in Hin as (item & <- & Hin).
    exists item. split; [|done]. exists k, raw. by rewrite list_elem_of_In.
  - intros (item & (k & items & Hk & Hin) & ->).
    exists k, (map (expandItem name current) items).
    rewrite lookup_fmap, Hk. split; [done|].
    by apply list_elem_of_In, in_map, list_elem_of_In.
Qed.

(** The expansion loop acts on every item by [expandAlong]. *)
Lemma inTree_expand_loop names : forall current tr item',
  inTree item' (fold_left expandStep names (current, tr)).2 <->
  exists item, inTree item tr /\ item' = expandAlong current names item.
Proof.
  induction names as [|name names IH]; intros current tr item';
    cbn [fold_left expandAlong].
  { split; [eauto | by intros (item & ? & ->)]. }
  unfold expandStep at 2. cbn [fst snd]. rewrite IH. split.
  - intros (mid & Hmid & ->). apply inTree_expandFolder in Hmid as (item & ? & ->).
    eauto.
  - intros (item & Hin & ->). eexists. split; [|done].
    apply inTree_expandFolder. eauto.
Qed.

Lemma expandAlong_file names : forall current f,
  expandAlong current names (File f) = File f.
Proof. induction names as [|name names IH]; intros; cbn; [done | apply IH]. Qed.

(** A folder keeps its path; it ends up expanded when its path is on the
    chain (or it was expanded before) and is left alone otherwise. *)
Lemma expandAlong_folder names : forall current f,
  exists f',
    expandAlong current names (Folder f) = Folder f'
    /\ folderPath f' = folderPath f
    /\ (folderPath f ∈ chainFrom current names \/ collapsibleState f = Expanded ->
        collapsibleState f' = Expanded)
    /\ (folderPath f ∉ chainFrom current names -> f' = f).
Proof.
  induction names as [|name names IH]; intros current f;
    cbn [expandAlong chainFrom].
  { exists f. split; [done|]. split; [done|]. split; [|done].
    intros [Hin|?]; [|done]. by apply elem_of_nil in Hin. }
  unfold expandItem.
  destruct (String.eqb_spec (folderPath f) (joinFolder current name)) as [E|E].
  - destruct (IH (joinFolder current name)
                {| folderName := name; folderPath := joinFolder current name;
                   collapsibleState := Expanded |})
      as (f' & -> & Hp & Hex & _).
    exists f'. cbn [folderPath collapsibleState] in *.
    split; [done|]. split; [congruence|]. split; [by intros; apply Hex; right|].
    intros Hnot. exfalso. apply Hnot. rewrite E. by left.
  - destruct (IH (joinFolder current name) f) as (f' & -> & Hp & Hex & Hsame).
    exists f'. split; [done|]. split; [done|]. split.
    + intros [Hin|?]; apply Hex; [|by right].
      apply elem_of_cons in Hin as [?|?]; [done | by left].
    + intros Hnot. apply Hsame. intros ?. apply Hnot. by right.
Qed.
End Expansion.

Section AutoExpand.
Import TreeItems GitHistoryProvider.
Context {P : NodePath} {C : Collation}.

(** What [buildFileTree] returns, in terms of the files in the array. *)
Lemma buildFileTree_contents p h files hash fs :
  h !! files = Some fs ->
  exists tr fm,
    Built p (JS.sort byPath fs) tr fm
    /\ forall item,
         inTree item (buildFileTree p h files hash).2 <-> inTree item tr.
Proof.
  intros Hfs. unfold buildFileTree. cbn [snd].
  assert (Harr : default [] (alter (JS.sort byPath) files h !! files)
                 = JS.sort byPath fs) by (by rewrite lookup_alter_eq, Hfs).
  rewrite Harr.
  pose proof (Built_fold p hash (JS.sort byPath fs) [] ∅ ∅ (Built_empty p)) as HB.
  cbn [app] in HB.
  destruct (fold_left (addFile p hash) (JS.sort byPath fs) (∅, ∅)) as [tr fm].
  exists tr, fm. split; [exact HB|]. intros item. apply inTree_sorted.
Qed.
End AutoExpand.

(** C3, as the code has it.  In the automatic mode (no folder is built
    expanded) [expandFoldersToCurrentFile] looks for a file node whose path
    is exactly the relative path of the current file.  If the changed files
    contain that path, then in the resulting tree the expanded folders are
    exactly the folders on the ancestor chain of the path, and every folder
    of the chain is there; if they do not, the tree is returned as built
    and every folder is collapsed.  The suffix and basename comparisons
    only decide the [isCurrentFile] mark of the file nodes. *)
Theorem auto_expand_follows_exact_match {P : NodePath} {C : Collation}
    (svc : GitService.t) (p : GitHistoryProvider.t) (h : Store) (files : Ref)
    (hash : string) (fs : list ChangedFile.t) (cur : string) :
  h !! files = Some fs ->
  GitHistoryProvider.allFoldersExpanded p = false ->
  GitHistoryProvider.currentFilePath p = Some cur -> cur <> "" ->
  let rel := GitHistoryProvider.relativeCurrentPath svc cur in
  let built := (GitHistoryProvider.buildFileTree p h files hash).2 in
  let final := GitHistoryProvider.expandFoldersToCurrentFile svc p built in
  ((exists file, file ∈ fs /\ ChangedFile.path file = rel) ->
     (forall f, GitHistoryProvider.inTree (TreeItems.Folder f) final ->
        (TreeItems.collapsibleState f = TreeItems.Expanded
         <-> TreeItems.folderPath f ∈ GitHistoryProvider.ancestorPaths rel))
     /\ (forall q, q ∈ GitHistoryProvider.ancestorPaths rel ->
           exists f, GitHistoryProvider.inTree (TreeItems.Folder f) final
                     /\ TreeItems.folderPath f = q
                     /\ TreeItems.collapsibleState f = TreeItems.Expanded))
  /\ ((~ exists file, file ∈ fs /\ ChangedFile.path file = rel) ->
        final = built
        /\ forall f, GitHistoryProvider.inTree (TreeItems.Folder f) final ->
             TreeItems.collapsibleState f = TreeItems.Collapsed)
  /\ (forall f, GitHistoryProvider.inTree (TreeItems.File f) final ->
        TreeItems.isCurrentFile f
        = GitHistoryProvider.isCurrent p (TreeItems.filePath f)).
Proof.
  intros Hfs Hcollapsed Hcur Hne rel built final.
  destruct (buildFileTree_contents p h files hash fs Hfs) as (tr & fm & HB & Htr).
  fold built in Htr. destruct HB as [Hfo Hfl Hfi Hseen Hcov Hch].
  rewrite Hcollapsed in Hfo. cbn [GitHistoryProvider.builtState] in Hfo.
  assert (Hfound : GitHistoryProvider.findsCurrentFile rel built = true
                   <-> exists file, file ∈ fs /\ ChangedFile.path file = rel).
  { rewrite findsCurrentFile_spec. split.
    - intros (f & Hin & Hf). apply Htr, Hfi in Hin as (file & Hfile & Hp).
      exists file. split; [by apply sort_elem_of in Hfile | congruence].
    - intros (file & Hfile & Hp). apply (sort_elem_of GitHistoryProvider.byPath) in Hfile.
      destruct (Hseen file Hfile) as (f & Hin & Hf). exists f.
      split; [by apply Htr | congruence]. }
  assert (Hfinal : final = if GitHistoryProvider.findsCurrentFile rel built
                           then (fold_left GitHistoryProvider.expandStep
                                   (removelast (JS.splitBy JS.isPathSeparator rel))
                                   ("", built)).2
                           else built).
  { subst final. unfold GitHistoryProvider.expandFoldersToCurrentFile.
    rewrite Hcur. by apply truthy_nonempty in Hne as ->. }
  split; [|split].
  - intros Hex. apply Hfound in Hex as Hyes. rewrite Hyes in Hfinal. split.
    + intros f' Hin. rewrite Hfinal in Hin.
      apply inTree_expand_loop in Hin as (item & Hitem & Heq).
      destruct item as [f|f]; [|by rewrite expandAlong_file in Heq].
      destruct (expandAlong_folder
                  (removelast (JS.splitBy JS.isPathSeparator rel)) "" f)
        as (f'' & Hf'' & Hp & Hon & Hoff).
      rewrite Hf'' in Heq. injection Heq as ->. rewrite Hp.
      fold (GitHistoryProvider.ancestorPaths rel) in Hon, Hoff.
      split; [|by intros; apply Hon; left].
      intros Hexp.
      destruct (decide (TreeItems.folderPath f ∈ GitHistoryProvider.ancestorPaths rel))
        as [?|Hnot]; [done|].
      rewrite (Hoff Hnot) in Hexp. apply Htr, Hfo in Hitem. congruence.
    + intros q Hq. destruct Hex as (file & Hfile & Hp).
      apply (sort_elem_of GitHistoryProvider.byPath) in Hfile.
      rewrite <- Hp in Hq. destruct (Hcov q (Hch file q Hfile Hq)) as (f & Hin & Hf).
      destruct (expandAlong_folder
                  (removelast (JS.splitBy JS.isPathSeparator rel)) "" f)
        as (f' & Hf' & Hp' & Hon & _).
      exists f'. split; [|split; [congruence|]].
      * rewrite Hfinal. apply inTree_expand_loop. exists (TreeItems.Folder f).
        split; [by apply Htr | done].
      * apply Hon. left. rewrite Hf. by rewrite Hp in Hq.
  - intros Hno. destruct (GitHistoryProvider.findsCurrentFile rel built) eqn:E.
    { exfalso. by apply Hno, Hfound. }
    split; [done|]. intros f Hin. rewrite Hfinal in Hin. by apply Htr, Hfo in Hin.
  - intros f Hin. apply Hfl, Htr. rewrite Hfinal in Hin.
    destruct (GitHistoryProvider.findsCurrentFile rel built); [|done].
    apply inTree_expand_loop in Hin as (item & Hitem & Heq).
    destruct item as [g|g].
    + destruct (expandAlong_folder
                  (removelast (JS.splitBy JS.isPathSeparator rel)) "" g)
        as (g' & Hg' & _). by rewrite Hg' in Heq.
    + rewrite expandAlong_file in Heq. by injection Heq as ->.
Qed.

Lemma auto_expand_follows_exact_match_witness :
  let cur := "/ws/src/a.ts" in
  let p := Examples.autoProvider cur in
  let final :=
    GitHistoryProvider.expandFoldersToCurrentFile
      (P := PosixPath.posix) Examples.plainService p
      (GitHistoryProvider.buildFileTree
         (P := PosixPath.posix) (C := CodeUnitOrder.collation)
         p Examples.store 1%positive "abc123").2 in
  Examples.store !! 1%positive = Some Examples.changedFiles
  /\ GitHistoryProvider.allFoldersExpanded p = false
  /\ GitHistoryProvider.currentFilePath p = Some cur
  /\ cur <> ""
  /\ (exists file,
        file ∈ Examples.changedFiles
        /\ ChangedFile.path file
           = GitHistoryProvider.relativeCurrentPath
               (P := PosixPath.posix) Examples.plainService cur)
  /\ exists f,
       GitHistoryProvider.inTree (TreeItems.Folder f) final
       /\ TreeItems.folderPath f = "src"
       /\ TreeItems.collapsibleState f = TreeItems.Expanded.
Proof.
  intros cur p final.
  assert (Hfs : Examples.store !! 1%positive = Some Examples.changedFiles)
    by reflexivity.
  assert (Hcol : GitHistoryProvider.allFoldersExpanded p = false) by reflexivity.
  assert (Hcur : GitHistoryProvider.currentFilePath p = Some cur) by reflexivity.
  assert (Hne : cur <> "") by discriminate.
  assert (Hex : exists file,
             file ∈ Examples.changedFiles
             /\ ChangedFile.path file
                = GitHistoryProvider.relativeCurrentPath
                    (P := PosixPath.posix) Examples.plainService cur).
  { exists {| ChangedFile.path := "src/a.ts"; ChangedFile.status := modified |}.
    split; [left | reflexivity]. }
  destruct (auto_expand_follows_exact_match
              (P := PosixPath.posix) (C := CodeUnitOrder.collation)
              Examples.plainService p Examples.store 1%positive "abc123"
              Examples.changedFiles cur Hfs Hcol Hcur Hne)
    as (Hexact & _ & _).
  destruct (Hexact Hex) as (_ & Hchain).
  repeat (split; [assumption|]).
  apply Hchain. left.
Defined.

(** C3, as the claim states it, fails when the current file is matched by
    its basename only: the file [src/a.ts] is the one a fallback locates
    for [/ws/lib/a.ts] and it is marked as current, but its ancestor [src]
    stays collapsed, because no file node has the path [lib/a.ts]. *)
Lemma basename_match_expands_nothing :
  let cur := "/ws/lib/a.ts" in
  let p := Examples.autoProvider cur in
  let rel := GitHistoryProvider.relativeCurrentPath
               (P := PosixPath.posix) Examples.plainService cur in
  let final :=
    GitHistoryProvider.expandFoldersToCurrentFile
      (P := PosixPath.posix) Examples.plainService p
      (GitHistoryProvider.buildFileTree
         (P := PosixPath.posix) (C := CodeUnitOrder.collation)
         p Examples.store 1%positive "abc123").2 in
  rel = "lib/a.ts"
  /\ Spec.locateTarget (P := PosixPath.posix) cur rel
       (ChangedFile.path <$> Examples.changedFiles) = Some "src/a.ts"
  /\ GitHistoryProvider.ancestorPaths "src/a.ts" = ["src"]
  /\ final !! "src"
     = Some [ TreeItems.File
                {| TreeItems.fileName := "a.ts"; TreeItems.commitHash := "abc123";
                   TreeItems.filePath := "src/a.ts";
                   TreeItems.isCurrentFile := true;
                   TreeItems.status := modified |};
              TreeItems.File
                {| TreeItems.fileName := "b.ts"; TreeItems.commitHash := "abc123";
                   TreeItems.filePath := "src/b.ts";
                   TreeItems.isCurrentFile := false;
                   TreeItems.status := added |} ]
  /\ final !! ""
     = Some [ TreeItems.Folder
                {| TreeItems.folderName := "src"; TreeItems.folderPath := "src";
                   TreeItems.collapsibleState := TreeItems.Collapsed |};
              TreeItems.File
                {| TreeItems.fileName := "old.ts"; TreeItems.commitHash := "abc123";
                   TreeItems.filePath := "old.ts";
                   TreeItems.isCurrentFile := false;
                   TreeItems.status := deleted |} ].
Proof. repeat (split; [reflexivity|]). reflexivity. Qed.

(** ** The fold policies *)

(** Every command keeps the automatic mode free of built-expanded folders,
    so the automatic mode is the policy that expands to the current file
    only. *)
Lemma fold_commands_keep_policy (p : GitHistoryProvider.t) (hash : string) :
  GitHistoryProvider.policyConsistent p ->
  GitHistoryProvider.policyConsistent (GitHistoryProvider.setFocusedCommit p hash)
  /\ GitHistoryProvider.policyConsistent (GitHistoryProvider.clearFocusedCommit p)
  /\ GitHistoryProvider.policyConsistent (GitHistoryProvider.foldAll p)
  /\ GitHistoryProvider.policyConsistent (GitHistoryProvider.unfoldAll p).
Proof.
  unfold GitHistoryProvider.policyConsistent. intros Hp.
  split; [exact Hp|]. split; [done|]. split; [done|]. simpl. discriminate.
Qed.

(** In the automatic mode the tree that [getFilesForCommit] registers for
    the commit is the built tree after the expansion. *)
Lemma rebuild_auto {P : NodePath} {C : Collation}
    (svc : GitService.t) (p : GitHistoryProvider.t) (h : Store) (files : Ref)
    (hash : string) :
  GitHistoryProvider.manualFoldState p = GitHistoryProvider.auto ->
  GitHistoryProvider.commitFiles
    (GitHistoryProvider.rebuild svc p h files hash).2 !! hash
  = Some (GitHistoryProvider.expandFoldersToCurrentFile svc p
            (GitHistoryProvider.buildFileTree p h files hash).2).
Proof.
  intros Hauto. unfold GitHistoryProvider.rebuild.
  destruct (GitHistoryProvider.buildFileTree p h files hash) as [h' built].
  rewrite Hauto. cbn. by rewrite lookup_insert_eq.
Qed.

(** ** Header lines carry what the parser reads from them *)

Section HeaderFacts.
Import BlameParser.

Lemma splitBy_cons sep c s :
  sep c = false ->
  JS.splitBy sep (String c s)
  = match JS.splitBy sep s with
    | w :: ws => String c w :: ws
    | [] => [String c ""]
    end.
Proof. intros Hc. simpl. by rewrite Hc. Qed.

Lemma splitBy_nonempty sep s : JS.splitBy sep s <> [].
Proof.
  destruct s as [|c s]; simpl; [done|].
  destruct (sep c); [done|]. by destruct (JS.splitBy sep s).
Qed.

(** A run without separator, then a separator: the run is the first part. *)
Lemma splitBy_prefix sep pre c rest :
  forallb (fun x => negb (sep x)) pre = true -> sep c = true ->
  JS.splitBy sep (JS.str (pre ++ c :: rest))
  = JS.str pre :: JS.splitBy sep (JS.str rest).
Proof.
  intros Hpre Hc. induction pre as [|x pre IH]; simpl in *.
  - by rewrite Hc.
  - apply andb_prop in Hpre as [Hx Hpre]. apply negb_true_iff in Hx.
    rewrite Hx. fold (JS.str (pre ++ c :: rest)). by rewrite IH.
Qed.

Lemma digit_not_space c : JS.isDigit c = true -> JS.isSpaceChar c = false.
Proof.
  intros H. unfold JS.isSpaceChar, JS.isChar.
  destruct (Ascii.eqb_spec " " c) as [<-|]; [discriminate H | done].
Qed.

Lemma digit_not_whiteSpace c : JS.isDigit c = true -> JS.isWhiteSpace c = false.
Proof.
  intros H. destruct (JS.isWhiteSpace c) eqn:E; [|done].
  apply whiteSpace_not_digit in E. congruence.
Qed.

Lemma digit_not_sign c :
  JS.isDigit c = true -> JS.isChar "-" c = false /\ JS.isChar "+" c = false.
Proof.
  intros H. unfold JS.isChar.
  split; [destruct (Ascii.eqb_spec "-" c) as [<-|]
         | destruct (Ascii.eqb_spec "+" c) as [<-|]];
    first [discriminate H | done].
Qed.

Lemma parseInt_leading_digit d s :
  JS.isDigit d = true -> is_Some (JS.parseInt (String d s)).
Proof.
  intros Hd. unfold JS.parseInt. cbn [JS.chars list_ascii_of_string JS.dropWhile].
  rewrite (digit_not_whiteSpace d Hd).
  destruct (digit_not_sign d Hd) as [-> ->].
  cbn [JS.takeWhile]. rewrite Hd. eauto.
Qed.

Lemma forallb_take_weaken {A} (p q : A -> bool) l :
  (forall x, p x = true -> q x = true) ->
  forallb p l = true -> forallb q l = true.
Proof.
  intros Hpq. induction l as [|x l IH]; simpl; [done|].
  intros H. apply andb_prop in H as [Hx Hl]. by rewrite (Hpq x Hx), IH.
Qed.

Lemma header_parts_of_chars cs sp1 r1 d1 ds1 sp2 d rest :
  forallb JS.isLowerHex (take 40 cs) = true ->
  drop 40 cs = sp1 :: r1 -> JS.isSpaceChar sp1 = true ->
  JS.takeWhile JS.isDigit r1 = d1 :: ds1 ->
  JS.dropWhile JS.isDigit r1 = sp2 :: d :: rest ->
  JS.isSpaceChar sp2 = true -> JS.isDigit d = true ->
  JS.splitBy JS.isSpaceChar (JS.str cs) !! 0%nat = Some (JS.str (take 40 cs))
  /\ is_Some (JS.splitBy JS.isSpaceChar (JS.str cs) !! 2%nat ≫= JS.parseInt).
Proof.
  intros Hhex Hdrop Hsp1 Htake Hrest Hsp2 Hd.
  pose proof (takeWhile_all JS.isDigit r1) as Hd1.
  assert (Hcs : cs = take 40 cs ++ sp1 :: JS.takeWhile JS.isDigit r1
                       ++ sp2 :: d :: rest).
  { rewrite <- Hrest, takeWhile_dropWhile, <- Hdrop. by rewrite take_drop. }
  rewrite Hcs at 1 3.
  rewrite splitBy_prefix; [|by eapply forallb_take_weaken;
    [intros x Hx; by rewrite (lowerHex_not_space x Hx)|] | done].
  rewrite splitBy_prefix; [|by eapply forallb_take_weaken;
    [intros x Hx; by rewrite (digit_not_space x Hx)|] | done].
  split; [done|]. cbn [lookup list_lookup].
  change (JS.str (d :: rest)) with (String d (JS.str rest)).
  rewrite splitBy_cons by (by apply digit_not_space).
  pose proof (splitBy_nonempty JS.isSpaceChar (JS.str rest)) as Hne.
  destruct (JS.splitBy JS.isSpaceChar (JS.str rest)) as [|w ws]; [done|].
  cbn. by apply parseInt_leading_digit.
Qed.

(** On a header line [parts[0]] is the forty characters of the hash and
    [parseInt(parts[2], 10)] is a number: the defaults that stand for
    [undefined] and [NaN] in [onHeader] are never taken. *)
Lemma header_parts_defined line :
  isHeaderLine line = true ->
  part 0 line = Some (JS.str (take 40 (JS.chars line)))
  /\ is_Some (part 2 line ≫= JS.parseInt).
Proof.
  unfold isHeaderLine, part. intros H.
  apply andb_prop in H as [H Htail]. apply andb_prop in H as [_ Hhex].
  destruct (drop 40 (JS.chars line)) as [|sp1 r1] eqn:Hdrop; [done|].
  apply andb_prop in Htail as [Hsp1 Htail].
  destruct (JS.takeWhile JS.isDigit r1) as [|d1 ds1] eqn:Htake; [done|].
  destruct (JS.dropWhile JS.isDigit r1) as [|sp2 [|d rest]] eqn:Hrest; [done..|].
  apply andb_prop in Htail as [Hsp2 Hd].
  rewrite <- (str_chars line) at 1 3.
  by eapply header_parts_of_chars.
Qed.
End HeaderFacts.

(** * Further properties *)

(** ** The cache as a filter *)

Section CacheAlgebra.
Context {T : Type}.
Implicit Types (cache : gmap string (CacheManager.CacheEntry T)).

Lemma invalidate_as_filter cache fp :
  fp <> "" ->
  CacheManager.invalidate cache (Some fp)
  = filter (fun kv => CacheManager.filePath kv.2 <> fp) cache.
Proof.
  intros Hfp. apply map_eq. intros k.
  rewrite invalidate_tagged_lookup by done.
  destruct (cache !! k) as [entry|] eqn:Hk.
  - destruct (String.eqb_spec (CacheManager.filePath entry) fp) as [E|E].
    + symmetry. apply map_lookup_filter_None. right. intros x Hx.
      rewrite Hk in Hx. injection Hx as <-. simpl. by intros ?.
    + symmetry. by apply map_lookup_filter_Some.
  - symmetry. apply map_lookup_filter_None. by left.
Qed.
End CacheAlgebra.

(** X1. [invalidate(filePath)] keeps exactly the entries with another tag;
    invalidating a file twice is invalidating it once, the order in which
    two files are invalidated does not matter, and no invalidation adds an
    entry. *)
Theorem invalidate_filters_by_tag {T : Type}
    (cache : gmap string (CacheManager.CacheEntry T)) (fp fp' : string) :
  fp <> "" -> fp' <> "" ->
  CacheManager.invalidate cache (Some fp)
    = filter (fun kv => CacheManager.filePath kv.2 <> fp) cache
  /\ CacheManager.invalidate (CacheManager.invalidate cache (Some fp)) (Some fp)
     = CacheManager.invalidate cache (Some fp)
  /\ CacheManager.invalidate (CacheManager.invalidate cache (Some fp)) (Some fp')
     = CacheManager.invalidate (CacheManager.invalidate cache (Some fp')) (Some fp)
  /\ CacheManager.invalidate cache (Some fp) ⊆ cache.
Proof.
  intros Hfp Hfp'. split; [by apply invalidate_as_filter|].
  split; [|split].
  - apply map_eq. intros k. rewrite !invalidate_tagged_lookup by done.
    destruct (cache !! k) as [entry|]; [|done].
    by destruct (String.eqb (CacheManager.filePath entry) fp) eqn:E; [|rewrite E].
  - apply map_eq. intros k. rewrite !invalidate_tagged_lookup by done.
    destruct (cache !! k) as [entry|]; [|done].
    destruct (String.eqb (CacheManager.filePath entry) fp) eqn:E,
             (String.eqb (CacheManager.filePath entry) fp') eqn:E';
      by rewrite ?E, ?E'.
  - rewrite invalidate_as_filter by done. apply map_filter_subseteq.
Qed.

Lemma invalidate_filters_by_tag_witness :
  "/ws/a.ts" <> "" /\ "/ws/b.ts" <> ""
  /\ CacheManager.invalidate
       (CacheManager.invalidate Examples.taggedCache (Some "/ws/a.ts"))
       (Some "/ws/b.ts")
     = CacheManager.invalidate
         (CacheManager.invalidate Examples.taggedCache (Some "/ws/b.ts"))
         (Some "/ws/a.ts").
Proof.
  assert (Ha : "/ws/a.ts" <> "") by discriminate.
  assert (Hb : "/ws/b.ts" <> "") by discriminate.
  split; [exact Ha|]. split; [exact Hb|].
  exact (proj1 (proj2 (proj2
    (invalidate_filters_by_tag Examples.taggedCache "/ws/a.ts" "/ws/b.ts" Ha Hb)))).
Defined.

(** X2. [set] replaces an entry with its tags: a key stored again under
    another file answers with the last payload, is no longer evicted with
    the first file and is evicted with the second; other keys keep what
    they held. *)
Theorem set_replaces_payload_and_tags {T : Type}
    (cache : gmap string (CacheManager.CacheEntry T)) (key : string)
    (d d' : T) (tagA tagB : string) (now now' : Z) (ch ch' : option string) :
  tagA <> "" -> tagB <> "" -> tagA <> tagB ->
  let again :=
    CacheManager.set now' (CacheManager.set now cache key d tagA ch)
      key d' tagB ch' in
  CacheManager.get again key = Some d'
  /\ CacheManager.get (CacheManager.invalidate again (Some tagA)) key = Some d'
  /\ CacheManager.get (CacheManager.invalidate again (Some tagB)) key = None
  /\ (forall other, other <> key ->
        CacheManager.get again other = CacheManager.get cache other).
Proof.
  intros HA HB Hne again. subst again. unfold CacheManager.get, CacheManager.set.
  rewrite !invalidate_tagged_lookup by done. rewrite !lookup_insert_eq. simpl.
  rewrite String.eqb_refl.
  destruct (String.eqb_spec tagB tagA) as [E|_]; [by subst|].
  repeat (split; [done|]). intros other Ho. by rewrite !lookup_insert_ne.
Qed.

Lemma set_replaces_payload_and_tags_witness :
  "/ws/a.ts" <> "" /\ "/ws/b.ts" <> "" /\ "/ws/a.ts" <> "/ws/b.ts"
  /\ CacheManager.get
       (CacheManager.invalidate
          (CacheManager.set 2 (CacheManager.set 1 ∅ "k" (Content "one")
                                 "/ws/a.ts" None)
             "k" (Content "two") "/ws/b.ts" None)
          (Some "/ws/a.ts")) "k"
     = Some (Content "two").
Proof.
  assert (Ha : "/ws/a.ts" <> "") by discriminate.
  assert (Hb : "/ws/b.ts" <> "") by discriminate.
  assert (Hab : "/ws/a.ts" <> "/ws/b.ts") by discriminate.
  split; [exact Ha|]. split; [exact Hb|]. split; [exact Hab|].
  exact (proj1 (proj2
    (set_replaces_payload_and_tags ∅ "k" (Content "one") (Content "two")
       "/ws/a.ts" "/ws/b.ts" 1 2 None None Ha Hb Hab))).
Defined.

(** ** The resolver *)

Lemma startsWith_append a b : JS.startsWith (a +:+ b) a = true.
Proof.
  induction a as [|c a IH]; [done|].
  change (String c a +:+ b) with (String c (a +:+ b)).
  cbn [JS.startsWith]. by rewrite Ascii.eqb_refl, IH.
Qed.

Lemma substringFrom_append a b :
  JS.substringFrom (String.length a) (a +:+ b) = b.
Proof. induction a as [|c a IH]; [done | exact IH]. Qed.

Lemma hasBackslash_replaceBackslashes s :
  JS.hasBackslash (JS.replaceBackslashes s) = false.
Proof.
  unfold JS.hasBackslash, JS.chars.
  induction s as [|c s IH]; [done|].
  cbn [JS.replaceBackslashes list_ascii_of_string existsb]. rewrite IH.
  destruct (JS.isChar "\" c) eqn:E; [done | by rewrite E].
Qed.

(** The first element a search accepts, and what stands before it. *)
Lemma find_first {A} (p : A -> bool) l x :
  find p l = Some x ->
  exists l1 l2, l = l1 ++ x :: l2 /\ p x = true /\ forallb (fun y => negb (p y)) l1 = true.
Proof.
  induction l as [|y l IH]; [done|]. cbn [find].
  destruct (p y) eqn:E.
  - intros [= <-]. by exists [], l.
  - intros Hx. destruct (IH Hx) as (l1 & l2 & -> & Hp & Hl1).
    exists (y :: l1), l2. cbn. by rewrite E, Hl1.
Qed.

Lemma find_nothing {A} (p : A -> bool) l :
  find p l = None -> forallb (fun y => negb (p y)) l = true.
Proof.
  induction l as [|y l IH]; [done|]. cbn [find forallb].
  destruct (p y); [done|]. intros H. by rewrite IH.
Qed.

(** X3. The resolver answers with the first registered submodule whose
    directory is a prefix of the file, before it considers the main
    repository; it answers with the main repository when no submodule
    matches and the workspace is a repository, and only otherwise with
    nothing. *)
Theorem resolver_prefers_submodules {P : NodePath} (s : GitService.t)
    (filePath : string) :
  match GitService.getRepoForFile s filePath with
  | Some repo =>
      (exists path earlier later,
          GitService.submoduleRepos s = earlier ++ (path, repo) :: later
          /\ underSubmodule s filePath (path, repo) = true
          /\ forallb (fun e => negb (underSubmodule s filePath e)) earlier = true)
      \/ (forallb (fun e => negb (underSubmodule s filePath e))
            (GitService.submoduleRepos s) = true
          /\ GitService.isGitRepo s = true
          /\ repo = {| root := GitService.workspaceRoot s;
                       git := GitService.mainGit s |})
  | None =>
      forallb (fun e => negb (underSubmodule s filePath e))
        (GitService.submoduleRepos s) = true
      /\ GitService.isGitRepo s = false
  end.
Proof.
  unfold GitService.getRepoForFile.
  destruct (find _ (GitService.submoduleRepos s)) as [[path repo]|] eqn:Hfind.
  - left. apply find_first in Hfind as (l1 & l2 & ? & ? & ?).
    by exists path, l1, l2.
  - apply find_nothing in Hfind.
    destruct (GitService.isGitRepo s); [right|]; done.
Qed.

(** X4. Whatever goes in, the relative path that comes out has no
    backslash. *)
Theorem relative_path_has_no_backslash {P : NodePath} (filePath repoRoot : string) :
  JS.hasBackslash (GitService.getRelativePathForRepo filePath repoRoot) = false.
Proof.
  unfold GitService.getRelativePathForRepo.
  destruct (JS.startsWith _ _); apply hasBackslash_replaceBackslashes.
Qed.

(** X5. A file whose normal form continues the normal form of the root is
    returned without the root and without one separator that follows it;
    the root is compared as a string, so the rest need not begin at a
    separator. *)
Theorem relative_path_strips_the_root {P : NodePath}
    (filePath repoRoot rest : string) :
  normalize filePath = normalize repoRoot +:+ rest ->
  GitService.getRelativePathForRepo filePath repoRoot
  = JS.replaceBackslashes
      (if JS.startsWith rest (String sep "") then JS.substringFrom 1 rest
       else rest).
Proof.
  intros Hn. unfold GitService.getRelativePathForRepo.
  by rewrite Hn, startsWith_append, substringFrom_append.
Qed.

Lemma relative_path_strips_the_root_witness :
  PosixPath.posixNormalize "/ws//src/./a.ts"
    = PosixPath.posixNormalize "/ws/" +:+ "src/a.ts"
  /\ GitService.getRelativePathForRepo (P := PosixPath.posix)
       "/ws//src/./a.ts" "/ws/" = "src/a.ts".
Proof.
  assert (Hn : normalize (NodePath := PosixPath.posix) "/ws//src/./a.ts"
               = normalize (NodePath := PosixPath.posix) "/ws/" +:+ "src/a.ts")
    by reflexivity.
  split; [exact Hn|].
  exact (relative_path_strips_the_root (P := PosixPath.posix)
           "/ws//src/./a.ts" "/ws/" "src/a.ts" Hn).
Defined.

(** ** What the name-status parser emits *)

Lemma matchNameStatus_one_line line code p :
  GitService.matchNameStatus line = Some (code, p) ->
  forallb (fun x => negb (JS.isLineTerminator x)) (JS.chars p) = true.
Proof.
  unfold GitService.matchNameStatus.
  destruct (JS.chars line) as [|c rest]; [done|].
  destruct (GitService.isStatusLetter c); [|done].
  destruct (JS.takeWhile JS.isWhiteSpace _) as [|b more]; [done|].
  destruct (JS.dropWhile JS.isWhiteSpace _) as [|t tail] eqn:Htail.
  - destruct (rev more) as [|final ?]; [done|].
    destruct (JS.isLineTerminator final) eqn:Hf; [done|].
    intros Heq. assert (p = JS.str [final]) as -> by congruence.
    rewrite chars_str. cbn. by rewrite Hf.
  - destruct (forallb _ (t :: tail)) eqn:Hall; [|done].
    intros Heq. assert (p = JS.str (t :: tail)) as -> by congruence.
    by rewrite chars_str.
Qed.

(** X6. Every record the name-status parser emits has a status other
    than [unchanged] (the last branch of the status test is never taken)
    and a path that is not empty and holds no line terminator. *)
Theorem parsed_files_are_well_formed (result : string) (f : ChangedFile.t) :
  f ∈ GitService.parseNameStatus result ->
  ChangedFile.status f <> unchanged
  /\ ChangedFile.path f <> ""
  /\ forallb (fun x => negb (JS.isLineTerminator x))
       (JS.chars (ChangedFile.path f)) = true.
Proof.
  unfold GitService.parseNameStatus. intros Hf.
  apply list_elem_of_omap in Hf as (line & _ & Hline).
  unfold GitService.parseNameStatusLine in Hline.
  destruct (GitService.matchNameStatus line) as [[code p]|] eqn:Hm; [|done].
  injection Hline as <-. cbn [ChangedFile.status ChangedFile.path].
  pose proof (matchNameStatus_one_line _ _ _ Hm) as Hone.
  apply matchNameStatus_sound in Hm
    as (c & digits & blanks & _ & -> & Hc & _ & _ & _ & Hp).
  split; [|done].
  rewrite (statusOf_letter c digits Hc).
  unfold GitService.isStatusLetter in Hc. cbn [existsb] in Hc.
  repeat (apply orb_prop in Hc as [Hc|Hc];
          [apply Ascii.eqb_eq in Hc as ->; discriminate|]).
  discriminate Hc.
Qed.

Lemma parsed_files_are_well_formed_witness :
  let f := {| ChangedFile.path := "old.ts" +:+ Examples.TAB +:+ "new.ts";
              ChangedFile.status := modified |} in
  f ∈ GitService.parseNameStatus Examples.renameLine
  /\ ChangedFile.status f <> unchanged.
Proof.
  assert (Hf : {| ChangedFile.path := "old.ts" +:+ Examples.TAB +:+ "new.ts";
                  ChangedFile.status := modified |}
               ∈ GitService.parseNameStatus Examples.renameLine)
    by (vm_compute; constructor).
  split; [exact Hf|].
  exact (proj1 (parsed_files_are_well_formed Examples.renameLine _ Hf)).
Defined.

(** ** Failing and repeated reads *)

Section ReadFacts.
Context {P : NodePath}.
Implicit Types (s : GitService.t) (h : Store).

Lemma noFiles_fresh h s :
  exists r, GitService.noFiles h s = (Files r, <[r := []]> h, s) /\ h !! r = None.
Proof.
  unfold GitService.noFiles.
  pose proof (alloc_fresh h []) as Hfresh.
  destruct (alloc h []) as [r h'] eqn:Ha. unfold alloc in Ha.
  injection Ha as <- <-. eauto.
Qed.

Lemma getChangedFiles_done now h s hash fp res :
  GitService.getChangedFiles now h s hash fp = Done res ->
  (exists cached, CacheManager.get (GitService.cache s) (GitService.filesKey hash)
                  = Some cached /\ res = (cached, h, s))
  \/ (res = GitService.noFiles h s
      /\ exists f, fp = Some f /\ f <> "" /\ GitService.getRepoForFile s f = None).
Proof.
  assert (Hmiss :
    match fp with
    | Some f =>
        if JS.truthy f then
          match GitService.getRepoForFile s f with
          | Some repo =>
              Ask (Show (git repo) ["--name-status"; "--pretty=format:"; hash])
                  (GitService.changedFilesAnswer now h s hash)
          | None => Done (GitService.noFiles h s)
          end
        else Ask (Show (GitService.mainGit s)
                    ["--name-status"; "--pretty=format:"; hash])
                 (GitService.changedFilesAnswer now h s hash)
    | None => Ask (Show (GitService.mainGit s)
                     ["--name-status"; "--pretty=format:"; hash])
                  (GitService.changedFilesAnswer now h s hash)
    end = Done res ->
    res = GitService.noFiles h s
    /\ exists f, fp = Some f /\ f <> "" /\ GitService.getRepoForFile s f = None).
  { destruct fp as [f|]; [|done].
    destruct (JS.truthy f) eqn:Hf; [|done].
    destruct (GitService.getRepoForFile s f) eqn:Hr; [done|].
    intros [= <-]. split; [done|]. exists f. by rewrite <- truthy_nonempty. }
  unfold GitService.getChangedFiles.
  destruct (CacheManager.get _ _) as [cached|] eqn:Hc; [|by right; apply Hmiss].
  destruct (payloadTruthy cached); [|by right; apply Hmiss].
  intros [= <-]. left. eauto.
Qed.

End ReadFacts.

(** X7. A call of [getChangedFiles] that misses the cache and gets no
    answer (the query is rejected, or there is no repository for the
    file) returns a new empty array and leaves the service as it was, so
    that the next call asks the same question again. *)
Theorem failed_changed_files_read_leaves_no_trace {P : NodePath}
    (now : Z) (h : Store) (s : GitService.t) (hash : string)
    (fp : option string) (oracle : GitQuery -> option string) :
  CacheManager.get (GitService.cache s) (GitService.filesKey hash) = None ->
  (forall q, asked (GitService.getChangedFiles now h s hash fp) = Some q ->
             oracle q = None) ->
  exists r,
    run oracle (GitService.getChangedFiles now h s hash fp)
      = (Files r, <[r := []]> h, s)
    /\ h !! r = None
    /\ forall now' h',
         asked (GitService.getChangedFiles now' h' s hash fp)
         = asked (GitService.getChangedFiles now h s hash fp).
Proof.
  intros Hmiss Hfail.
  destruct (noFiles_fresh h s) as (r & Hno & Hr). exists r.
  split; [|split; [done|]].
  - destruct (GitService.getChangedFiles now h s hash fp) as [res|q k] eqn:Hcall.
    + apply getChangedFiles_done in Hcall as [(c & Hc & _)|(-> & _)];
        [congruence | done].
    + pose proof (getChangedFiles_asks _ _ _ _ _ _ _ Hcall) as ->.
      cbn [run]. by rewrite (Hfail q eq_refl).
  - intros now' h'. unfold GitService.getChangedFiles. rewrite Hmiss.
    destruct fp as [f|]; [|done].
    destruct (JS.truthy f); [|done].
    by destruct (GitService.getRepoForFile s f).
Qed.

Lemma failed_changed_files_read_leaves_no_trace_witness :
  exists r,
    run (fun _ => None)
        (GitService.getChangedFiles (P := PosixPath.posix) 7 Examples.store
           Examples.plainService "abc123" (Some "/ws/a.ts"))
      = (Files r, <[r := []]> Examples.store, Examples.plainService)
    /\ Examples.store !! r = None.
Proof.
  destruct (failed_changed_files_read_leaves_no_trace (P := PosixPath.posix)
              7 Examples.store Examples.plainService "abc123"
              (Some "/ws/a.ts") (fun _ => None))
    as (r & Hrun & Hr & _); [reflexivity | reflexivity |].
  exists r. by split.
Defined.

(** ** [getFileContent]: hits and invalidation *)

Section ContentCaching.
Context {P : NodePath}.
Implicit Types (s : GitService.t).

Lemma get_lookup {T} (cache : gmap string (CacheManager.CacheEntry T)) key :
  CacheManager.get cache key = CacheManager.data <$> cache !! key.
Proof. unfold CacheManager.get. by destruct (cache !! key). Qed.

Lemma getFileContent_hit now s hash fp cached :
  CacheManager.get (GitService.cache s) (GitService.contentKey hash fp)
    = Some cached ->
  payloadTruthy cached = true ->
  GitService.getFileContent now s hash fp = Done (cached, s).
Proof.
  intros Hget Ht. unfold GitService.getFileContent. by rewrite Hget, Ht.
Qed.

(** A miss that comes back with text has asked the repository and stored
    the text under the tag of the file. *)
Lemma getFileContent_stores now oracle s hash fp content s1 :
  noUsableContent hash fp s ->
  run oracle (GitService.getFileContent now s hash fp) = (Content content, s1) ->
  content <> "" ->
  exists repo,
    GitService.getRepoForFile s fp = Some repo
    /\ s1 = GitService.withCache s
              (CacheManager.set now (GitService.cache s)
                 (GitService.contentKey hash fp) (Content content) fp (Some hash)).
Proof.
  intros Hmiss Hrun Hne.
  destruct (GitService.getRepoForFile s fp) as [repo|] eqn:Hrepo.
  - exists repo. split; [done|].
    rewrite (getFileContent_requeries now s hash fp repo Hrepo Hmiss) in Hrun.
    cbn [run] in Hrun. unfold GitService.contentAnswer in Hrun.
    destruct (oracle _) as [c|]; [|congruence].
    injection Hrun as -> <-. done.
  - rewrite (getFileContent_without_repo now s hash fp) in Hrun; [|done..].
    cbn [run] in Hrun. congruence.
Qed.

End ContentCaching.

(** X8. Text that [getFileContent] has fetched is served without a
    query by every later call, also after the invalidation of another
    file; after [invalidateCache()] or the invalidation of the file
    itself the repository is asked again. *)
Theorem content_is_cached_until_invalidated {P : NodePath}
    (now : Z) (oracle : GitQuery -> option string) (s s1 : GitService.t)
    (hash fp content : string) :
  noUsableContent hash fp s ->
  run oracle (GitService.getFileContent now s hash fp) = (Content content, s1) ->
  content <> "" ->
  (forall now', GitService.getFileContent now' s1 hash fp
                = Done (Content content, s1))
  /\ (forall now' other, other <> "" -> other <> fp ->
        GitService.getFileContent now'
          (GitService.invalidateCache s1 (Some other)) hash fp
        = Done (Content content, GitService.invalidateCache s1 (Some other)))
  /\ (forall now' arg, arg = None \/ arg = Some fp ->
        is_Some (asked (GitService.getFileContent now'
                          (GitService.invalidateCache s1 arg) hash fp))).
Proof.
  intros Hmiss Hrun Hne.
  destruct (getFileContent_stores _ _ _ _ _ _ _ Hmiss Hrun Hne)
    as (repo & Hrepo & ->).
  assert (Htruthy : payloadTruthy (Content content) = true)
    by (by apply truthy_nonempty).
  split; [|split].
  - intros now'. apply getFileContent_hit; [|done].
    rewrite cache_withCache. apply get_set.
  - intros now' other Hother Hdiff. apply getFileContent_hit; [|done].
    rewrite cache_invalidateCache, cache_withCache, get_lookup.
    rewrite (invalidate_tagged_lookup _ other _ Hother).
    unfold CacheManager.set. rewrite lookup_insert_eq. cbn.
    destruct (String.eqb_spec fp other); [congruence | done].
  - intros now' arg Harg.
    assert (Hgone : CacheManager.invalidate
                      (CacheManager.set now (GitService.cache s)
                         (GitService.contentKey hash fp) (Content content)
                         fp (Some hash)) arg
                    !! GitService.contentKey hash fp = None).
    { destruct Harg as [->| ->]; [done|].
      destruct (decide (fp = "")) as [->|Hfp]; [done|].
      rewrite (invalidate_tagged_lookup _ fp _ Hfp).
      unfold CacheManager.set. rewrite lookup_insert_eq. cbn.
      by rewrite String.eqb_refl. }
    rewrite (getFileContent_requeries now' _ hash fp repo); [done|done|].
    unfold noUsableContent.
    by rewrite cache_invalidateCache, cache_withCache, get_lookup, Hgone.
Qed.

Lemma content_is_cached_until_invalidated_witness :
  let s1 := GitService.withCache Examples.plainService
              (CacheManager.set 5 ∅
                 (GitService.contentKey "abc123" "/ws/a.ts") (Content "let a")
                 "/ws/a.ts" (Some "abc123")) in
  GitService.getFileContent (P := PosixPath.posix) 9 s1 "abc123" "/ws/a.ts"
  = Done (Content "let a", s1).
Proof.
  refine (proj1 (content_is_cached_until_invalidated (P := PosixPath.posix)
                   5 (fun _ => Some "let a") Examples.plainService _
                   "abc123" "/ws/a.ts" "let a" _ _ _) 9).
  - reflexivity.
  - reflexivity.
  - discriminate.
Defined.

(** ** The cache of the service is keyed by kind *)

Section Keys.
Context {P : NodePath}.
Implicit Types (s : GitService.t) (h : Store).

Lemma wellKeyed_set_content now h s hash fp c :
  wellKeyed h s ->
  wellKeyed h (GitService.withCache s
                 (CacheManager.set now (GitService.cache s)
                    (GitService.contentKey hash fp) (Content c) fp (Some hash))).
Proof.
  intros Hs key e. rewrite cache_withCache. unfold CacheManager.set.
  destruct (decide (key = GitService.contentKey hash fp)) as [->|Hk].
  - rewrite lookup_insert_eq. intros [= <-]. split; [|done].
    right; left. by exists hash, fp, c.
  - rewrite lookup_insert_ne by done. apply Hs.
Qed.

Lemma wellKeyed_set_blame now h s fp l :
  wellKeyed h s ->
  wellKeyed h (GitService.withCache s
                 (CacheManager.set now (GitService.cache s)
                    (GitService.blameKey fp) (Blame l) fp None)).
Proof.
  intros Hs key e. rewrite cache_withCache. unfold CacheManager.set.
  destruct (decide (key = GitService.blameKey fp)) as [->|Hk].
  - rewrite lookup_insert_eq. intros [= <-]. split; [|done].
    right; right. by exists fp, l.
  - rewrite lookup_insert_ne by done. apply Hs.
Qed.

Lemma wellKeyed_alloc h s v : wellKeyed h s -> wellKeyed (alloc h v).2 s.
Proof.
  intros Hs key e He. destruct (Hs key e He) as [Hshape Hin].
  split; [done|]. intros r Hr. destruct (Hin r Hr) as [v' Hv'].
  unfold alloc. cbn. destruct (decide (fresh (dom h) = r)) as [<-|Hne].
  - rewrite lookup_insert_eq. eauto.
  - rewrite lookup_insert_ne by done. eauto.
Qed.

Lemma wellKeyed_changedFilesAnswer now h s hash answer :
  wellKeyed h s ->
  let '(_, h', s') := GitService.changedFilesAnswer now h s hash answer in
  wellKeyed h' s'.
Proof.
  intros Hs. unfold GitService.changedFilesAnswer, GitService.noFiles.
  destruct answer as [result|].
  - pose proof (wellKeyed_alloc h s (GitService.parseNameStatus result) Hs) as Ha.
    pose proof (alloc_lookup h (GitService.parseNameStatus result)) as Hl.
    destruct (alloc h _) as [r h']. cbn [fst snd] in *.
    intros key e. rewrite cache_withCache. unfold CacheManager.set.
    destruct (decide (key = GitService.filesKey hash)) as [->|Hk].
    + rewrite lookup_insert_eq. intros [= <-]. split.
      * left. by exists hash, r.
      * cbn. intros ? [= <-]. eauto.
    + rewrite lookup_insert_ne by done. apply Ha.
  - pose proof (wellKeyed_alloc h s [] Hs) as Ha.
    by destruct (alloc h []).
Qed.

Lemma wellKeyed_invalidate h s arg :
  wellKeyed h s -> wellKeyed h (GitService.invalidateCache s arg).
Proof.
  intros Hs key e. rewrite cache_invalidateCache.
  destruct arg as [fp|]; [|done].
  destruct (decide (fp = "")) as [->|Hfp]; [done|].
  rewrite (invalidate_tagged_lookup _ fp _ Hfp).
  destruct (GitService.cache s !! key) as [e'|] eqn:He'; [|done].
  destruct (String.eqb _ fp); [done|]. intros [= <-]. by apply Hs.
Qed.

(** The kinds of key do not overlap. *)
Lemma keys_apart hash hash' fp fp' :
  GitService.filesKey hash <> GitService.contentKey hash' fp
  /\ GitService.filesKey hash <> GitService.blameKey fp'
  /\ GitService.contentKey hash' fp <> GitService.blameKey fp'.
Proof. by repeat split. Qed.

Lemma filesKey_inj hash hash' :
  GitService.filesKey hash = GitService.filesKey hash' -> hash = hash'.
Proof. unfold GitService.filesKey. cbn. intros H. by simplify_eq. Qed.

Lemma blameKey_inj fp fp' :
  GitService.blameKey fp = GitService.blameKey fp' -> fp = fp'.
Proof. unfold GitService.blameKey. cbn. intros H. by simplify_eq. Qed.

Lemma wellKeyed_files h s hash p :
  wellKeyed h s ->
  CacheManager.get (GitService.cache s) (GitService.filesKey hash) = Some p ->
  exists r, p = Files r /\ is_Some (h !! r).
Proof.
  intros Hs. rewrite get_lookup.
  destruct (GitService.cache s !! _) as [e|] eqn:He; [|done].
  intros [= <-]. destruct (Hs _ _ He) as [Hshape Hin].
  destruct Hshape as [(? & r & _ & Hd & _)|[(? & ? & ? & Hk & _)|(? & ? & Hk & _)]].
  - exists r. split; [done|]. by apply Hin.
  - by destruct (keys_apart hash x x0 "") as (Hneq & _).
  - by destruct (keys_apart hash "" "" x) as (_ & Hneq & _).
Qed.

Lemma wellKeyed_content h s hash fp p :
  wellKeyed h s ->
  CacheManager.get (GitService.cache s) (GitService.contentKey hash fp) = Some p ->
  exists c, p = Content c.
Proof.
  intros Hs. rewrite get_lookup.
  destruct (GitService.cache s !! _) as [e|] eqn:He; [|done].
  intros [= <-]. destruct (Hs _ _ He) as [Hshape _].
  destruct Hshape as [(? & ? & Hk & _)|[(? & ? & c & _ & Hd & _)|(? & ? & Hk & _)]].
  - by destruct (keys_apart x hash fp "") as (Hneq & _).
  - by exists c.
  - by destruct (keys_apart "" hash fp x) as (_ & _ & Hneq).
Qed.

Lemma wellKeyed_blame h s fp p :
  wellKeyed h s ->
  CacheManager.get (GitService.cache s) (GitService.blameKey fp) = Some p ->
  exists l, p = Blame l.
Proof.
  intros Hs. rewrite get_lookup.
  destruct (GitService.cache s !! _) as [e|] eqn:He; [|done].
  intros [= <-]. destruct (Hs _ _ He) as [Hshape _].
  destruct Hshape as [(? & ? & Hk & _)|[(? & ? & ? & Hk & _)|(? & l & _ & Hd & _)]].
  - by destruct (keys_apart x "" "" fp) as (_ & Hneq & _).
  - by destruct (keys_apart "" x x0 fp) as (_ & _ & Hneq).
  - by exists l.
Qed.

End Keys.

(** X9. The readers keep the cache keyed by kind: under a [files:] key
    there is an array of files that is in the store, tagged with no
    file; under a [content:] key a text tagged with its file; under a
    [blame:] key a list of blame records tagged with its file.  The
    three kinds of key do not overlap, so each reader gets back the type
    of payload it casts the cached value to. *)
Theorem service_cache_stays_well_keyed {P : NodePath}
    (h : Store) (s : GitService.t) :
  wellKeyed h s ->
  (forall now oracle hash fp p h' s',
      run oracle (GitService.getChangedFiles now h s hash fp) = (p, h', s') ->
      wellKeyed h' s' /\ exists r, p = Files r /\ is_Some (h' !! r))
  /\ (forall now oracle hash fp p s',
      run oracle (GitService.getFileContent now s hash fp) = (p, s') ->
      wellKeyed h s' /\ exists c, p = Content c)
  /\ (forall now clock oracle fp p s',
      run oracle (GitService.getBlame now clock s fp) = (p, s') ->
      wellKeyed h s' /\ exists l, p = Blame l)
  /\ (forall arg, wellKeyed h (GitService.invalidateCache s arg)).
Proof.
  intros Hs. split; [|split; [|split]].
  - intros now oracle hash fp p h' s' Hrun.
    assert (Hanswer : forall answer,
              GitService.changedFilesAnswer now h s hash answer = (p, h', s') ->
              wellKeyed h' s' /\ exists r, p = Files r /\ is_Some (h' !! r)).
    { intros answer Ha.
      pose proof (wellKeyed_changedFilesAnswer now h s hash answer Hs) as Hk.
      rewrite Ha in Hk. split; [done|].
      unfold GitService.changedFilesAnswer, GitService.noFiles in Ha.
      destruct answer as [result|].
      - pose proof (alloc_lookup h (GitService.parseNameStatus result)) as Hl.
        destruct (alloc h _) as [r h1]. injection Ha as <- <- <-. eauto.
      - pose proof (alloc_lookup h []) as Hl.
        destruct (alloc h []) as [r h1]. injection Ha as <- <- <-. eauto. }
    destruct (GitService.getChangedFiles now h s hash fp) as [res|q k] eqn:Hcall.
    + cbn [run] in Hrun. subst res.
      apply getChangedFiles_done in Hcall as [(c & Hc & Heq)|(Heq & _)].
      * injection Heq as -> -> ->. split; [done|].
        by apply (wellKeyed_files h s hash).
      * apply (Hanswer None). by rewrite Heq.
    + pose proof (getChangedFiles_asks _ _ _ _ _ _ _ Hcall) as ->.
      cbn [run] in Hrun. by apply (Hanswer (oracle q)).
  - intros now oracle hash fp p s' Hrun.
    assert (Hmiss : forall k : Step (Payload * GitService.t),
              k = match GitService.getRepoForFile s fp with
                  | None => Done (Content "", s)
                  | Some repo =>
                      Ask (Show (git repo)
                             [hash +:+ ":" +:+
                              GitService.getRelativePathForRepo fp (root repo)])
                          (GitService.contentAnswer now s hash fp)
                  end ->
              run oracle k = (p, s') ->
              wellKeyed h s' /\ exists c, p = Content c).
    { intros k -> Hk. destruct (GitService.getRepoForFile s fp) as [repo|].
      - cbn [run] in Hk. unfold GitService.contentAnswer in Hk.
        destruct (oracle _) as [c|]; injection Hk as <- <-.
        + split; [by apply wellKeyed_set_content | eauto].
        + split; [done | eauto].
      - cbn [run] in Hk. injection Hk as <- <-. split; [done | eauto]. }
    unfold GitService.getFileContent in Hrun.
    destruct (CacheManager.get _ _) as [cached|] eqn:Hc; [|by eapply Hmiss].
    destruct (payloadTruthy cached); [|by eapply Hmiss].
    cbn [run] in Hrun. injection Hrun as <- <-. split; [done|].
    by apply (wellKeyed_content h s hash fp).
  - intros now clock oracle fp p s' Hrun.
    unfold GitService.getBlame in Hrun.
    destruct (GitService.getRepoForFile s fp) as [repo|].
    + assert (Hmiss :
        GitService.blameAnswer now clock s fp
          (oracle (Raw (git repo)
                     ["blame"; "--porcelain";
                      GitService.getRelativePathForRepo fp (root repo)]))
        = (p, s') ->
        wellKeyed h s' /\ exists l, p = Blame l).
      { unfold GitService.blameAnswer.
        destruct (_ ≫= _) as [info|]; intros [= <- <-].
        - split; [by apply wellKeyed_set_blame | eauto].
        - split; [done | eauto]. }
      destruct (CacheManager.get _ _) as [cached|] eqn:Hc; [|by apply Hmiss].
      destruct (payloadTruthy cached); [|by apply Hmiss].
      cbn [run] in Hrun. injection Hrun as <- <-. split; [done|].
      by apply (wellKeyed_blame h s fp).
    + cbn [run] in Hrun. injection Hrun as <- <-. split; [done | eauto].
  - intros arg. by apply wellKeyed_invalidate.
Qed.

Lemma service_cache_stays_well_keyed_witness :
  let s := GitService.withCache Examples.plainService Examples.taggedCache in
  let answered :=
    run (fun _ => Some Examples.nameStatus)
      (GitService.getChangedFiles (P := PosixPath.posix) 7 Examples.store s
         "def456" (Some "/ws/a.ts")) in
  let cached :=
    run (fun _ => None)
      (GitService.getChangedFiles (P := PosixPath.posix) 8 Examples.store s
         "abc123" None) in
  let content :=
    run (fun _ => None)
      (GitService.getFileContent (P := PosixPath.posix) 9 s "abc123"
         "/ws/a.ts") in
  let blame :=
    run (fun _ => Some Examples.reversedHunks)
      (GitService.getBlame (P := PosixPath.posix) 10 (fun _ => "now") s
         "/ws/a.ts") in
  wellKeyed Examples.store s
  /\ GitService.cache s !! GitService.filesKey "abc123"
     = Some {| CacheManager.data := Files 1%positive;
               CacheManager.timestamp := 3;
               CacheManager.filePath := "";
               CacheManager.commitHash := Some "abc123" |}
  /\ (wellKeyed answered.1.2 answered.2
      /\ exists r, answered.1.1 = Files r /\ is_Some (answered.1.2 !! r))
  /\ (wellKeyed cached.1.2 cached.2
      /\ exists r, cached.1.1 = Files r /\ is_Some (cached.1.2 !! r))
  /\ (wellKeyed Examples.store content.2 /\ exists c, content.1 = Content c)
  /\ (wellKeyed Examples.store blame.2 /\ exists l, blame.1 = Blame l)
  /\ wellKeyed Examples.store
       (GitService.invalidateCache s (Some "/ws/a.ts")).
Proof.
  intros s answered cached content blame.
  assert (Hs : wellKeyed Examples.store s).
  { intros key e He. subst s. rewrite cache_withCache in He.
    unfold Examples.taggedCache, CacheManager.set in He.
    apply lookup_insert_Some in He as [[<- <-]|[_ He]].
    { split; [left; by exists "abc123", 1%positive|].
      intros r [= <-]. by exists Examples.changedFiles. }
    apply lookup_insert_Some in He as [[<- <-]|[_ He]].
    { split; [right; right; by exists "/ws/b.ts", []|]. done. }
    apply lookup_insert_Some in He as [[<- <-]|[_ He]].
    { split; [right; left; by exists "abc123", "/ws/a.ts", "let a"|]. done. }
    by rewrite lookup_empty in He. }
  destruct (service_cache_stays_well_keyed (P := PosixPath.posix)
              Examples.store s Hs) as (Hfiles & Hcontent & Hblame & Hinv).
  split; [exact Hs|]. split; [reflexivity|].
  split; [|split; [|split; [|split]]].
  - apply (Hfiles 7 (fun _ => Some Examples.nameStatus) "def456"
             (Some "/ws/a.ts")).
    unfold answered. by destruct (run _ _) as [[? ?] ?].
  - apply (Hfiles 8 (fun _ => None) "abc123" None).
    unfold cached. by destruct (run _ _) as [[? ?] ?].
  - apply (Hcontent 9 (fun _ => None) "abc123" "/ws/a.ts").
    unfold content. by destruct (run _ _) as [? ?].
  - apply (Hblame 10 (fun _ => "now") (fun _ => Some Examples.reversedHunks)
             "/ws/a.ts").
    unfold blame. by destruct (run _ _) as [? ?].
  - apply Hinv.
Defined.

(** X10. The list of files of a commit is stored with an empty file tag,
    so no invalidation of a file removes it: after
    [invalidateCache(filePath)] every call of [getChangedFiles] for the
    commit is still answered from the cache. *)
Theorem file_invalidation_keeps_changed_files {P : NodePath}
    (h : Store) (s : GitService.t) (hash fp : string) (p : Payload) :
  wellKeyed h s ->
  fp <> "" ->
  CacheManager.get (GitService.cache s) (GitService.filesKey hash) = Some p ->
  forall now h' file,
    GitService.getChangedFiles now h' (GitService.invalidateCache s (Some fp))
      hash file
    = Done (p, h', GitService.invalidateCache s (Some fp)).
Proof.
  intros Hs Hfp Hget now h' file.
  destruct (wellKeyed_files h s hash p Hs Hget) as (r & -> & _).
  apply getChangedFiles_hit; [|done].
  rewrite cache_invalidateCache, get_lookup.
  rewrite (invalidate_tagged_lookup _ fp _ Hfp).
  rewrite get_lookup in Hget.
  destruct (GitService.cache s !! GitService.filesKey hash) as [e|] eqn:He;
    [|done].
  destruct (Hs _ _ He) as [Hshape _].
  assert (Htag : CacheManager.filePath e = "").
  { destruct Hshape as [(? & ? & _ & _ & Ht & _)
                       |[(? & ? & ? & Hk & _)|(? & ? & Hk & _)]]; [done|..].
    - by destruct (keys_apart hash x x0 "") as (Hneq & _).
    - by destruct (keys_apart hash "" "" x) as (_ & Hneq & _). }
  rewrite Htag. destruct (String.eqb_spec "" fp); [congruence | done].
Qed.

Lemma file_invalidation_keeps_changed_files_witness :
  let s := GitService.withCache Examples.plainService
             (CacheManager.set 1 ∅ (GitService.filesKey "abc123")
                (Files 1%positive) "" (Some "abc123")) in
  GitService.getChangedFiles (P := PosixPath.posix) 2 Examples.store
    (GitService.invalidateCache s (Some "/ws/a.ts")) "abc123" (Some "/ws/b.ts")
  = Done (Files 1%positive, Examples.store,
          GitService.invalidateCache s (Some "/ws/a.ts")).
Proof.
  refine (file_invalidation_keeps_changed_files (P := PosixPath.posix)
            Examples.store _ "abc123" "/ws/a.ts" (Files 1%positive) _ _ _
            2 Examples.store (Some "/ws/b.ts")).
  - intros key e He. rewrite cache_withCache in He. unfold CacheManager.set in He.
    apply lookup_insert_Some in He as [[<- <-]|[_ He]]; [|done].
    split.
    + left. by exists "abc123", 1%positive.
    + intros r [= <-]. vm_compute. eauto.
  - discriminate.
  - reflexivity.
Defined.

(** ** The blame parser on any input *)

Section BlameParserTotal.
Import BlameParser.

Lemma toISOString_out_of_range ms :
  (Z.abs ms <=? 8640000000000000) = false -> JS.toISOString ms = None.
Proof. intros H. unfold JS.toISOString. by rewrite H. Qed.

Lemma currentKnown_updateCurrent f st :
  currentKnown st = true -> currentKnown (updateCurrent f st) = true.
Proof.
  unfold currentKnown, updateCurrent. intros H.
  apply andb_prop in H as [Ht Hk]. rewrite Ht.
  apply bool_decide_eq_true in Hk as [info Hinfo]. rewrite Hinfo. cbn.
  rewrite Ht, lookup_insert_eq. done.
Qed.

Lemma currentKnown_onHeader now st line :
  isHeaderLine line = true -> currentKnown (onHeader now st line) = true.
Proof.
  intros Hh. unfold currentKnown, onHeader.
  pose proof (header_hash_nonempty line Hh) as Hne.
  destruct (commitCache st !! default "" (part 0 line)) eqn:Hc; cbn.
  - apply truthy_nonempty in Hne as ->. cbn.
    apply bool_decide_eq_true. by rewrite Hc.
  - apply truthy_nonempty in Hne as ->. cbn.
    apply bool_decide_eq_true. by rewrite lookup_insert_eq.
Qed.

Lemma step_keeps_current now st line st' :
  currentKnown st = true -> step now st line = Some st' ->
  currentKnown st' = true.
Proof.
  intros Hk. unfold step.
  destruct (isHeaderLine line) eqn:Hh.
  { intros [= <-]. by apply currentKnown_onHeader. }
  destruct (JS.startsWith line "author ").
  { intros [= <-]. by apply currentKnown_updateCurrent. }
  destruct (JS.startsWith line "author-time ").
  { rewrite Hk. destruct (_ ≫= _); [|done].
    intros [= <-]. by apply currentKnown_updateCurrent. }
  destruct (JS.startsWith line "summary ").
  { intros [= <-]. by apply currentKnown_updateCurrent. }
  by intros [= <-].
Qed.

Lemma startsWith_cons s c p :
  JS.startsWith s (String c p) = true ->
  exists s', s = String c s' /\ JS.startsWith s' p = true.
Proof.
  destruct s as [|d s]; cbn [JS.startsWith]; [done|].
  destruct (Ascii.eqb_spec c d) as [->|]; [|done]. cbn. eauto.
Qed.

(** A header line is not an [author-time] line. *)
Lemma header_not_timestamp line :
  isHeaderLine line = true -> JS.startsWith line "author-time " = false.
Proof.
  unfold isHeaderLine. intros H.
  apply andb_prop in H as [H _]. apply andb_prop in H as [_ Hhex].
  destruct (JS.startsWith _ _) eqn:Hs; [|done].
  apply startsWith_cons in Hs as (s1 & -> & Hs).
  apply startsWith_cons in Hs as (s2 & -> & Hs).
  cbn in Hhex. done.
Qed.

Lemma header_valid line :
  isHeaderLine line = true -> validTimestampLine line = true.
Proof.
  intros H. unfold validTimestampLine. by rewrite header_not_timestamp.
Qed.

(** With a commit at hand, a line is passed exactly when its timestamp,
    if it is an [author-time] line, can be rendered. *)
Lemma step_known now st line :
  currentKnown st = true ->
  is_Some (step now st line) <-> validTimestampLine line = true.
Proof.
  intros Hk. split; [|apply step_total].
  unfold step, validTimestampLine.
  destruct (isHeaderLine line) eqn:Hh.
  { by rewrite header_not_timestamp. }
  destruct (JS.startsWith line "author ") eqn:Ha.
  { assert (JS.startsWith line "author-time " = false) as ->; [|done].
    do 7 (apply startsWith_cons in Ha as (? & -> & Ha)). done. }
  destruct (JS.startsWith line "author-time "); [|done].
  rewrite Hk. destruct (JS.parseInt _) as [t|]; cbn; [|by intros []].
  destruct (Z.abs (t * 1000) <=? 8640000000000000) eqn:Hr; [done|].
  rewrite (toISOString_out_of_range _ Hr). by intros [].
Qed.

Lemma loop_known clock lines : forall i st,
  currentKnown st = true ->
  is_Some (loop clock i lines st) <-> forallb validTimestampLine lines = true.
Proof.
  induction lines as [|line lines IH]; intros i st Hk; cbn [loop forallb].
  - split; eauto.
  - rewrite andb_true_iff, <- (step_known (clock i) st line Hk).
    destruct (step (clock i) st line) as [st'|] eqn:Hs.
    + rewrite (IH (S i) st' (step_keeps_current _ _ _ _ Hk Hs)).
      split; [intros ?; split; eauto | by intros [_ ?]].
    + split; [by intros [] | by intros [[] _]].
Qed.

(** Before the first header no commit is at hand and every line is passed
    over. *)
Lemma step_unknown now st line :
  currentKnown st = false -> isHeaderLine line = false ->
  step now st line = Some st.
Proof.
  intros Hk Hh. unfold step. rewrite Hh, Hk.
  assert (Hu : forall f, updateCurrent f st = st).
  { intros f. unfold updateCurrent. unfold currentKnown in Hk.
    destruct (JS.truthy (currentCommitHash st)); [|done].
    cbn in Hk. apply bool_decide_eq_false in Hk.
    destruct (commitCache st !! currentCommitHash st) eqn:Hc; [|done].
    destruct Hk. eauto. }
  rewrite !Hu. by repeat case_match.
Qed.

Lemma loop_aborts clock lines : forall i st,
  currentKnown st = false ->
  loop clock i lines st = None <-> abortsOn lines = true.
Proof.
  unfold abortsOn.
  induction lines as [|line lines IH]; intros i st Hk; cbn [loop JS.dropWhile].
  - done.
  - destruct (isHeaderLine line) eqn:Hh; cbn [negb].
    + unfold step at 1. rewrite Hh.
      pose proof (loop_known clock lines (S i) (onHeader (clock i) st line)
                    (currentKnown_onHeader _ _ _ Hh)) as Hl.
      cbn [existsb]. rewrite (header_valid line Hh). cbn [negb orb].
      destruct (loop clock (S i) lines _) as [st'|].
      * split; [done|]. intros He.
        assert (Hall : forallb validTimestampLine lines = true)
          by (apply Hl; eauto).
        apply existsb_exists in He as (l & Hin & Hl').
        rewrite forallb_forall in Hall. rewrite (Hall l Hin) in Hl'. done.
      * split; [|done]. intros _.
        destruct (existsb _ lines) eqn:He; [done|].
        assert (Hall : forallb validTimestampLine lines = true).
        { apply forallb_forall. intros l Hin.
          destruct (validTimestampLine l) eqn:Hv; [done|].
          assert (existsb (fun l => negb (validTimestampLine l)) lines = true)
            by (apply existsb_exists; exists l; by rewrite Hv).
          congruence. }
        apply Hl in Hall as []. done.
    + rewrite (step_unknown _ _ _ Hk Hh). by apply IH.
Qed.

End BlameParserTotal.

(** X11. [parseBlameOutput] throws exactly when a line [author-time]
    whose number [Date] cannot render (no number, or beyond the range of
    a date) stands after a header line; before the first header such
    lines are passed over. *)
Theorem blame_parser_throws_on_bad_timestamps (clock : nat -> string)
    (output : string) :
  BlameParser.parseBlameOutput clock output = None
  <-> abortsOn (JS.splitBy JS.isNewline output) = true.
Proof.
  unfold BlameParser.parseBlameOutput.
  rewrite <- (loop_aborts clock (JS.splitBy JS.isNewline output) 0%nat
                BlameParser.initial eq_refl).
  by destruct (BlameParser.loop _ _ _ _).
Qed.

Section BlameShape.
Import BlameParser.

Lemma digitValue_nonneg c : JS.isDigit c = true -> 0 <= JS.digitValue c.
Proof.
  unfold JS.isDigit, JS.digitValue. intros H.
  apply andb_prop in H as [H _]. apply Nat.leb_le in H. lia.
Qed.

Lemma decimalValue_nonneg ds :
  forallb JS.isDigit ds = true -> 0 <= JS.decimalValue ds.
Proof.
  unfold JS.decimalValue.
  assert (forall acc, 0 <= acc -> forallb JS.isDigit ds = true ->
            0 <= fold_left (fun a c => 10 * a + JS.digitValue c) ds acc) as Hgen.
  { induction ds as [|d ds IH]; intros a Ha Hds; cbn in *; [done|].
    apply andb_prop in Hds as [Hd Hds]. apply IH; [|done].
    pose proof (digitValue_nonneg d Hd). lia. }
  apply Hgen. lia.
Qed.

Lemma parseInt_leading_digit_nonneg d s :
  JS.isDigit d = true -> exists n, JS.parseInt (String d s) = Some n /\ 0 <= n.
Proof.
  intros Hd. unfold JS.parseInt. cbn [JS.chars list_ascii_of_string JS.dropWhile].
  rewrite (digit_not_whiteSpace d Hd).
  destruct (digit_not_sign d Hd) as [-> ->].
  cbn [JS.takeWhile]. rewrite Hd. eexists. split; [done|].
  apply decimalValue_nonneg. cbn [forallb]. rewrite Hd. apply takeWhile_all.
Qed.

Lemma header_number_of_chars cs sp1 r1 d1 ds1 sp2 d rest :
  forallb JS.isLowerHex (take 40 cs) = true ->
  drop 40 cs = sp1 :: r1 -> JS.isSpaceChar sp1 = true ->
  JS.takeWhile JS.isDigit r1 = d1 :: ds1 ->
  JS.dropWhile JS.isDigit r1 = sp2 :: d :: rest ->
  JS.isSpaceChar sp2 = true -> JS.isDigit d = true ->
  exists n, JS.splitBy JS.isSpaceChar (JS.str cs) !! 2%nat ≫= JS.parseInt = Some n
            /\ 0 <= n.
Proof.
  intros Hhex Hdrop Hsp1 Htake Hrest Hsp2 Hd.
  pose proof (takeWhile_all JS.isDigit r1) as Hd1.
  assert (Hcs : cs = take 40 cs ++ sp1 :: JS.takeWhile JS.isDigit r1
                       ++ sp2 :: d :: rest).
  { rewrite <- Hrest, takeWhile_dropWhile, <- Hdrop. by rewrite take_drop. }
  rewrite Hcs.
  rewrite splitBy_prefix; [|by eapply forallb_take_weaken;
    [intros x Hx; by rewrite (lowerHex_not_space x Hx)|] | done].
  rewrite splitBy_prefix; [|by eapply forallb_take_weaken;
    [intros x Hx; by rewrite (digit_not_space x Hx)|] | done].
  cbn [lookup list_lookup].
  change (JS.str (d :: rest)) with (String d (JS.str rest)).
  rewrite splitBy_cons by (by apply digit_not_space).
  pose proof (splitBy_nonempty JS.isSpaceChar (JS.str rest)) as Hne.
  destruct (JS.splitBy JS.isSpaceChar (JS.str rest)) as [|w ws]; [done|].
  cbn. by apply parseInt_leading_digit_nonneg.
Qed.

Lemma header_number_nonneg line :
  isHeaderLine line = true -> 0 <= headerNumber line.
Proof.
  unfold isHeaderLine, headerNumber, part. intros H.
  apply andb_prop in H as [H Htail]. apply andb_prop in H as [_ Hhex].
  destruct (drop 40 (JS.chars line)) as [|sp1 r1] eqn:Hdrop; [done|].
  apply andb_prop in Htail as [Hsp1 Htail].
  destruct (JS.takeWhile JS.isDigit r1) as [|d1 ds1] eqn:Htake; [done|].
  destruct (JS.dropWhile JS.isDigit r1) as [|sp2 [|d rest]] eqn:Hrest; [done..|].
  apply andb_prop in Htail as [Hsp2 Hd].
  rewrite <- (str_chars line).
  destruct (header_number_of_chars _ _ _ _ _ _ _ _ Hhex Hdrop Hsp1 Htake Hrest
              Hsp2 Hd) as (n & -> & Hn).
  done.
Qed.

Lemma length_str cs : String.length (JS.str cs) = length cs.
Proof. induction cs as [|c cs IH]; cbn; [done | by rewrite <- IH]. Qed.

Lemma header_hash_full line :
  isHeaderLine line = true -> isFullHash (default "" (part 0 line)) = true.
Proof.
  intros H. destruct (header_parts_defined line H) as [Hpart _].
  unfold isHeaderLine in H.
  apply andb_prop in H as [H _]. apply andb_prop in H as [Hlen Hhex].
  rewrite Hpart. unfold isFullHash, default. cbn [from_option id].
  by rewrite chars_str, length_str, Hhex, Hlen.
Qed.

(** What a run of the loop that does not throw has appended. *)
Lemma loop_appends clock lines : forall i st st',
  loop clock i lines st = Some st' ->
  exists rs, blameInfo st' = blameInfo st ++ rs
    /\ map lineNumber rs
       = map headerNumber (filter (fun l => isHeaderLine l = true) lines)
    /\ Forall (fun r => isFullHash (commitHash r) = true /\ 0 <= lineNumber r) rs.
Proof.
  induction lines as [|line lines IH]; intros i st st'; cbn [loop].
  - intros [= <-]. exists []. by rewrite app_nil_r.
  - destruct (step (clock i) st line) as [st1|] eqn:Hs; [|done].
    intros Hl. destruct (IH _ _ _ Hl) as (rs & -> & Hnum & Hall).
    unfold step in Hs. rewrite filter_cons.
    destruct (isHeaderLine line) eqn:Hh.
    + injection Hs as <-.
      destruct (onHeader_blameInfo (clock i) st line) as (r & -> & Hn & Hc).
      exists (r :: rs). rewrite <- app_assoc. split; [done|].
      rewrite decide_True by done. cbn. rewrite Hn, Hnum. split; [done|].
      constructor; [|done]. rewrite Hc, Hn.
      split; [by apply header_hash_full | by apply header_number_nonneg].
    + exists rs. rewrite decide_False by (by intros ?).
      split; [|done]. f_equal.
      repeat case_match; simplify_eq; by rewrite ?updateCurrent_blameInfo.
Qed.

End BlameShape.

Lemma StronglySorted_weaken {A} (R R' : A -> A -> Prop) l :
  (forall a b, R a b -> R' a b) -> StronglySorted R l -> StronglySorted R' l.
Proof.
  intros HR. induction 1 as [|x l Hl IH Hx]; constructor; [done|].
  eapply Forall_impl; [exact Hx | by intros; apply HR].
Qed.

(** X12. Whenever [parseBlameOutput] returns, on an output whose
    header lines carry line numbers of at most 2^53, which a number of
    the program holds exactly, the records are in the order of their
    line numbers, their line numbers are those of the header lines, and
    every record carries a commit hash of forty characters out of
    [0-9a-f] and a line number that is not negative. *)
Theorem blame_records_whenever_parsed (clock : nat -> string)
    (output : string) (records : list BlameLineInfo) :
  forallb (fun line => heldExactly (BlameParser.headerNumber line))
    (BlameParser.headerLines output) = true ->
  BlameParser.parseBlameOutput clock output = Some records ->
  StronglySorted (fun a b => lineNumber a <= lineNumber b) records
  /\ map lineNumber records
     ≡ₚ map BlameParser.headerNumber (BlameParser.headerLines output)
  /\ Forall (fun r => isFullHash (commitHash r) = true /\ 0 <= lineNumber r)
       records.
Proof.
  intros _. unfold BlameParser.parseBlameOutput.
  destruct (BlameParser.loop _ _ _ _) as [st|] eqn:Hl; [|done].
  intros [= <-].
  destruct (loop_appends _ _ _ _ _ Hl) as (rs & Hrs & Hnum & Hall).
  cbn in Hrs. subst rs. split; [|split].
  - pose proof (sort_sorted BlameParser.byLineNumber) as Hsorted.
    eapply StronglySorted_weaken; [|apply Hsorted].
    + unfold JS.notAfter, BlameParser.byLineNumber. intros a b. lia.
    + unfold BlameParser.byLineNumber. intros a b. lia.
    + unfold BlameParser.byLineNumber. intros a b c. lia.
  - by rewrite sort_Permutation, Hnum.
  - rewrite Forall_forall in *. intros r Hr. apply Hall.
    by apply sort_elem_of in Hr.
Qed.

Lemma blame_records_whenever_parsed_witness :
  forallb (fun line => heldExactly (BlameParser.headerNumber line))
    (BlameParser.headerLines Examples.reversedHunks) = true
  /\ exists records,
       BlameParser.parseBlameOutput (fun _ => "now") Examples.reversedHunks
         = Some records
       /\ StronglySorted (fun a b => lineNumber a <= lineNumber b) records.
Proof.
  assert (Hexact : forallb (fun line => heldExactly (BlameParser.headerNumber line))
                     (BlameParser.headerLines Examples.reversedHunks) = true)
    by reflexivity.
  split; [exact Hexact|].
  eexists. split; [reflexivity|].
  exact (proj1 (blame_records_whenever_parsed (fun _ => "now")
                  Examples.reversedHunks _ Hexact eq_refl)).
Defined.

(** ** [getBlame] *)

(** X13. [getBlame] on a cache miss: when the query is answered and the
    parser returns, the records are cached (an empty list too) and
    served without a query until the file is invalidated; when the query
    is rejected or the parser throws, the result is the empty list,
    nothing is cached and the next call asks again. *)
Theorem blame_is_cached_on_success_only {P : NodePath}
    (now : Z) (clock : nat -> string) (oracle : GitQuery -> option string)
    (s s1 : GitService.t) (fp : string) (repo : GitRepoInfo) (p : Payload) :
  GitService.getRepoForFile s fp = Some repo ->
  CacheManager.get (GitService.cache s) (GitService.blameKey fp) = None ->
  run oracle (GitService.getBlame now clock s fp) = (p, s1) ->
  match
    oracle (Raw (git repo)
              ["blame"; "--porcelain";
               GitService.getRelativePathForRepo fp (root repo)])
      ≫= BlameParser.parseBlameOutput clock
  with
  | Some records =>
      p = Blame records
      /\ (forall now' clock',
            GitService.getBlame now' clock' s1 fp = Done (Blame records, s1))
      /\ (forall now' clock',
            is_Some (asked (GitService.getBlame now' clock'
                              (GitService.invalidateCache s1 (Some fp)) fp)))
  | None =>
      p = Blame [] /\ s1 = s
      /\ asked (GitService.getBlame now clock s1 fp)
         = Some (Raw (git repo)
                   ["blame"; "--porcelain";
                    GitService.getRelativePathForRepo fp (root repo)])
  end.
Proof.
  intros Hrepo Hmiss Hrun.
  unfold GitService.getBlame in Hrun. rewrite Hrepo, Hmiss in Hrun.
  cbn [run] in Hrun. unfold GitService.blameAnswer in Hrun.
  destruct (_ ≫= _) as [records|]; injection Hrun as <- <-.
  - split; [done|]. split.
    + intros now' clock'. unfold GitService.getBlame.
      rewrite getRepoForFile_withCache, Hrepo, cache_withCache, get_set. done.
    + intros now' clock'. unfold GitService.getBlame, GitService.invalidateCache.
      rewrite getRepoForFile_withCache, getRepoForFile_withCache, Hrepo.
      rewrite !cache_withCache, get_lookup.
      assert (CacheManager.invalidate
                (CacheManager.set now (GitService.cache s)
                   (GitService.blameKey fp) (Blame records) fp None) (Some fp)
              !! GitService.blameKey fp = None) as ->; [|done].
      destruct (decide (fp = "")) as [->|Hfp]; [done|].
      rewrite (invalidate_tagged_lookup _ fp _ Hfp).
      unfold CacheManager.set. rewrite lookup_insert_eq. cbn.
      by rewrite String.eqb_refl.
  - split; [done|]. split; [done|].
    unfold GitService.getBlame. by rewrite Hrepo, Hmiss.
Qed.

Lemma blame_is_cached_on_success_only_witness :
  let s1 := GitService.withCache Examples.plainService
              (CacheManager.set 3 ∅ (GitService.blameKey "/ws/a.ts")
                 (Blame []) "/ws/a.ts" None) in
  GitService.getBlame (P := PosixPath.posix) 9 (fun _ => "later") s1 "/ws/a.ts"
  = Done (Blame [], s1).
Proof.
  exact (proj1 (proj2
    (blame_is_cached_on_success_only (P := PosixPath.posix)
       3 (fun _ => "now") (fun _ => Some "") Examples.plainService
       (GitService.withCache Examples.plainService
          (CacheManager.set 3 ∅ (GitService.blameKey "/ws/a.ts")
             (Blame []) "/ws/a.ts" None))
       "/ws/a.ts" {| root := "/ws"; git := simpleGit "/ws" |} (Blame [])
       eq_refl eq_refl eq_refl)) 9 (fun _ => "later")).
Defined.

(** ** The fold commands, end to end *)

Section FoldCommands.
Import TreeItems GitHistoryProvider.
Context {P : NodePath} {C : Collation}.

Lemma getFilesForCommit_manual now h svc p hash files :
  isAuto (manualFoldState p) = false ->
  CacheManager.get (GitService.cache svc) (GitService.filesKey hash)
    = Some (Files files) ->
  getFilesForCommit now h svc p hash
  = Done (let '(items, h2, p2) := rebuild svc p h files hash in
          Some (items, h2, svc, p2)).
Proof.
  intros Hmode Hhit. unfold getFilesForCommit.
  rewrite Hmode, orb_true_r. cbn [negb].
  by rewrite (getChangedFiles_hit now h svc hash _ (Files files) Hhit eq_refl).
Qed.

Lemma rebuild_manual svc p h files hash :
  isAuto (manualFoldState p) = false ->
  rebuild svc p h files hash
  = (default [] ((buildFileTree p h files hash).2 !! ""),
     (buildFileTree p h files hash).1,
     withCommitFiles p
       (<[hash := (buildFileTree p h files hash).2]> (commitFiles p))).
Proof.
  intros Hmode. unfold rebuild.
  destruct (buildFileTree p h files hash) as [h' built]. by rewrite Hmode.
Qed.

Lemma built_folder_states p h files hash fs f :
  h !! files = Some fs ->
  inTree (Folder f) (buildFileTree p h files hash).2 ->
  collapsibleState f = builtState (allFoldersExpanded p).
Proof.
  intros Hfs Hin.
  destruct (buildFileTree_contents p h files hash fs Hfs) as (tr & fm & HB & Hiff).
  apply Hiff in Hin. by apply (built_folders p _ tr fm HB).
Qed.

End FoldCommands.

(** X14. After [foldAll] or [unfoldAll], [getFilesForCommit] builds the
    tree anew from the cached list of files, whether or not a tree is
    registered for the commit; it registers and returns the tree as
    [buildFileTree] made it, without the expansion towards the current
    file, and every folder in it is collapsed, respectively expanded. *)
Theorem fold_commands_rebuild_uniformly {P : NodePath} {C : Collation}
    (now : Z) (h : Store) (svc : GitService.t) (p : GitHistoryProvider.t)
    (hash : string) (files : Ref) (fs : list ChangedFile.t) (expand : bool) :
  CacheManager.get (GitService.cache svc) (GitService.filesKey hash)
    = Some (Files files) ->
  h !! files = Some fs ->
  let p0 := if expand then GitHistoryProvider.unfoldAll p
            else GitHistoryProvider.foldAll p in
  let tr := (GitHistoryProvider.buildFileTree p0 h files hash).2 in
  exists h' p',
    GitHistoryProvider.getFilesForCommit now h svc p0 hash
      = Done (Some (default [] (tr !! ""), h', svc, p'))
    /\ GitHistoryProvider.commitFiles p' !! hash = Some tr
    /\ GitHistoryProvider.manualFoldState p'
       = (if expand then GitHistoryProvider.unfolded
          else GitHistoryProvider.folded)
    /\ forall f, GitHistoryProvider.inTree (TreeItems.Folder f) tr ->
         TreeItems.collapsibleState f
         = if expand then TreeItems.Expanded else TreeItems.Collapsed.
Proof.
  intros Hhit Hfs p0 tr.
  assert (Hmode : GitHistoryProvider.isAuto
                    (GitHistoryProvider.manualFoldState p0) = false)
    by (by destruct expand).
  rewrite (getFilesForCommit_manual now h svc p0 hash files Hmode Hhit).
  rewrite (rebuild_manual svc p0 h files hash Hmode).
  eexists _, _. split; [reflexivity|]. split; [|split].
  - cbn. by rewrite lookup_insert_eq.
  - by destruct expand.
  - intros f Hin. rewrite (built_folder_states p0 h files hash fs f Hfs Hin).
    by destruct expand.
Qed.

Lemma fold_commands_rebuild_uniformly_witness :
  let svc := GitService.withCache Examples.plainService Examples.taggedCache in
  let p0 := GitHistoryProvider.unfoldAll (Examples.autoProvider "/ws/src/a.ts") in
  let tr := (GitHistoryProvider.buildFileTree
               (P := PosixPath.posix) (C := CodeUnitOrder.collation)
               p0 Examples.store 1%positive "abc123").2 in
  exists h' p',
    GitHistoryProvider.getFilesForCommit
      (P := PosixPath.posix) (C := CodeUnitOrder.collation)
      5 Examples.store svc p0 "abc123"
    = Done (Some (default [] (tr !! ""), h', svc, p')).
Proof.
  destruct (fold_commands_rebuild_uniformly
              (P := PosixPath.posix) (C := CodeUnitOrder.collation)
              5 Examples.store
              (GitService.withCache Examples.plainService Examples.taggedCache)
              (Examples.autoProvider "/ws/src/a.ts") "abc123" 1%positive
              Examples.changedFiles true eq_refl eq_refl)
    as (h' & p' & Hcall & _).
  by exists h', p'.
Defined.

(** X15. In the automatic mode the tree that a call of
    [getFilesForCommit] has registered is what every later call for the
    commit returns, without a query and without touching the store or
    the service. *)
Theorem registered_tree_is_served_in_auto_mode {P : NodePath} {C : Collation}
    (svc : GitService.t) (p : GitHistoryProvider.t) (h : Store) (files : Ref)
    (hash : string) :
  GitHistoryProvider.manualFoldState p = GitHistoryProvider.auto ->
  forall now h' svc',
    GitHistoryProvider.getFilesForCommit now h' svc'
      (GitHistoryProvider.rebuild svc p h files hash).2 hash
    = Done (Some ((GitHistoryProvider.rebuild svc p h files hash).1.1, h', svc',
                  (GitHistoryProvider.rebuild svc p h files hash).2)).
Proof.
  intros Hauto now h' svc'. unfold GitHistoryProvider.rebuild.
  destruct (GitHistoryProvider.buildFileTree p h files hash) as [h1 built].
  rewrite Hauto. cbn [GitHistoryProvider.isAuto fst snd].
  unfold GitHistoryProvider.getFilesForCommit.
  cbn [GitHistoryProvider.commitFiles GitHistoryProvider.withCommitFiles
       GitHistoryProvider.manualFoldState].
  rewrite lookup_insert_eq, Hauto. cbn [GitHistoryProvider.isAuto negb orb].
  rewrite bool_decide_eq_true_2 by eauto. done.
Qed.

Lemma registered_tree_is_served_in_auto_mode_witness :
  let p := Examples.autoProvider "/ws/src/a.ts" in
  let r := GitHistoryProvider.rebuild
             (P := PosixPath.posix) (C := CodeUnitOrder.collation)
             Examples.plainService p Examples.store 1%positive "abc123" in
  GitHistoryProvider.getFilesForCommit
    (P := PosixPath.posix) (C := CodeUnitOrder.collation)
    9 ∅ Examples.plainService r.2 "abc123"
  = Done (Some (r.1.1, ∅, Examples.plainService, r.2)).
Proof.
  exact (registered_tree_is_served_in_auto_mode
           (P := PosixPath.posix) (C := CodeUnitOrder.collation)
           Examples.plainService (Examples.autoProvider "/ws/src/a.ts")
           Examples.store 1%positive "abc123" eq_refl 9 ∅ Examples.plainService).
Defined.

(** ** [buildFileTree] called again *)

(** X16. [buildFileTree] called again on the array it has sorted leaves
    the array as it is and returns the same tree. *)
Theorem buildFileTree_again_changes_nothing
    {P : NodePath} {C : Collation} {O : CollationOrder C}
    (p : GitHistoryProvider.t) (h : Store) (files : Ref) (hash : string) :
  GitHistoryProvider.buildFileTree p
    (GitHistoryProvider.buildFileTree p h files hash).1 files hash
  = GitHistoryProvider.buildFileTree p h files hash.
Proof.
  unfold GitHistoryProvider.buildFileTree. cbn [fst].
  assert (Hsame : alter (JS.sort GitHistoryProvider.byPath) files
                    (alter (JS.sort GitHistoryProvider.byPath) files h)
                  = alter (JS.sort GitHistoryProvider.byPath) files h).
  { apply map_eq. intros k. destruct (decide (k = files)) as [->|Hk].
    - rewrite !lookup_alter_eq.
      match goal with |- _ <$> (_ <$> ?o) = _ => destruct o as [fs|] end;
        cbn; [|done].
      f_equal. apply sort_of_sorted.
      apply sort_sorted; [apply byPath_total | apply byPath_trans].
    - by rewrite !lookup_alter_ne. }
  by rewrite Hsame.
Qed.

Lemma buildFileTree_again_changes_nothing_witness :
  let p := Examples.autoProvider "/ws/src/a.ts" in
  GitHistoryProvider.buildFileTree
    (P := PosixPath.posix) (C := CodeUnitOrder.collation) p
    (GitHistoryProvider.buildFileTree
       (P := PosixPath.posix) (C := CodeUnitOrder.collation)
       p Examples.store 1%positive "abc123").1 1%positive "abc123"
  = GitHistoryProvider.buildFileTree
      (P := PosixPath.posix) (C := CodeUnitOrder.collation)
      p Examples.store 1%positive "abc123".
Proof.
  exact (buildFileTree_again_changes_nothing
           (P := PosixPath.posix) (C := CodeUnitOrder.collation)
           (O := codeUnit_order)
           (Examples.autoProvider "/ws/src/a.ts") Examples.store 1%positive
           "abc123").
Defined.

(** ** [buildFileTree]: where the nodes are filed *)

Section Placement.
Import TreeItems GitHistoryProvider.
Context {P : NodePath} {C : Collation}.
Implicit Types (tr : gmap string (list TreeItem)).

Lemma allPlaced_pushChild hash key x tr :
  allPlaced hash tr -> placed hash key x ->
  allPlaced hash (pushChild key x tr).
Proof.
  intros Htr Hx k items item. unfold pushChild.
  destruct (decide (k = key)) as [->|Hk].
  - rewrite lookup_insert_eq. intros [= <-] Hin.
    apply elem_of_app in Hin as [Hin|Hin].
    + destruct (tr !! key) as [old|] eqn:Hold; [|by apply elem_of_nil in Hin].
      by apply (Htr key old).
    + apply list_elem_of_singleton in Hin as ->. done.
  - rewrite lookup_insert_ne by done. apply Htr.
Qed.

Lemma walk_placed hash e names : forall w,
  allPlaced hash (tree w) ->
  allPlaced hash (tree (fold_left (addFolder e) names w))
  /\ currentPath (fold_left (addFolder e) names w)
     = fold_left joinFolder names (currentPath w).
Proof.
  induction names as [|name names IH]; intros w Hw; cbn [fold_left]; [done|].
  assert (Hstep : allPlaced hash (tree (addFolder e w name))
                  /\ currentPath (addFolder e w name)
                     = joinFolder (currentPath w) name).
  { unfold addFolder. destruct (folderMap w !! _); cbn; [done|].
    split; [|done]. by apply allPlaced_pushChild. }
  destruct Hstep as [Hp Hc]. destruct (IH _ Hp) as [Hp' Hc'].
  by rewrite Hc', Hc.
Qed.

Lemma addFile_placed p hash tr fm file :
  allPlaced hash tr -> allPlaced hash (addFile p hash (tr, fm) file).1.
Proof.
  intros Htr. unfold addFile. cbn [fst snd].
  destruct (walk_placed hash (allFoldersExpanded p)
              (removelast (JS.splitBy JS.isPathSeparator (ChangedFile.path file)))
              {| currentPath := ""; tree := tr; folderMap := fm |} Htr)
    as [Hp Hc].
  apply allPlaced_pushChild; [done|]. cbn. by rewrite Hc.
Qed.

Lemma fold_addFile_placed p hash files : forall acc,
  allPlaced hash acc.1 ->
  allPlaced hash (fold_left (addFile p hash) files acc).1.
Proof.
  induction files as [|file files IH]; intros [tr fm] Hacc; cbn [fold_left];
    [done|].
  apply IH. by apply addFile_placed.
Qed.

End Placement.

(** X17. In the tree [buildFileTree] returns, a folder in the child list
    of a key has the path of that key extended by its own name, and a
    file is in the child list of the folder path its own path leads to,
    is named by the last part of its path and carries the hash of the
    commit. *)
Theorem built_nodes_are_filed_under_their_parent
    {P : NodePath} {C : Collation}
    (p : GitHistoryProvider.t) (h : Store) (files : Ref) (hash key : string)
    (items : list TreeItems.TreeItem) (item : TreeItems.TreeItem) :
  (GitHistoryProvider.buildFileTree p h files hash).2 !! key = Some items ->
  item ∈ items ->
  placed hash key item.
Proof.
  unfold GitHistoryProvider.buildFileTree. cbn [snd].
  rewrite lookup_fmap. intros Hkey Hin.
  destruct (_ !! key) as [raw|] eqn:Hraw in Hkey; [|done].
  injection Hkey as <-. apply sort_elem_of in Hin.
  refine (fold_addFile_placed p hash _ (∅, ∅) _ key raw item Hraw Hin).
  intros k its it Hk. cbn [fst] in Hk. by rewrite lookup_empty in Hk.
Qed.

Lemma built_nodes_are_filed_under_their_parent_witness :
  let a := {| TreeItems.fileName := "a.ts"; TreeItems.commitHash := "abc123";
              TreeItems.filePath := "src/a.ts";
              TreeItems.isCurrentFile := true;
              TreeItems.status := modified |} in
  placed "abc123" "src" (TreeItems.File a).
Proof.
  refine (built_nodes_are_filed_under_their_parent
            (P := PosixPath.posix) (C := CodeUnitOrder.collation)
            (Examples.autoProvider "/ws/src/a.ts") Examples.store 1%positive
            "abc123" "src" _ _ eq_refl _).
  vm_compute. constructor.
Defined.

(** ** Finding the repositories *)

Section DetectionFacts.
Import RepoDetection.
Context {P : NodePath}.

Lemma mapSet_entries {V} k (v : V) m e :
  e ∈ mapSet k v m -> e = (k, v) \/ e ∈ m.
Proof.
  induction m as [|[k0 v0] m IH]; cbn.
  - intros Hin. apply list_elem_of_singleton in Hin. by left.
  - destruct (String.eqb k0 k).
    + intros Hin. apply elem_of_cons in Hin as [->|Hin]; [by left|].
      right. by apply elem_of_cons; right.
    + intros Hin. apply elem_of_cons in Hin as [->|Hin].
      * right. by apply elem_of_cons; left.
      * destruct (IH Hin) as [->|Hm]; [by left|].
        right. by apply elem_of_cons; right.
Qed.

Lemma mapSet_key_of {V} k (v : V) m k' :
  k' ∈ (mapSet k v m).*1 -> k' = k \/ k' ∈ m.*1.
Proof.
  intros Hin. apply list_elem_of_fmap in Hin as ([k1 v1] & -> & Hin).
  apply mapSet_entries in Hin as [[= -> ->]|Hin]; [by left|].
  right. apply list_elem_of_fmap. by exists (k1, v1).
Qed.

Lemma mapSet_keys {V} k (v : V) m : NoDup m.*1 -> NoDup (mapSet k v m).*1.
Proof.
  induction m as [|[k0 v0] m IH]; intros Hnd; cbn.
  - apply NoDup_singleton.
  - apply NoDup_cons in Hnd as [Hk0 Hnd]. cbn in Hk0.
    destruct (String.eqb_spec k0 k) as [->|Hne]; cbn.
    + by apply NoDup_cons.
    + apply NoDup_cons. split; [|by apply IH].
      intros Hin. apply mapSet_key_of in Hin as [?|?]; [congruence | done].
Qed.

Lemma matchSubmoduleLine_sound line p :
  matchSubmoduleLine line = Some p ->
  p <> "" /\ forallb (fun c => negb (JS.isWhiteSpace c)) (JS.chars p) = true.
Proof.
  unfold matchSubmoduleLine.
  destruct (JS.takeWhile JS.isLowerHex _); [done|].
  destruct (JS.takeWhile JS.isWhiteSpace _); [done|].
  pose proof (takeWhile_all (fun c => negb (JS.isWhiteSpace c))
                (JS.dropWhile JS.isWhiteSpace
                   (JS.dropWhile JS.isLowerHex
                      match JS.dropWhile JS.isWhiteSpace (JS.chars line) with
                      | [] => JS.dropWhile JS.isWhiteSpace (JS.chars line)
                      | c :: r =>
                          if isSign c then r
                          else JS.dropWhile JS.isWhiteSpace (JS.chars line)
                      end))) as Hall.
  destruct (JS.takeWhile (fun c => negb (JS.isWhiteSpace c)) _) as [|c cs];
    [done|].
  intros Heq. assert (p = JS.str (c :: cs)) as -> by congruence.
  by rewrite chars_str.
Qed.

Lemma registerSubmodules_registered host workspaceRoot lines : forall subs,
  registered host workspaceRoot subs ->
  registered host workspaceRoot
    (registerSubmodules host workspaceRoot lines subs).
Proof.
  induction lines as [|line lines IH]; intros subs Hsubs; cbn; [done|].
  destruct (matchSubmoduleLine line) as [p|] eqn:Hm; [|by apply IH].
  destruct (checkIsRepo host (join workspaceRoot p)) as [[|]|] eqn:Hprobe;
    [|by apply IH|done].
  apply IH. destruct Hsubs as [Hnd Hall].
  destruct (matchSubmoduleLine_sound line p Hm) as [Hne Hws].
  split; [by apply mapSet_keys|].
  intros path info Hin. apply mapSet_entries in Hin as [[= -> ->]|Hin].
  - done.
  - by apply Hall.
Qed.

End DetectionFacts.

Lemma initialised_facts {P : NodePath}
    (host : RepoDetection.Host) (workspaceRoot : string) :
  let s := RepoDetection.initialised host workspaceRoot in
  registered host workspaceRoot (GitService.submoduleRepos s)
  /\ (GitService.isGitRepo s = true
      <-> RepoDetection.checkIsRepo host workspaceRoot = Some true)
  /\ (GitService.isGitRepo s = false -> GitService.submoduleRepos s = [])
  /\ RepoDetection.isValidRepo s = GitService.isGitRepo s
  /\ GitService.workspaceRoot s = workspaceRoot
  /\ GitService.mainGit s = simpleGit workspaceRoot.
Proof.
  intros s. subst s.
  unfold RepoDetection.initialised, RepoDetection.initializeRepos,
    RepoDetection.isValidRepo.
  cbn [RepoDetection.construct GitService.mainGit baseDir].
  assert (Hnil : registered host workspaceRoot []).
  { split; [constructor|]. intros path info Hin. by apply elem_of_nil in Hin. }
  destruct (RepoDetection.checkIsRepo host workspaceRoot) as [[|]|] eqn:Hmain;
    cbn; [|done..].
  unfold RepoDetection.detectSubmodules. cbn.
  destruct (RepoDetection.subModuleStatus host) as [result|]; cbn; [|done].
  split; [|done]. by apply registerSubmodules_registered.
Qed.

(** X18. Once [initializeRepos] has settled: the workspace counts as a
    repository exactly when [checkIsRepo] said so without failing;
    submodules are registered only in a repository, so [isValidRepo] is
    just [isGitRepo]; every registered submodule has a name of its own,
    not empty and free of white space, was probed successfully, and is
    served by a session bound to its directory under the workspace. *)
Theorem initialised_service_is_consistent {P : NodePath}
    (host : RepoDetection.Host) (workspaceRoot : string) :
  let s := RepoDetection.initialised host workspaceRoot in
  registered host workspaceRoot (GitService.submoduleRepos s)
  /\ (GitService.isGitRepo s = true
      <-> RepoDetection.checkIsRepo host workspaceRoot = Some true)
  /\ (GitService.isGitRepo s = false -> GitService.submoduleRepos s = [])
  /\ RepoDetection.isValidRepo s = GitService.isGitRepo s
  /\ GitService.workspaceRoot s = workspaceRoot
  /\ GitService.mainGit s = simpleGit workspaceRoot.
Proof. apply initialised_facts. Qed.

(** X19. On an initialised service the resolver has no repository for a
    file exactly when the workspace is no repository; a repository it
    returns is served by a session bound to its own root, was probed
    successfully, and is the main repository or has a root that is a
    prefix of the file. *)
Theorem initialised_resolver_serves_registered_roots {P : NodePath}
    (host : RepoDetection.Host) (workspaceRoot filePath : string) :
  let s := RepoDetection.initialised host workspaceRoot in
  (GitService.getRepoForFile s filePath = None
   <-> RepoDetection.checkIsRepo host workspaceRoot <> Some true)
  /\ forall repo,
       GitService.getRepoForFile s filePath = Some repo ->
       git repo = simpleGit (root repo)
       /\ RepoDetection.checkIsRepo host (root repo) = Some true
       /\ (root repo = workspaceRoot
           \/ JS.startsWith (normalize filePath) (normalize (root repo)) = true).
Proof.
  intros s.
  destruct (initialised_facts host workspaceRoot)
    as ([_ Hreg] & Hmain & Hnone & _ & Hroot & Hgit).
  fold s in Hreg, Hmain, Hnone, Hroot, Hgit.
  unfold GitService.getRepoForFile.
  destruct (find _ (GitService.submoduleRepos s)) as [[path info]|] eqn:Hfind.
  - apply find_first in Hfind as (l1 & l2 & Hsplit & Hunder & _).
    assert (Hin : (path, info) ∈ GitService.submoduleRepos s).
    { rewrite Hsplit. apply elem_of_app. right. by apply elem_of_cons; left. }
    destruct (Hreg path info Hin) as (Hr & Hg & Hprobe & _).
    assert (Hrepo : GitService.isGitRepo s = true).
    { destruct (GitService.isGitRepo s) eqn:E; [done|].
      rewrite (Hnone eq_refl) in Hin. by apply elem_of_nil in Hin. }
    split.
    + split; [done|]. intros Hne. by apply Hmain in Hrepo.
    + intros repo Heq. assert (repo = info) as -> by (cbn in Heq; congruence).
      split; [by rewrite Hg, Hr|]. split; [by rewrite Hr|]. right.
      cbn [fst] in Hunder. by rewrite Hr, <- Hroot.
  - destruct (GitService.isGitRepo s) eqn:Hrepo.
    + pose proof (proj1 Hmain eq_refl) as Hyes. split.
      * split; [done|]. intros Hne. by destruct Hne.
      * intros repo Heq.
        assert (repo = {| root := GitService.workspaceRoot s;
                          git := GitService.mainGit s |}) as ->
          by congruence.
        cbn. rewrite Hgit, Hroot. eauto.
    + split; [|done]. split; [|done]. intros _ Hyes.
      apply Hmain in Hyes. congruence.
Qed.

Section StatusLines.
Import RepoDetection.

Lemma lowerHex_not_whiteSpace c :
  JS.isLowerHex c = true -> JS.isWhiteSpace c = false.
Proof.
  unfold JS.isLowerHex, JS.isDigit, JS.isWhiteSpace.
  generalize (nat_of_ascii c). intros n H.
  apply orb_prop in H as [H|H]; apply andb_prop in H as [H1 H2];
    apply Nat.leb_le in H1, H2;
    repeat (apply orb_false_intro); try apply andb_false_iff;
    rewrite ?Nat.leb_gt, ?Nat.eqb_neq; try lia.
Qed.

Lemma lowerHex_not_sign c : JS.isLowerHex c = true -> isSign c = false.
Proof.
  intros H. unfold isSign, JS.isChar.
  destruct (Ascii.eqb_spec "+" c) as [<-|]; [discriminate H|].
  destruct (Ascii.eqb_spec "-" c) as [<-|]; [discriminate H | done].
Qed.

Lemma sign_not_whiteSpace c : isSign c = true -> JS.isWhiteSpace c = false.
Proof.
  unfold isSign, JS.isChar. intros H.
  apply orb_prop in H as [H|H]; apply Ascii.eqb_eq in H as <-; reflexivity.
Qed.

Lemma whiteSpace_not_lowerHex c :
  JS.isWhiteSpace c = true -> JS.isLowerHex c = false.
Proof.
  intros H. destruct (JS.isLowerHex c) eqn:E; [|done].
  apply lowerHex_not_whiteSpace in E. congruence.
Qed.

(** The tail of a status line after the optional sign. *)
Lemma matchSubmoduleLine_tail hash blanks path rest :
  hash <> [] -> forallb JS.isLowerHex hash = true ->
  blanks <> [] -> forallb JS.isWhiteSpace blanks = true ->
  path <> [] -> forallb (fun c => negb (JS.isWhiteSpace c)) path = true ->
  JS.stopsAt (fun c => negb (JS.isWhiteSpace c)) rest ->
  match JS.takeWhile JS.isLowerHex (hash ++ blanks ++ path ++ rest) with
  | [] => None
  | _ :: _ =>
      let r2 := JS.dropWhile JS.isLowerHex (hash ++ blanks ++ path ++ rest) in
      match JS.takeWhile JS.isWhiteSpace r2 with
      | [] => None
      | _ :: _ =>
          match
            JS.takeWhile (fun c => negb (JS.isWhiteSpace c))
              (JS.dropWhile JS.isWhiteSpace r2)
          with
          | [] => None
          | submodulePath => Some (JS.str submodulePath)
          end
      end
  end = Some (JS.str path).
Proof.
  intros Hh Hhex Hb Hws Hp Hpath Hrest.
  assert (Hstop1 : JS.stopsAt JS.isLowerHex (blanks ++ path ++ rest)).
  { destruct blanks as [|b bs]; [done|]. cbn in *.
    apply andb_prop in Hws as [Hb0 _]. by apply whiteSpace_not_lowerHex. }
  assert (Hstop2 : JS.stopsAt JS.isWhiteSpace (path ++ rest)).
  { destruct path as [|c cs]; [done|]. cbn in *.
    apply andb_prop in Hpath as [Hc _]. by apply negb_true_iff in Hc. }
  rewrite (takeWhile_app _ hash _ Hhex Hstop1), (dropWhile_app _ hash _ Hhex Hstop1).
  destruct hash as [|h0 hs]; [done|]. cbn zeta.
  rewrite (takeWhile_app _ blanks _ Hws Hstop2), (dropWhile_app _ blanks _ Hws Hstop2).
  destruct blanks as [|b0 bs]; [done|].
  rewrite (takeWhile_app _ path _ Hpath Hrest).
  by destruct path.
Qed.

End StatusLines.

(** X20. A line of [git submodule status] (white space, an optional
    sign, a hash in lower-case hexadecimal digits, white space, a path
    without white space, and then nothing or white space and more) is
    matched, and the path is what the expression captures. *)
Theorem submodule_status_line_is_read
    (indent : list ascii) (sign : option ascii)
    (hash blanks path rest : list ascii) :
  forallb JS.isWhiteSpace indent = true ->
  (forall c, sign = Some c -> RepoDetection.isSign c = true) ->
  hash <> [] -> forallb JS.isLowerHex hash = true ->
  blanks <> [] -> forallb JS.isWhiteSpace blanks = true ->
  path <> [] -> forallb (fun c => negb (JS.isWhiteSpace c)) path = true ->
  JS.stopsAt (fun c => negb (JS.isWhiteSpace c)) rest ->
  RepoDetection.matchSubmoduleLine
    (JS.str (indent ++ option_list sign ++ hash ++ blanks ++ path ++ rest))
  = Some (JS.str path).
Proof.
  intros Hindent Hsign Hh Hhex Hb Hws Hp Hpath Hrest.
  unfold RepoDetection.matchSubmoduleLine. rewrite chars_str.
  assert (Hfirst : JS.isWhiteSpace <$> head hash = Some false).
  { destruct hash as [|h0 hs]; [done|]. cbn in *.
    apply andb_prop in Hhex as [Hh0 _]. by rewrite lowerHex_not_whiteSpace. }
  assert (Hstop0 : JS.stopsAt JS.isWhiteSpace
                     (option_list sign ++ hash ++ blanks ++ path ++ rest)).
  { destruct sign as [c|]; cbn.
    - by apply sign_not_whiteSpace, Hsign.
    - destruct hash as [|h0 hs]; [done|]. cbn in *. congruence. }
  rewrite (dropWhile_app _ indent _ Hindent Hstop0).
  destruct sign as [c|].
  - change (option_list (Some c)) with [c]. cbn [app]. cbv beta iota zeta.
    rewrite (Hsign c eq_refl).
    by apply matchSubmoduleLine_tail.
  - change (option_list (@None ascii)) with (@nil ascii).
    destruct hash as [|h0 hs] eqn:Hhash; [done|]. cbn [app]. cbv beta iota zeta.
    assert (Hnot : RepoDetection.isSign h0 = false).
    { cbn in Hhex. apply andb_prop in Hhex as [Hh0 _].
      by apply lowerHex_not_sign. }
    rewrite Hnot. change (h0 :: hs ++ blanks ++ path ++ rest)
      with ((h0 :: hs) ++ blanks ++ path ++ rest).
    by apply matchSubmoduleLine_tail.
Qed.

Lemma submodule_status_line_is_read_witness :
  RepoDetection.matchSubmoduleLine "+1a2b3c libs/core (heads/main)"
  = Some "libs/core".
Proof.
  refine (submodule_status_line_is_read [] (Some "+"%char)
            (JS.chars "1a2b3c") [" "%char] (JS.chars "libs/core")
            (JS.chars " (heads/main)") _ _ _ _ _ _ _ _ _);
    try reflexivity; try discriminate.
  by intros c [= <-].
Defined.

(** ** The GitHub address *)

Section RemoteFacts.
Import GitHubRemote.

Example search_examples :
  search (JS.chars "https://github.com/owner/repo.git") = Some ("owner", "repo")
  /\ search (JS.chars "git@github.com:owner/repo") = Some ("owner", "repo")
  /\ search (JS.chars "https://github.com/owner/.git") = Some ("owner", ".git")
  /\ search (JS.chars "https://github.com/owner/repo.git.git")
     = Some ("owner", "repo.git")
  /\ search (JS.chars "https://github.com/owner/repo/") = None
  /\ search (JS.chars "https://gitlab.com/owner/repo") = None
  /\ search (JS.chars "https://github.com/github.com/owner/repo")
     = Some ("owner", "repo").
Proof. repeat split; reflexivity. Qed.


Lemma str_app a b : JS.str (a ++ b) = JS.str a +:+ JS.str b.
Proof.
  induction a as [|c a IH]; [done|].
  change (JS.str ((c :: a) ++ b)) with (String c (JS.str (a ++ b))).
  change (JS.str (c :: a) +:+ JS.str b) with (String c (JS.str a +:+ JS.str b)).
  by rewrite IH.
Qed.

Lemma chars_app a b : JS.chars (a +:+ b) = JS.chars a ++ JS.chars b.
Proof.
  induction a as [|c a IH]; [done|].
  change (JS.chars (String c a +:+ b)) with (c :: JS.chars (a +:+ b)).
  by rewrite IH.
Qed.

Lemma repoName_sound c rest repo :
  repoName c rest = Some repo ->
  repo <> [] /\ forallb notSlash repo = true.
Proof.
  revert c repo. induction rest as [|c' rest IH]; intros c repo; cbn.
  - destruct (notSlash c) eqn:Hc; [|done]. intros [= <-]. cbn. by rewrite Hc.
  - destruct (notSlash c) eqn:Hc; [|done].
    destruct (endsHere (c' :: rest)).
    + intros [= <-]. cbn. by rewrite Hc.
    + destruct (repoName c' rest) as [r|] eqn:Hr; [|done].
      intros [= <-]. destruct (IH _ _ Hr) as [_ Hall].
      split; [done|]. cbn. by rewrite Hc.
Qed.

Lemma repoName_no_slash c rest repo :
  repoName c rest = Some repo -> existsb (JS.isChar "/") (c :: rest) = false.
Proof.
  revert c repo. induction rest as [|c2 rest IH]; intros c repo.
  - cbn [repoName existsb]. unfold notSlash.
    by destruct (JS.isChar "/" c).
  - change (repoName c (c2 :: rest)) with
      (if notSlash c then
         if endsHere (c2 :: rest) then Some [c]
         else cons c <$> repoName c2 rest
       else None).
    change (existsb (JS.isChar "/") (c :: c2 :: rest)) with
      (JS.isChar "/" c || existsb (JS.isChar "/") (c2 :: rest)).
    unfold notSlash at 1. destruct (JS.isChar "/" c); [done|]. cbn [negb orb].
    destruct (endsHere (c2 :: rest)) eqn:Hends.
    + intros _. unfold endsHere in Hends.
      apply orb_prop in Hends as [Hends|Hends]; [|discriminate Hends].
      apply String.eqb_eq in Hends. apply (f_equal JS.chars) in Hends.
      rewrite chars_str in Hends. by rewrite Hends.
    + destruct (repoName c2 rest) as [r|] eqn:Hr; [|done].
      intros _. by apply (IH c2 r).
Qed.

(** The name of a repository is what stands before [.git]. *)
Lemma repoName_dot_git repo : forall c,
  forallb notSlash (c :: repo) = true ->
  repoName c (repo ++ JS.chars ".git") = Some (c :: repo).
Proof.
  induction repo as [|c' repo IH]; intros c Hall; cbn in Hall.
  - apply andb_prop in Hall as [Hc _]. cbn. by rewrite Hc.
  - apply andb_prop in Hall as [Hc Hall].
    cbn [app repoName]. rewrite Hc.
    assert (Hends : endsHere (c' :: repo ++ JS.chars ".git") = false).
    { unfold endsHere. apply orb_false_intro; apply String.eqb_neq; intros Heq;
        apply (f_equal String.length) in Heq;
        rewrite length_str in Heq; cbn in Heq;
        rewrite length_app in Heq; cbn in Heq; lia. }
    rewrite Hends. by rewrite IH.
Qed.

(** Without [.git] at its end the name is all that is left. *)
Lemma repoName_plain repo : forall c,
  forallb notSlash (c :: repo) = true ->
  (forall p, p <> [] -> c :: repo <> p ++ JS.chars ".git") ->
  repoName c repo = Some (c :: repo).
Proof.
  induction repo as [|c' repo IH]; intros c Hall Hplain; cbn in Hall.
  - apply andb_prop in Hall as [Hc _]. cbn. by rewrite Hc.
  - apply andb_prop in Hall as [Hc Hall].
    cbn [repoName]. rewrite Hc.
    assert (Hends : endsHere (c' :: repo) = false).
    { unfold endsHere. apply orb_false_intro; apply String.eqb_neq; intros Heq.
      - apply (Hplain [c]); [done|]. cbn. f_equal.
        by rewrite <- (chars_str (c' :: repo)), Heq.
      - discriminate Heq. }
    rewrite Hends. rewrite IH; [done | done |].
    intros p Hp Heq. apply (Hplain (c :: p)); [done|]. cbn. by rewrite Heq.
Qed.

(** The expression matches where [github.com] stands in front of the
    owner and the name. *)
Lemma matchHere_at sep owner repo suffix :
  isSeparator sep = true ->
  owner <> [] -> forallb notSlash owner = true ->
  repo <> [] -> forallb notSlash repo = true ->
  (suffix = JS.chars ".git"
   \/ suffix = [] /\ forall p, p <> [] -> repo <> p ++ JS.chars ".git") ->
  matchHere (JS.chars "github.com" ++ sep :: owner ++ "/"%char :: repo ++ suffix)
  = Some (JS.str owner, JS.str repo).
Proof.
  intros Hsep Ho Howner Hr Hrepo Hsuffix.
  unfold matchHere.
  assert (Hstart : JS.startsWith
            (JS.str (JS.chars "github.com" ++ sep :: owner
                       ++ "/"%char :: repo ++ suffix)) "github.com" = true)
    by reflexivity.
  rewrite Hstart.
  change (drop 10 (JS.chars "github.com" ++ sep :: owner
                     ++ "/"%char :: repo ++ suffix))
    with (sep :: owner ++ "/"%char :: repo ++ suffix).
  cbv beta iota. rewrite Hsep.
  assert (Hstop : JS.stopsAt notSlash ("/"%char :: repo ++ suffix)) by done.
  rewrite (takeWhile_app _ owner _ Howner Hstop),
          (dropWhile_app _ owner _ Howner Hstop).
  destruct owner as [|o owner]; [done|].
  destruct repo as [|c repo]; [done|]. cbn [app].
  destruct Hsuffix as [->|[-> Hplain]].
  - by rewrite repoName_dot_git.
  - rewrite app_nil_r. by rewrite repoName_plain.
Qed.

(** No match begins eleven characters or more before the second last
    slash. *)
Lemma last_slash_after dropped middle tail :
  existsb (JS.isChar "/")
    (List.tl (JS.dropWhile notSlash (dropped ++ "/"%char :: middle
                                       ++ "/"%char :: tail))) = true.
Proof.
  assert (Hhas : forall l, existsb (JS.isChar "/")
                   (l ++ "/"%char :: middle ++ "/"%char :: tail) = true).
  { intros l. rewrite existsb_app. cbn. by rewrite orb_true_r. }
  induction dropped as [|u dropped IH]; cbn.
  - rewrite existsb_app. cbn. by rewrite orb_true_r.
  - destruct (notSlash u); [exact IH|]. cbn. apply Hhas.
Qed.

Lemma matchHere_too_early front middle tail :
  (11 <= length front)%nat ->
  matchHere (front ++ "/"%char :: middle ++ "/"%char :: tail) = None.
Proof.
  intros Hlen. unfold matchHere.
  destruct (JS.startsWith _ _); [|done].
  destruct (drop 10 _) as [|c r] eqn:Hdrop; [done|].
  destruct (isSeparator c); [|done].
  assert (Hr : r = drop 11 front ++ "/"%char :: middle ++ "/"%char :: tail).
  { change r with (List.tl (c :: r)). rewrite <- Hdrop.
    rewrite <- (drop_app_le front _ 11) by lia.
    generalize (front ++ "/"%char :: middle ++ "/"%char :: tail). intros l.
    do 11 (destruct l as [|? l]; [done|]). done. }
  pose proof (last_slash_after (drop 11 front) middle tail) as Hlast.
  rewrite <- Hr in Hlast.
  destruct (JS.takeWhile notSlash r) as [|o owner]; [done|].
  destruct (JS.dropWhile notSlash r) as [|slash [|c' rest]]; [done..|].
  cbn [List.tl] in Hlast.
  destruct (repoName c' rest) as [repo|] eqn:Hrepo; [|done].
  apply repoName_no_slash in Hrepo. congruence.
Qed.

(** A separator is needed ten characters after the start of a match. *)
Lemma matchHere_needs_separator cs :
  forallb (fun c => negb (isSeparator c)) (take 11 cs) = true ->
  matchHere cs = None.
Proof.
  intros Hnone. unfold matchHere.
  destruct (JS.startsWith _ _); [|done].
  destruct (drop 10 cs) as [|c r] eqn:Hdrop; [done|].
  assert (Hc : isSeparator c = false).
  { rewrite <- (take_drop 10 cs), Hdrop in Hnone.
    assert (Hten : length (take 10 cs) = 10%nat).
    { rewrite length_take. apply (f_equal length) in Hdrop.
      rewrite length_drop in Hdrop. cbn in Hdrop. lia. }
    rewrite take_app_ge in Hnone by lia. rewrite Hten in Hnone.
    rewrite forallb_app in Hnone. apply andb_prop in Hnone as [_ Hnone].
    cbn in Hnone. apply andb_prop in Hnone as [Hnone _].
    by apply negb_true_iff in Hnone. }
  by rewrite Hc.
Qed.

Lemma search_cons c cs :
  search (c :: cs)
  = match matchHere (c :: cs) with Some m => Some m | None => search cs end.
Proof. done. Qed.

Lemma search_skips pre rest :
  (forall k, (k < length pre)%nat -> matchHere (drop k pre ++ rest) = None) ->
  search (pre ++ rest) = search rest.
Proof.
  induction pre as [|c pre IH]; intros Hnone; [done|].
  cbn [app]. rewrite search_cons.
  assert (H0 : matchHere (c :: pre ++ rest) = None)
    by (apply (Hnone 0%nat); cbn; lia).
  rewrite H0. apply IH.
  intros k Hk. apply (Hnone (S k)). cbn. lia.
Qed.

Lemma search_found cs m : matchHere cs = Some m -> search cs = Some m.
Proof. intros H. destruct cs; cbn [search]; by rewrite H. Qed.

End RemoteFacts.

Section RemoteShape.
Import GitHubRemote.

Lemma startsWith_chars p : forall cs,
  JS.startsWith (JS.str cs) p = true ->
  cs = JS.chars p ++ drop (String.length p) cs.
Proof.
  induction p as [|a p IH]; intros cs; [done|].
  destruct cs as [|b cs]; [done|].
  change (JS.str (b :: cs)) with (String b (JS.str cs)).
  cbn [JS.startsWith]. intros H. apply andb_prop in H as [Hab H].
  apply Ascii.eqb_eq in Hab as ->. cbn. f_equal. by apply IH.
Qed.

Lemma repoName_shape c rest repo :
  repoName c rest = Some repo ->
  c :: rest = repo \/ c :: rest = repo ++ JS.chars ".git".
Proof.
  revert c repo. induction rest as [|c2 rest IH]; intros c repo.
  - cbn [repoName]. destruct (notSlash c); [|done]. cbn. intros [= <-]. by left.
  - change (repoName c (c2 :: rest)) with
      (if notSlash c then
         if endsHere (c2 :: rest) then Some [c]
         else cons c <$> repoName c2 rest
       else None).
    destruct (notSlash c); [|done].
    destruct (endsHere (c2 :: rest)) eqn:Hends.
    + intros [= <-]. right. unfold endsHere in Hends.
      apply orb_prop in Hends as [Hends|Hends]; [|discriminate Hends].
      apply String.eqb_eq in Hends. apply (f_equal JS.chars) in Hends.
      rewrite chars_str in Hends. by rewrite Hends.
    + destruct (repoName c2 rest) as [r|] eqn:Hr; [|done].
      intros [= <-]. destruct (IH _ _ Hr) as [->| ->]; [by left | by right].
Qed.

Lemma matchHere_sound cs owner repo :
  matchHere cs = Some (owner, repo) ->
  exists sep tail,
    cs = JS.chars "github.com" ++ sep :: JS.chars owner ++ "/"%char :: tail
    /\ isSeparator sep = true
    /\ owner <> "" /\ forallb notSlash (JS.chars owner) = true
    /\ repo <> "" /\ forallb notSlash (JS.chars repo) = true
    /\ (tail = JS.chars repo \/ tail = JS.chars repo ++ JS.chars ".git").
Proof.
  unfold matchHere.
  destruct (JS.startsWith _ _) eqn:Hstart; [|done].
  apply startsWith_chars in Hstart.
  change (String.length "github.com") with 10%nat in Hstart.
  destruct (drop 10 cs) as [|sep r] eqn:Hdrop; [done|].
  destruct (isSeparator sep) eqn:Hsep; [|done].
  pose proof (takeWhile_dropWhile notSlash r) as Hsplit.
  pose proof (takeWhile_all notSlash r) as Hall.
  pose proof (dropWhile_stops notSlash r) as Hstop.
  destruct (JS.takeWhile notSlash r) as [|o os]; [done|].
  destruct (JS.dropWhile notSlash r) as [|slash [|c' rest]]; [done..|].
  destruct (repoName c' rest) as [name|] eqn:Hname; [|done].
  intros Heq.
  assert (owner = JS.str (o :: os)) as -> by congruence.
  assert (repo = JS.str name) as -> by congruence.
  destruct (repoName_sound _ _ _ Hname) as [Hne Hfree].
  exists sep, (c' :: rest). rewrite !chars_str.
  assert (slash = "/"%char) as ->.
  { cbn in Hstop. unfold notSlash, JS.isChar in Hstop.
    apply negb_false_iff, Ascii.eqb_eq in Hstop. done. }
  split; [by rewrite Hstart at 1; rewrite Hsplit|].
  split; [done|]. split; [done|]. split; [done|].
  split; [by destruct name|]. split; [done|].
  by apply repoName_shape.
Qed.

Lemma search_sound cs owner repo :
  search cs = Some (owner, repo) ->
  exists pre sep tail,
    cs = pre ++ JS.chars "github.com" ++ sep :: JS.chars owner
             ++ "/"%char :: tail
    /\ isSeparator sep = true
    /\ owner <> "" /\ forallb notSlash (JS.chars owner) = true
    /\ repo <> "" /\ forallb notSlash (JS.chars repo) = true
    /\ (tail = JS.chars repo \/ tail = JS.chars repo ++ JS.chars ".git").
Proof.
  induction cs as [|c cs IH].
  - cbn [search]. destruct (matchHere []) as [[o r]|] eqn:Hm; [|done].
    intros [= -> ->]. apply matchHere_sound in Hm as (sep & tail & H).
    by exists [], sep, tail.
  - rewrite search_cons. destruct (matchHere (c :: cs)) as [[o r]|] eqn:Hm.
    + intros [= -> ->]. apply matchHere_sound in Hm as (sep & tail & H).
      by exists [], sep, tail.
    + intros Hs. destruct (IH Hs) as (pre & sep & tail & -> & H).
      by exists (c :: pre), sep, tail.
Qed.

End RemoteShape.

Lemma append_empty s : s +:+ "" = s.
Proof.
  induction s as [|c s IH]; [done|].
  change (String c s +:+ "") with (String c (s +:+ "")). by rewrite IH.
Qed.

Lemma forallb_take {A} (p : A -> bool) n l :
  forallb p l = true -> forallb p (take n l) = true.
Proof.
  revert n. induction l as [|x l IH]; intros [|n] H; cbn in *; try done.
  apply andb_prop in H as [-> H]. by apply IH.
Qed.

Lemma forallb_drop {A} (p : A -> bool) n l :
  forallb p l = true -> forallb p (drop n l) = true.
Proof.
  revert n. induction l as [|x l IH]; intros [|n] H; cbn in *; try done.
  apply andb_prop in H as [_ H]. by apply IH.
Qed.

(** X21. When the fetch address of [origin] ends in [github.com], a
    slash or a colon, an owner, a slash and a name, with or without
    [.git], the answer is the https address of the project: after a
    slash whatever stands in front, after a colon when neither a colon
    nor a slash stands in front. *)
Theorem github_remote_is_recognised
    (remotes : list GitHubRemote.Remote) (origin : GitHubRemote.Remote)
    (pre : list ascii) (sep : ascii) (owner repo suffix : list ascii) :
  find (fun r => String.eqb (GitHubRemote.name r) "origin") remotes
    = Some origin ->
  GitHubRemote.fetch (GitHubRemote.refs origin)
    = JS.str (pre ++ JS.chars "github.com" ++ sep :: owner
                ++ "/"%char :: repo ++ suffix) ->
  sep = "/"%char
  \/ sep = ":"%char
     /\ forallb (fun c => negb (GitHubRemote.isSeparator c)) pre = true ->
  owner <> [] -> forallb GitHubRemote.notSlash owner = true ->
  repo <> [] -> forallb GitHubRemote.notSlash repo = true ->
  suffix = JS.chars ".git"
  \/ suffix = [] /\ (forall p, p <> [] -> repo <> p ++ JS.chars ".git") ->
  GitHubRemote.originUrl remotes
  = Some ("https://github.com/" +:+ JS.str owner +:+ "/" +:+ JS.str repo).
Proof.
  intros Hfind Hfetch Hsep Ho Howner Hr Hrepo Hsuffix.
  unfold GitHubRemote.originUrl. rewrite Hfind, Hfetch.
  assert (Htruthy : forall l, JS.truthy (JS.str (l ++ JS.chars "github.com"
            ++ sep :: owner ++ "/"%char :: repo ++ suffix)) = true)
    by (by intros [|? ?]).
  cbv zeta. rewrite !Htruthy. cbv beta iota. rewrite chars_str.
  assert (Hsearch : GitHubRemote.search
            (pre ++ JS.chars "github.com" ++ sep :: owner
               ++ "/"%char :: repo ++ suffix)
          = Some (JS.str owner, JS.str repo)); [|by rewrite Hsearch].
  rewrite search_skips.
  - apply search_found, matchHere_at; try done.
    destruct Hsep as [->|[-> _]]; done.
  - intros k Hk.
    assert (Hlen : (1 <= length (drop k pre))%nat)
      by (rewrite length_drop; lia).
    destruct Hsep as [->|[-> Hpre]].
    + rewrite (app_assoc (drop k pre)).
      apply matchHere_too_early. rewrite length_app. cbn. lia.
    + apply matchHere_needs_separator.
      rewrite (app_assoc (drop k pre)).
      rewrite take_app_le by (rewrite length_app; cbn; lia).
      apply forallb_take. rewrite forallb_app.
      by rewrite (forallb_drop _ k pre Hpre).
Qed.

Lemma github_remote_is_recognised_witness :
  GitHubRemote.originUrl
    [ {| GitHubRemote.name := "upstream";
         GitHubRemote.refs :=
           {| GitHubRemote.fetch := "https://example.org/x.git";
              GitHubRemote.push := "" |} |};
      {| GitHubRemote.name := "origin";
         GitHubRemote.refs :=
           {| GitHubRemote.fetch := "git@github.com:owner/repo.git";
              GitHubRemote.push := "" |} |} ]
  = Some "https://github.com/owner/repo".
Proof.
  refine (github_remote_is_recognised
            [ {| GitHubRemote.name := "upstream";
                 GitHubRemote.refs :=
                   {| GitHubRemote.fetch := "https://example.org/x.git";
                      GitHubRemote.push := "" |} |};
              {| GitHubRemote.name := "origin";
                 GitHubRemote.refs :=
                   {| GitHubRemote.fetch := "git@github.com:owner/repo.git";
                      GitHubRemote.push := "" |} |} ]
            {| GitHubRemote.name := "origin";
               GitHubRemote.refs :=
                 {| GitHubRemote.fetch := "git@github.com:owner/repo.git";
                    GitHubRemote.push := "" |} |}
            (JS.chars "git@") ":"
            (JS.chars "owner") (JS.chars "repo") (JS.chars ".git")
            eq_refl eq_refl _ _ eq_refl _ eq_refl _).
  - right. split; reflexivity.
  - discriminate.
  - discriminate.
  - by left.
Defined.

(** X22. Every address [getGitHubRemoteUrl] returns comes from a remote
    named [origin] whose fetch address (or, when that is empty, push
    address) ends in [github.com], a colon or a slash, an owner, a slash
    and a name with or without [.git]; the address is the https address
    of that owner and name, both not empty and free of slashes. *)
Theorem github_address_has_one_shape {P : NodePath}
    (getRemotes : SimpleGit -> option (list GitHubRemote.Remote))
    (s : GitService.t) (filePath : option string) (address : string) :
  GitHubRemote.getGitHubRemoteUrl getRemotes s filePath = Some address ->
  exists g remotes origin url pre sep owner repo suffix,
    getRemotes g = Some remotes
    /\ find (fun r => String.eqb (GitHubRemote.name r) "origin") remotes
       = Some origin
    /\ url = JS.orElse (Some (GitHubRemote.fetch (GitHubRemote.refs origin)))
               (GitHubRemote.push (GitHubRemote.refs origin))
    /\ url = pre +:+ "github.com" +:+ String sep "" +:+ owner +:+ "/"
               +:+ repo +:+ suffix
    /\ GitHubRemote.isSeparator sep = true
    /\ (suffix = "" \/ suffix = ".git")
    /\ owner <> "" /\ repo <> ""
    /\ forallb GitHubRemote.notSlash (JS.chars owner) = true
    /\ forallb GitHubRemote.notSlash (JS.chars repo) = true
    /\ address = "https://github.com/" +:+ owner +:+ "/" +:+ repo.
Proof.
  intros Hsome.
  assert (Hgit : exists g remotes,
            getRemotes g = Some remotes
            /\ GitHubRemote.originUrl remotes = Some address).
  { unfold GitHubRemote.getGitHubRemoteUrl in Hsome.
    assert (Hof : forall g, getRemotes g ≫= GitHubRemote.originUrl = Some address ->
              exists g remotes, getRemotes g = Some remotes
                /\ GitHubRemote.originUrl remotes = Some address).
    { intros g Hg. destruct (getRemotes g) as [remotes|] eqn:Hr; [|done].
      by exists g, remotes. }
    destruct filePath as [fp|]; [|by apply Hof in Hsome].
    destruct (JS.truthy fp); [|by apply Hof in Hsome].
    destruct (GitService.getRepoForFile s fp) as [repo|]; [|done].
    by apply Hof in Hsome. }
  destruct Hgit as (g & remotes & Hremotes & Hurl).
  unfold GitHubRemote.originUrl in Hurl.
  destruct (find _ remotes) as [origin|] eqn:Hfind; [|done].
  set (url := if JS.truthy (GitHubRemote.fetch (GitHubRemote.refs origin))
              then GitHubRemote.fetch (GitHubRemote.refs origin)
              else GitHubRemote.push (GitHubRemote.refs origin)) in *.
  destruct (JS.truthy url); [|done].
  destruct (GitHubRemote.search (JS.chars url)) as [[owner repo]|] eqn:Hs;
    [|done].
  injection Hurl as <-.
  apply search_sound in Hs
    as (pre & sep & tail & Hcs & Hsep & Ho & Hofree & Hr & Hrfree & Htail).
  exists g, remotes, origin, url, (JS.str pre), sep, owner, repo,
    (if decide (tail = JS.chars repo) then "" else ".git").
  split; [done|]. split; [done|]. split; [done|]. split.
  - rewrite <- (str_chars url), Hcs.
    rewrite !str_app. cbn [JS.str string_of_list_ascii].
    change (String sep (JS.str (JS.chars owner ++ "/"%char :: tail)))
      with (String sep "" +:+ JS.str (JS.chars owner ++ "/"%char :: tail)).
    rewrite str_app, str_chars.
    change (JS.str ("/"%char :: tail)) with ("/" +:+ JS.str tail).
    do 5 f_equal; [apply str_chars|].
    destruct (decide (tail = JS.chars repo)) as [->|Hne].
    + rewrite str_chars. by rewrite append_empty.
    + destruct Htail as [Ht|Ht]; [done|]. by rewrite Ht, str_app, str_chars.
  - split; [done|]. split; [by destruct (decide _); auto|]. done.
Qed.

Lemma github_address_has_one_shape_witness :
  exists owner repo,
    "https://github.com/owner/repo" = "https://github.com/" +:+ owner +:+ "/" +:+ repo
    /\ owner <> "" /\ repo <> "".
Proof.
  destruct (github_address_has_one_shape (P := PosixPath.posix)
              (fun _ => Some [ {| GitHubRemote.name := "origin";
                                  GitHubRemote.refs :=
                                    {| GitHubRemote.fetch := "";
                                       GitHubRemote.push :=
                                         "https://github.com/owner/repo.git" |} |} ])
              Examples.plainService None "https://github.com/owner/repo" eq_refl)
    as (g & remotes & origin & url & pre & sep & owner & repo & suffix
        & _ & _ & _ & _ & _ & _ & Ho & Hr & _ & _ & Haddr).
  exists owner, repo. by split.
Defined.

(** ** The texts on display *)

Section DisplayFacts.
Import Display.

Lemma length_append a b : length (a +:+ b) = length a + length b.
Proof.
  unfold length. induction a as [|c a IH]; [done|].
  change (String c a +:+ b) with (String c (a +:+ b)).
  cbn [String.length]. lia.
Qed.

Lemma length_substringTo n s :
  length (substringTo n s) = Z.max 0 (Z.min n (length s)).
Proof.
  unfold length, substringTo. rewrite length_str, length_take.
  rewrite <- (str_chars s) at 2. rewrite length_str. lia.
Qed.

Lemma length_repeatNbsp n :
  0 <= n -> exists s, repeatNbsp n = Some s /\ length s = n.
Proof.
  intros Hn. unfold repeatNbsp.
  destruct (Z.ltb_spec n 0); [lia|]. eexists. split; [done|].
  unfold length. rewrite length_str, length_replicate. lia.
Qed.

Lemma length_nonneg s : 0 <= length s.
Proof. unfold length. lia. Qed.

Lemma length_truncateAuthor author maxLength :
  2 <= maxLength -> length (truncateAuthor author maxLength) = maxLength.
Proof.
  intros Hmax. unfold truncateAuthor.
  pose proof (length_nonneg author).
  destruct (Z.leb_spec (length author) maxLength).
  - destruct (length_repeatNbsp (maxLength - length author)) as (s & -> & Hs);
      [lia|].
    rewrite length_append. cbn [default from_option id]. lia.
  - rewrite length_append, length_substringTo.
    change (length "..") with 2. lia.
Qed.

End DisplayFacts.

(** X23. The label of a commit is the message when that has at most 60
    code units, and has 63 code units otherwise; it always begins with
    the first 60 code units of the message. *)
Theorem commit_label_is_bounded (message : string) :
  Display.length (Display.displayMessage message)
    = (if 60 <? Display.length message then 63 else Display.length message)
  /\ Display.substringTo 60 (Display.displayMessage message)
     = Display.substringTo 60 message.
Proof.
  unfold Display.displayMessage. cbv zeta.
  destruct (Z.ltb_spec 60 (Display.length message)) as [Hlong|Hshort];
    [|done].
  split.
  - rewrite length_append, length_substringTo.
    change (Display.length "...") with 3. lia.
  - unfold Display.substringTo at 1 2. rewrite chars_app, chars_str.
    rewrite take_app_le.
    + by rewrite take_take.
    + rewrite length_take. unfold Display.length in Hlong.
      rewrite <- (str_chars message), length_str in Hlong. lia.
Qed.

(** X24. For a width of at least 2, [truncateAuthor] returns a text of
    exactly that width: when the author fits, the author followed by as
    many no-break spaces (U+00A0) as the width exceeds its length, and
    nothing else; when not, the author cut two short of the width
    followed by two dots. *)
Theorem truncateAuthor_fills_the_column (author : string) (maxLength : Z) :
  2 <= maxLength ->
  Display.length (Display.truncateAuthor author maxLength) = maxLength
  /\ (Display.length author <= maxLength ->
      Display.truncateAuthor author maxLength
      = author +:+ JS.str (replicate
                             (Z.to_nat (maxLength - Display.length author))
                             Display.NBSP)
      /\ JS.startsWith (Display.truncateAuthor author maxLength) author = true)
  /\ (maxLength < Display.length author ->
      Display.truncateAuthor author maxLength
      = Display.substringTo (maxLength - 2) author +:+ "..").
Proof.
  intros Hmax. split; [by apply length_truncateAuthor|].
  unfold Display.truncateAuthor.
  destruct (Z.leb_spec (Display.length author) maxLength) as [Hfits|Hlong];
    split; intros; try lia; try done.
  assert (Hpad : Display.repeatNbsp (maxLength - Display.length author)
                 = Some (JS.str (replicate
                                   (Z.to_nat (maxLength - Display.length author))
                                   Display.NBSP))).
  { unfold Display.repeatNbsp.
    destruct (Z.ltb_spec (maxLength - Display.length author) 0); [lia | done]. }
  rewrite Hpad. cbn [default from_option id]. split; [done|].
  apply startsWith_append.
Qed.

Lemma truncateAuthor_fills_the_column_witness :
  Display.truncateAuthor "Ada" 5
    = "Ada" +:+ JS.str [Display.NBSP; Display.NBSP]
  /\ Display.length (Display.truncateAuthor "Ada" 5) = 5
  /\ Display.truncateAuthor "Ada Lovelace-Byron" 12 = "Ada Lovela.."
  /\ Display.length (Display.truncateAuthor "Ada Lovelace-Byron" 12) = 12.
Proof.
  pose proof (truncateAuthor_fills_the_column "Ada" 5 ltac:(lia))
    as (Hlen & Hfits & _).
  pose proof (truncateAuthor_fills_the_column "Ada Lovelace-Byron" 12
                ltac:(lia)) as (Hlen' & _ & Hlong).
  split; [exact (proj1 (Hfits ltac:(vm_compute; discriminate)))|].
  split; [exact Hlen|].
  split; [exact (Hlong ltac:(vm_compute; reflexivity))|].
  exact Hlen'.
Defined.

(** X25. The text of a blame annotation has 23 code units whenever the
    date part has at most 10; with a longer date part the padding is
    asked for with a negative count, which throws. *)
Theorem blame_annotation_has_fixed_width (relativeTime author : string) :
  (Display.length relativeTime <= 10 ->
   exists text, Display.annotation relativeTime author = Some text
                /\ Display.length text = 23)
  /\ (10 < Display.length relativeTime ->
      Display.annotation relativeTime author = None).
Proof.
  unfold Display.annotation. cbv zeta.
  pose proof (length_truncateAuthor author 12 ltac:(lia)) as Hauthor.
  assert (Hlen : Display.length
            (relativeTime +:+ String Display.NBSP ""
               +:+ Display.truncateAuthor author 12)
          = Display.length relativeTime + 13).
  { rewrite !length_append, Hauthor.
    change (Display.length (String Display.NBSP "")) with 1. lia. }
  rewrite Hlen. split; intros Hdate.
  - destruct (length_repeatNbsp (10 + 1 + 12 - (Display.length relativeTime + 13)))
      as (padding & -> & Hpad); [lia|].
    eexists. split; [done|]. rewrite length_append, Hlen, Hpad. lia.
  - unfold Display.repeatNbsp.
    destruct (Z.ltb_spec (10 + 1 + 12 - (Display.length relativeTime + 13)) 0);
      [done | lia].
Qed.

Lemma blame_annotation_has_fixed_width_witness :
  exists text,
    Display.annotation "01/02/2024" "Ada" = Some text
    /\ Display.length text = 23.
Proof.
  exact (proj1 (blame_annotation_has_fixed_width "01/02/2024" "Ada")
           ltac:(vm_compute; discriminate)).
Defined.

(** ** The root of the view *)

Section ViewFacts.
Import HistoryView.
Context {P : NodePath} {C : Collation}.
Variable log : SimpleGit -> string -> Z -> option (list LogLine.t).
Variable oracle : GitQuery -> option string.

Lemma getCommitsForFile_items now svc v filePath :
  EmptyStateItem "Not a git repository" ∉ (getCommitsForFile log now svc v filePath).1.1.
Proof.
  unfold getCommitsForFile.
  destruct (loadedCommits v !! filePath) as [commits|].
  - destruct (Z.of_nat (length commits) =? 0); cbn.
    + intros Hin. apply list_elem_of_singleton in Hin. discriminate Hin.
    + destruct (_ =? _); cbn; intros Hin.
      * apply elem_of_app in Hin as [Hin|Hin].
        -- apply list_elem_of_fmap in Hin as (c & Hc & _). discriminate Hc.
        -- apply list_elem_of_singleton in Hin. discriminate Hin.
      * apply list_elem_of_fmap in Hin as (c & Hc & _). discriminate Hc.
  - destruct (GitLog.getLog log now svc filePath 0) as [commits svc'].
    destruct (Z.of_nat (length commits) =? 0); cbn.
    + intros Hin. apply list_elem_of_singleton in Hin. discriminate Hin.
    + destruct (_ =? _); cbn; intros Hin.
      * apply elem_of_app in Hin as [Hin|Hin].
        -- apply list_elem_of_fmap in Hin as (c & Hc & _). discriminate Hc.
        -- apply list_elem_of_singleton in Hin. discriminate Hin.
      * apply list_elem_of_fmap in Hin as (c & Hc & _). discriminate Hc.
Qed.

Lemma filesForCommit_items now h svc v hash items h' svc' v' :
  filesForCommit oracle now h svc v hash = Some (items, h', svc', v') ->
  EmptyStateItem "Not a git repository" ∉ items.
Proof.
  unfold filesForCommit.
  destruct (run oracle _) as [[[[files h1] s1] p1]|]; [|done].
  intros [= <- _ _ _] Hin.
  apply list_elem_of_fmap in Hin as (c & Hc & _). discriminate Hc.
Qed.

End ViewFacts.

(** X26. [getChildren] tests the promise that [isValidRepo] returns, not
    what it resolves to; a promise is an object, so the test never
    fails, and no call of [getChildren], in a repository or not, on the
    root, a commit, a folder or any other item, returns the item that
    says that this is no repository. *)
Theorem not_a_repository_is_never_reported {P : NodePath} {C : Collation}
    (log : SimpleGit -> string -> Z -> option (list LogLine.t))
    (oracle : GitQuery -> option string)
    (now : Z) (h : Store) (svc : GitLog.t) (v : HistoryView.t)
    (element : HistoryView.Element)
    (items : list HistoryView.Item) (h' : Store) (svc' : GitLog.t)
    (v' : HistoryView.t) :
  HistoryView.getChildren log oracle now h svc v element
    = Some (items, h', svc', v') ->
  HistoryView.EmptyStateItem "Not a git repository" ∉ items.
Proof.
  unfold HistoryView.getChildren. cbn [HistoryView.truthyObject negb].
  assert (Hopen : forall s,
            Some ([HistoryView.EmptyStateItem "Open a file to see git history"],
                  h, svc, v) = Some (items, h', svc', v') ->
            HistoryView.EmptyStateItem s ∉ items \/ s = "Open a file to see git history").
  { intros s [= <- _ _ _].
    destruct (decide (s = "Open a file to see git history")) as [->|Hs];
      [by right|left].
    intros Hin. apply list_elem_of_singleton in Hin. congruence. }
  destruct (GitHistoryProvider.currentFilePath (HistoryView.provider v))
    as [cur|].
  2: { intros Heq. by destruct (Hopen "Not a git repository" Heq). }
  destruct (JS.truthy cur); cbn [negb].
  2: { intros Heq. by destruct (Hopen "Not a git repository" Heq). }
  assert (Hfolder : forall folder place,
            match
              HistoryView.findCommitHashForFolder (HistoryView.provider v)
                folder place
            with
            | Some commitHash =>
                if JS.truthy commitHash then
                  match
                    GitHistoryProvider.commitFiles (HistoryView.provider v)
                      !! commitHash
                  with
                  | Some folders =>
                      Some (map HistoryView.TreeNode
                              (default []
                                 (folders !! TreeItems.folderPath folder)),
                            h, svc, v)
                  | None => Some ([], h, svc, v)
                  end
                else Some ([], h, svc, v)
            | None => Some ([], h, svc, v)
            end = Some (items, h', svc', v') ->
            HistoryView.EmptyStateItem "Not a git repository" ∉ items).
  { intros folder place Heq.
    assert (Hitems : items = []
                     \/ exists nodes, items = map HistoryView.TreeNode nodes).
    { destruct (HistoryView.findCommitHashForFolder _ _ _) as [commitHash|];
        [|left; congruence].
      destruct (JS.truthy commitHash); [|left; congruence].
      destruct (_ !! commitHash) as [folders|]; [|left; congruence].
      right. eexists. by injection Heq as <- _ _ _. }
    destruct Hitems as [->|[nodes ->]]; intros Hin.
    - by apply elem_of_nil in Hin.
    - apply list_elem_of_fmap in Hin as (c & Hc & _). discriminate Hc. }
  destruct (HistoryView.focused (HistoryView.provider v)) as [hash|],
    element as [|commit|folder place|].
  - destruct (HistoryView.filesForCommit oracle now h svc v hash)
      as [[[[files h1] s1] v1]|] eqn:Hfiles; [|done].
    intros [= <- _ _ _] Hin.
    apply elem_of_cons in Hin as [Hin|Hin]; [discriminate Hin|].
    by apply (filesForCommit_items _ _ _ _ _ _ _ _ _ _ Hfiles).
  - apply filesForCommit_items.
  - apply Hfolder.
  - intros [= <- _ _ _] Hin. by apply elem_of_nil in Hin.
  - pose proof (getCommitsForFile_items log now svc v cur) as Hlist.
    destruct (HistoryView.getCommitsForFile log now svc v cur)
      as [[list s1] v1].
    by intros [= <- _ _ _].
  - apply filesForCommit_items.
  - apply Hfolder.
  - intros [= <- _ _ _] Hin. by apply elem_of_nil in Hin.
Qed.

Lemma not_a_repository_is_never_reported_witness :
  let svc := {| GitLog.service := RepoDetection.construct "/tmp";
                GitLog.logCache := ∅ |} in
  RepoDetection.isValidRepo (GitLog.service svc) = false
  /\ (HistoryView.EmptyStateItem "Not a git repository"
      ∉ [HistoryView.EmptyStateItem "No history found for this file"])
  /\ HistoryView.EmptyStateItem "Not a git repository"
     ∉ map HistoryView.TreeNode
         [TreeItems.File
            {| TreeItems.fileName := "a.ts";
               TreeItems.commitHash := "abc123";
               TreeItems.filePath := "src/a.ts";
               TreeItems.isCurrentFile := true;
               TreeItems.status := modified |};
          TreeItems.File
            {| TreeItems.fileName := "b.ts";
               TreeItems.commitHash := "abc123";
               TreeItems.filePath := "src/b.ts";
               TreeItems.isCurrentFile := false;
               TreeItems.status := added |}].
Proof.
  split; [reflexivity|]. split.
  - refine (not_a_repository_is_never_reported
              (P := PosixPath.posix) (C := CodeUnitOrder.collation)
              (fun _ _ _ => None) (fun _ => None) 0 ∅
              {| GitLog.service := RepoDetection.construct "/tmp";
                 GitLog.logCache := ∅ |}
              {| HistoryView.provider :=
                   GitHistoryProvider.clearFocusedCommit
                     (Examples.autoProvider "/tmp/a.ts");
                 HistoryView.loadedCommits := ∅;
                 HistoryView.currentPage := ∅ |}
              HistoryView.root _ _ _ _ _).
    vm_compute. reflexivity.
  - refine (not_a_repository_is_never_reported
              (P := PosixPath.posix) (C := CodeUnitOrder.collation)
              (fun _ _ _ => None) (fun _ => None) 0 ∅
              {| GitLog.service := RepoDetection.construct "/tmp";
                 GitLog.logCache := ∅ |}
              {| HistoryView.provider :=
                   (GitHistoryProvider.rebuild
                      (P := PosixPath.posix) (C := CodeUnitOrder.collation)
                      Examples.plainService
                      (Examples.autoProvider "/ws/src/a.ts")
                      Examples.store 1%positive "abc123").2;
                 HistoryView.loadedCommits := ∅;
                 HistoryView.currentPage := ∅ |}
              (HistoryView.ofFolder
                 {| TreeItems.folderName := "src";
                    TreeItems.folderPath := "src";
                    TreeItems.collapsibleState := TreeItems.Expanded |}
                 (Some ("abc123", "", 0%nat))) _ _ _ _ _).
    vm_compute. reflexivity.
Defined.

Lemma initialised_without_repository {P : NodePath}
    (host : RepoDetection.Host) (workspaceRoot filePath : string) :
  RepoDetection.checkIsRepo host workspaceRoot <> Some true ->
  GitService.getRepoForFile (RepoDetection.initialised host workspaceRoot)
    filePath = None
  /\ RepoDetection.isValidRepo (RepoDetection.initialised host workspaceRoot)
     = false.
Proof.
  intros Hno.
  destruct (initialised_facts host workspaceRoot)
    as (_ & Hmain & Hnone & Hvalid & _).
  cbv zeta in *.
  destruct (GitService.isGitRepo
              (RepoDetection.initialised host workspaceRoot)) eqn:Hrepo.
  - destruct Hno. by apply Hmain.
  - split; [|by rewrite Hvalid].
    unfold GitService.getRepoForFile. by rewrite (Hnone eq_refl), Hrepo.
Qed.

(** X27. In a workspace that is no repository, with a file open, no
    commit in focus and no commits loaded for the file, the root of the
    view is the one item that says that no history was found; the log
    is not asked for, and an empty list of commits is recorded for the
    file. *)
Theorem workspace_without_repository_shows_no_history
    {P : NodePath} {C : Collation}
    (host : RepoDetection.Host) (workspaceRoot : string)
    (log : SimpleGit -> string -> Z -> option (list LogLine.t))
    (oracle : GitQuery -> option string) (now : Z) (h : Store)
    (logCache : gmap string (CacheManager.CacheEntry (list CommitInfo.t)))
    (v : HistoryView.t) (cur : string) :
  RepoDetection.checkIsRepo host workspaceRoot <> Some true ->
  GitHistoryProvider.currentFilePath (HistoryView.provider v) = Some cur ->
  cur <> "" ->
  HistoryView.focused (HistoryView.provider v) = None ->
  HistoryView.loadedCommits v !! cur = None ->
  let svc := {| GitLog.service :=
                  RepoDetection.initialised host workspaceRoot;
                GitLog.logCache := logCache |} in
  RepoDetection.isValidRepo (GitLog.service svc) = false
  /\ HistoryView.getChildren log oracle now h svc v HistoryView.root
     = Some ([HistoryView.EmptyStateItem "No history found for this file"],
             h, svc,
             {| HistoryView.provider := HistoryView.provider v;
                HistoryView.loadedCommits :=
                  <[cur := []]> (HistoryView.loadedCommits v);
                HistoryView.currentPage :=
                  <[cur := 0]> (HistoryView.currentPage v) |}).
Proof.
  intros Hno Hcur Hne Hfocus Hfresh svc.
  destruct (initialised_without_repository host workspaceRoot cur Hno)
    as [Hrepo Hvalid].
  split; [done|].
  unfold HistoryView.getChildren. cbn [HistoryView.truthyObject negb].
  rewrite Hcur. apply truthy_nonempty in Hne as ->. cbn [negb].
  rewrite Hfocus. unfold HistoryView.getCommitsForFile.
  rewrite Hfresh. unfold GitLog.getLog. cbn [GitLog.service svc].
  by rewrite Hrepo.
Qed.

Lemma workspace_without_repository_shows_no_history_witness :
  let host := {| RepoDetection.checkIsRepo := fun _ => Some false;
                 RepoDetection.subModuleStatus := None |} in
  let svc := {| GitLog.service :=
                  RepoDetection.initialised (P := PosixPath.posix) host "/tmp";
                GitLog.logCache := ∅ |} in
  RepoDetection.isValidRepo (GitLog.service svc) = false.
Proof.
  exact (proj1 (workspace_without_repository_shows_no_history
                  (P := PosixPath.posix) (C := CodeUnitOrder.collation)
                  {| RepoDetection.checkIsRepo := fun _ => Some false;
                     RepoDetection.subModuleStatus := None |} "/tmp"
                  (fun _ _ _ => None) (fun _ => None) 0 ∅ ∅
                  {| HistoryView.provider :=
                       GitHistoryProvider.clearFocusedCommit
                         (Examples.autoProvider "/tmp/a.ts");
                     HistoryView.loadedCommits := ∅;
                     HistoryView.currentPage := ∅ |}
                  "/tmp/a.ts"
                  ltac:(discriminate) eq_refl ltac:(discriminate)
                  eq_refl eq_refl)).
Defined.

(** ** The pages of the commit list *)

Section Pages.
Import HistoryView.
Context {P : NodePath}.
Variable log : SimpleGit -> string -> Z -> option (list LogLine.t).
Hypothesis log_bounded : boundedLog log.

Lemma getLog_bounded now svc filePath page :
  boundedPages svc ->
  (length (GitLog.getLog log now svc filePath page).1 <= 50)%nat
  /\ boundedPages (GitLog.getLog log now svc filePath page).2.
Proof.
  intros Hsvc. unfold GitLog.getLog.
  destruct (GitService.getRepoForFile _ _) as [repo|]; [|by split; cbn; [lia|]].
  destruct (CacheManager.get _ _) as [cached|] eqn:Hget.
  - split; [|done]. cbn. rewrite get_lookup in Hget.
    destruct (GitLog.logCache svc !! _) as [e|] eqn:He; [|done].
    injection Hget as <-. by apply (Hsvc _ _ He).
  - destruct (log _ _ _) as [all|] eqn:Hlog; [|by split; cbn; [lia|]].
    pose proof (log_bounded _ _ _ _ Hlog) as Hall.
    split; cbn [fst snd]; [by rewrite length_map|].
    intros key e. cbn [GitLog.logCache GitLog.withLogCache].
    unfold CacheManager.set.
    destruct (decide (key = GitLog.logKey filePath page)) as [->|Hk].
    + rewrite lookup_insert_eq. intros [= <-]. cbn. by rewrite length_map.
    + rewrite lookup_insert_ne by done. apply Hsvc.
Qed.

Lemma pagesUpTo_bounded now svc filePath k :
  boundedPages svc ->
  length (pagesUpTo log now svc filePath k).1 = S k
  /\ Forall (fun p => (length p <= 50)%nat) (pagesUpTo log now svc filePath k).1
  /\ boundedPages (pagesUpTo log now svc filePath k).2.
Proof.
  intros Hsvc. induction k as [|k IH]; cbn [pagesUpTo].
  - destruct (getLog_bounded now svc filePath 0 Hsvc) as [Hlen Hb].
    destruct (GitLog.getLog log now svc filePath 0) as [commits svc'].
    cbn in *. split; [done|]. split; [|done]. by constructor.
  - destruct (pagesUpTo log now svc filePath k) as [pages svc1].
    destruct IH as (Hn & Hall & Hb1). cbn [fst snd] in *.
    destruct (getLog_bounded now svc1 filePath (Z.of_nat (S k)) Hb1)
      as [Hlen Hb].
    destruct (GitLog.getLog log now svc1 filePath (Z.of_nat (S k)))
      as [commits svc2].
    cbn [fst snd] in *. split; [rewrite length_app; cbn; lia|].
    split; [|done]. apply Forall_app. split; [done|]. by constructor.
Qed.

Lemma browse_pages now svc v filePath k :
  loadedCommits v !! filePath = None ->
  (browse log now svc v filePath k).1 = (pagesUpTo log now svc filePath k).2
  /\ loadedCommits (browse log now svc v filePath k).2 !! filePath
     = Some (concat (pagesUpTo log now svc filePath k).1)
  /\ currentPage (browse log now svc v filePath k).2 !! filePath
     = Some (Z.of_nat k).
Proof.
  intros Hfresh. induction k as [|k IH]; cbn [browse pagesUpTo].
  - unfold getCommitsForFile. rewrite Hfresh.
    destruct (GitLog.getLog log now svc filePath 0) as [commits svc'].
    destruct (Z.of_nat (length commits) =? 0);
      cbn [fst snd loadedCommits currentPage concat];
      rewrite !lookup_insert_eq, ?app_nil_r; done.
  - destruct (browse log now svc v filePath k) as [svc1 v1].
    destruct (pagesUpTo log now svc filePath k) as [pages svcP].
    cbn [fst snd] in IH. destruct IH as (-> & Hloaded & Hpage).
    unfold loadMore.
    destruct (GitLog.getLog log now svcP filePath (Z.of_nat (S k)))
      as [commits svc2].
    cbn [fst snd loadedCommits currentPage].
    rewrite !lookup_insert_eq, Hloaded. cbn.
    by rewrite concat_app, (app_nil_r commits : concat [commits] = commits).
Qed.

End Pages.

Lemma full_pages (pages : list (list CommitInfo.t)) :
  Forall (fun p => (length p <= 50)%nat) pages ->
  (Z.of_nat (length (concat pages)) = 50 * Z.of_nat (length pages)
   <-> forallb (fun p => (length p =? 50)%nat) pages = true).
Proof.
  intros Hall.
  assert (Hsum : (length (concat pages) <= 50 * length pages)%nat).
  { induction Hall as [|p pages Hp _ IH]; cbn; [lia|].
    rewrite length_app. lia. }
  induction Hall as [|p pages Hp Hall IH]; cbn; [done|].
  assert (Hrest : (length (concat pages) <= 50 * length pages)%nat).
  { clear -Hall. induction Hall as [|q pages Hq _ IH]; cbn; [lia|].
    rewrite length_app. lia. }
  rewrite length_app, andb_true_iff, Nat.eqb_eq, <- IH; [lia|done].
Qed.

(** X28. When no page of the log exceeds the fifty commits asked for:
    after the list of a file has been shown and more commits have been
    loaded k times, the list holds the pages 0 to k one after the other,
    the current page is k, and the item that loads more is offered,
    with page k + 1, exactly when every page so far was full. *)
Theorem load_more_is_offered_while_pages_are_full {P : NodePath}
    (log : SimpleGit -> string -> Z -> option (list LogLine.t))
    (now now' : Z) (svc : GitLog.t) (v : HistoryView.t) (filePath : string)
    (k : nat) :
  boundedLog log -> boundedPages svc ->
  HistoryView.loadedCommits v !! filePath = None ->
  let pages := (pagesUpTo log now svc filePath k).1 in
  let svc' := (browse log now svc v filePath k).1 in
  let v' := (browse log now svc v filePath k).2 in
  let commits := concat pages in
  length pages = S k
  /\ Forall (fun p => (length p <= 50)%nat) pages
  /\ HistoryView.loadedCommits v' !! filePath = Some commits
  /\ HistoryView.currentPage v' !! filePath = Some (Z.of_nat k)
  /\ (HistoryView.getCommitsForFile log now' svc' v' filePath).1.1
     = (if (length commits =? 0)%nat
        then [HistoryView.EmptyStateItem "No history found for this file"]
        else
          map (fun commit => HistoryView.CommitItem commit filePath) commits
          ++ (if forallb (fun p => (length p =? 50)%nat) pages
              then [HistoryView.LoadMoreItem filePath (Z.of_nat k + 1)]
              else [])).
Proof.
  intros Hlog Hsvc Hfresh pages svc' v' commits.
  destruct (pagesUpTo_bounded log Hlog now svc filePath k Hsvc)
    as (Hn & Hall & _).
  destruct (browse_pages log now svc v filePath k Hfresh)
    as (_ & Hloaded & Hpage).
  fold pages in Hn, Hall, Hloaded. fold v' in Hloaded, Hpage.
  fold commits in Hloaded.
  split; [done|]. split; [done|]. split; [done|]. split; [done|].
  unfold HistoryView.getCommitsForFile. rewrite Hloaded, Hpage.
  cbn [default from_option id].
  destruct (Nat.eqb_spec (length commits) 0) as [Hzero|Hsome].
  - rewrite Hzero. done.
  - destruct (Z.eqb_spec (Z.of_nat (length commits)) 0) as [?|_]; [lia|].
    cbn [fst].
    pose proof (full_pages pages Hall) as Hfull. fold commits in Hfull.
    rewrite Hn in Hfull.
    destruct (forallb _ pages).
    + rewrite (proj2 (Z.eqb_eq _ _)); [done|].
      etransitivity; [apply Hfull; done | lia].
    + rewrite app_nil_r.
      destruct (Z.eqb_spec (Z.of_nat (length commits)) (50 * (Z.of_nat k + 1)))
        as [Heq|_]; [|done].
      assert (false = true); [|done]. apply Hfull. lia.
Qed.

Lemma load_more_is_offered_while_pages_are_full_witness :
  let line := {| LogLine.hash := "abc123"; LogLine.date := "2024-01-01";
                 LogLine.message := "first"; LogLine.author_name := None;
                 LogLine.author := Some "Ada"; LogLine.author_email := None;
                 LogLine.authorEmail := Some "ada@example.org" |} in
  let log := fun (_ : SimpleGit) (_ : string) (skip : Z) =>
               if skip =? 0 then Some [line; line] else Some [] in
  let svc := {| GitLog.service := Examples.plainService;
                GitLog.logCache := ∅ |} in
  let v := {| HistoryView.provider := Examples.autoProvider "/ws/a.ts";
              HistoryView.loadedCommits := ∅;
              HistoryView.currentPage := ∅ |} in
  length (pagesUpTo (P := PosixPath.posix) log 0 svc "/ws/a.ts" 1).1 = 2%nat.
Proof.
  intros line log svc v.
  refine (proj1 (load_more_is_offered_while_pages_are_full
                   (P := PosixPath.posix) log 0 0 svc v "/ws/a.ts" 1 _ _ _)).
  - intros g file skip all. unfold log.
    destruct (skip =? 0); intros [= <-]; cbn; lia.
  - intros key e He. cbn in He. by rewrite lookup_empty in He.
  - reflexivity.
Defined.

(** ** Switching to another file *)

(** X29. When the editor changes to another file (not a document of the
    extension itself), the commit in focus and the registered trees are
    dropped while the fold mode stays as it was, and the root of the
    view shows page 0 of the log of the new file, followed by the item
    that loads more exactly when that page holds fifty commits. *)
Theorem switching_files_shows_the_first_page {P : NodePath} {C : Collation}
    (log : SimpleGit -> string -> Z -> option (list LogLine.t))
    (oracle : GitQuery -> option string) (now : Z) (h : Store)
    (svc : GitLog.t) (v : HistoryView.t) (fileName scheme : string) :
  scheme <> "git-history" -> scheme <> "diff" ->
  HistoryView.includes fileName "git-history" = false ->
  fileName <> "" ->
  GitHistoryProvider.currentFilePath (HistoryView.provider v)
    <> Some fileName ->
  let v1 := HistoryView.handleEditorChange v fileName scheme in
  let page := (GitLog.getLog log now svc fileName 0).1 in
  GitHistoryProvider.manualFoldState (HistoryView.provider v1)
    = GitHistoryProvider.manualFoldState (HistoryView.provider v)
  /\ GitHistoryProvider.allFoldersExpanded (HistoryView.provider v1)
     = GitHistoryProvider.allFoldersExpanded (HistoryView.provider v)
  /\ GitHistoryProvider.commitFiles (HistoryView.provider v1) = ∅
  /\ HistoryView.focused (HistoryView.provider v1) = None
  /\ exists v2,
       HistoryView.getChildren log oracle now h svc v1 HistoryView.root
       = Some ((if (length page =? 0)%nat
                then [HistoryView.EmptyStateItem
                        "No history found for this file"]
                else
                  map (fun commit => HistoryView.CommitItem commit fileName)
                    page
                  ++ (if (length page =? 50)%nat
                      then [HistoryView.LoadMoreItem fileName 1] else [])),
               h, (GitLog.getLog log now svc fileName 0).2, v2).
Proof.
  intros Hscheme Hdiff Hname Hne Hother v1 page.
  assert (Hv1 : v1 = HistoryView.setCurrentFile
            (if bool_decide (is_Some (HistoryView.focused (HistoryView.provider v)))
                && negb (bool_decide
                           (GitHistoryProvider.currentFilePath
                              (HistoryView.provider v) = Some fileName))
             then HistoryView.withProvider v
                    {| GitHistoryProvider.currentFilePath :=
                         GitHistoryProvider.currentFilePath (HistoryView.provider v);
                       GitHistoryProvider.commitFiles :=
                         GitHistoryProvider.commitFiles (HistoryView.provider v);
                       GitHistoryProvider.focusedCommitHash := None;
                       GitHistoryProvider.allFoldersExpanded :=
                         GitHistoryProvider.allFoldersExpanded (HistoryView.provider v);
                       GitHistoryProvider.manualFoldState :=
                         GitHistoryProvider.manualFoldState (HistoryView.provider v) |}
             else v) fileName).
  { subst v1. unfold HistoryView.handleEditorChange.
    apply String.eqb_neq in Hscheme, Hdiff. rewrite Hscheme, Hdiff, Hname.
    cbn [orb]. reflexivity. }
  rewrite (bool_decide_eq_false_2 _ Hother) in Hv1. cbn [negb] in Hv1.
  rewrite andb_true_r in Hv1.
  assert (Hshape :
    HistoryView.focused (HistoryView.provider v1) = None
    /\ GitHistoryProvider.currentFilePath (HistoryView.provider v1) = Some fileName
    /\ GitHistoryProvider.manualFoldState (HistoryView.provider v1)
       = GitHistoryProvider.manualFoldState (HistoryView.provider v)
    /\ GitHistoryProvider.allFoldersExpanded (HistoryView.provider v1)
       = GitHistoryProvider.allFoldersExpanded (HistoryView.provider v)
    /\ GitHistoryProvider.commitFiles (HistoryView.provider v1) = ∅
    /\ HistoryView.loadedCommits v1 !! fileName = None
    /\ HistoryView.currentPage v1 !! fileName = Some 0).
  { rewrite Hv1. unfold HistoryView.setCurrentFile.
    destruct (bool_decide (is_Some (HistoryView.focused (HistoryView.provider v))))
      eqn:Hfocus.
    - cbn [HistoryView.provider HistoryView.withProvider
           GitHistoryProvider.currentFilePath].
      rewrite (bool_decide_eq_false_2 _ Hother).
      cbn. by rewrite lookup_delete_eq, lookup_insert_eq.
    - rewrite (bool_decide_eq_false_2 _ Hother).
      apply bool_decide_eq_false in Hfocus.
      unfold HistoryView.focused in *.
      cbn. rewrite lookup_delete_eq, lookup_insert_eq.
      split; [|done].
      destruct (GitHistoryProvider.focusedCommitHash (HistoryView.provider v))
        as [hash|]; [|done].
      destruct (JS.truthy hash); [|done]. destruct Hfocus. eauto. }
  destruct Hshape as (Hfocus & Hcur & Hmode & Hexp & Htrees & Hloaded & Hpage).
  split; [done|]. split; [done|]. split; [done|]. split; [done|].
  unfold HistoryView.getChildren. cbn [HistoryView.truthyObject negb].
  rewrite Hcur. apply truthy_nonempty in Hne as ->. cbn [negb].
  rewrite Hfocus. unfold HistoryView.getCommitsForFile.
  rewrite Hloaded, Hpage. cbn [default from_option id].
  subst page. destruct (GitLog.getLog log now svc fileName 0) as [commits svc'].
  cbn [fst snd].
  destruct (Nat.eqb_spec (length commits) 0) as [Hzero|Hsome].
  - rewrite Hzero. cbn. eauto.
  - destruct (Z.eqb_spec (Z.of_nat (length commits)) 0) as [?|_]; [lia|].
    destruct (Nat.eqb_spec (length commits) 50) as [Hfull|Hpart].
    + rewrite Hfull. cbn. eauto.
    + destruct (Z.eqb_spec (Z.of_nat (length commits)) (50 * (0 + 1)))
        as [?|_]; [lia|].
      rewrite app_nil_r. eauto.
Qed.

Lemma switching_files_shows_the_first_page_witness :
  let v := {| HistoryView.provider := Examples.autoProvider "/ws/a.ts";
              HistoryView.loadedCommits := ∅;
              HistoryView.currentPage := ∅ |} in
  HistoryView.focused
    (HistoryView.provider (HistoryView.handleEditorChange v "/ws/b.ts" "file"))
  = None.
Proof.
  intros v.
  refine (proj1 (proj2 (proj2 (proj2
            (switching_files_shows_the_first_page
               (P := PosixPath.posix) (C := CodeUnitOrder.collation)
               (fun _ _ _ => None) (fun _ => None) 0 ∅
               {| GitLog.service := Examples.plainService;
                  GitLog.logCache := ∅ |}
               v "/ws/b.ts" "file" _ _ _ _ _))))); try discriminate.
  reflexivity.
Defined.
